(** * gofb2: the stack-driven FictionBook parser

    A shallow embedding of the Go package [gofb2] (the parser, content.go,
    the document types and xml_types.go) and the properties of its
    dispatch engine.

    Go pointers to nodes are addresses into an explicit store, so that the
    aliasing between a parent's slots, the parser stack and the current
    node is the one of the program.  A Go panic is an outcome of its own. *)

From Stdlib Require Import ZArith Ascii String Lia ZifyNat.
From stdpp Require Import base tactics option list.

Local Open Scope string_scope.
Local Open Scope list_scope.

(** ** encoding/xml tokens *)

(** [xml.Name]. *)
Record Name := mkName { Space : string; Local : string }.

(** [xml.Attr]. *)
Record Attr := mkAttr { AttrName : Name; Value : string }.

(** [xml.StartElement]. *)
Record StartElement := mkStart { StartName : Name; StartAttr : list Attr }.

(** [xml.CharData] is a byte slice; a Go string is a byte sequence as
    well, and so is a Rocq [string]: both are modelled by [string]. *)
Definition CharData := string.

(** [xml.Token]: the three kinds the parser looks at, and the kinds it
    lets through ([xml.Comment], [xml.ProcInst], [xml.Directive]). *)
Inductive Token :=
| TStartElement (e : StartElement)
| TEndElement (name : Name)
| TCharData (cd : CharData)
| TComment (c : string)
| TProcInst (target inst : string)
| TDirective (d : string).

Definition Name_eqb (a b : Name) : bool :=
  String.eqb (Space a) (Space b) && String.eqb (Local a) (Local b).

(** ** Errors

    The Go code builds its errors with [fmt.Errorf]; an error is kept here
    by the call that built it and its arguments. *)
#[local] Set Warnings "-register-all".
Inductive error :=
| EOF                                   (* io.EOF *)
| DecoderError (msg : string)           (* another failure of the token source *)
| UnexpectedTag (n : Name)              (* "unexpected tag %s", start.Name *)
| UnexpectedAttr (n : Name)             (* "unexpected attr %s", attr.Name *)
| UnknownAttr (local : string)          (* "unknown attr %s", attr.Name.Local *)
| UnexpectedCloseTag (n : Name)         (* "unexpected close tag %s", e.Name *)
| UnknownBody (a : Attr)                (* "Unknown body with attr %v", start.Attr[0] *)
| ErrSyntax (s : string)                (* strconv: invalid syntax *)
| ErrRange (s : string)                 (* strconv: value out of range *)
| CorruptInputError (offset : nat)      (* encoding/base64 *)
| TimeParseError (value : string)       (* time.Parse *)
| ErrParsing (local : string) (errs : list error).
                                        (* "error while parsing %s: %s", local, parseErrors *)

(** A call either returns or panics. *)
Inductive outcome (A : Type) :=
| Ret (a : A)
| Panicked.
Arguments Ret {A} a.
Arguments Panicked {A}.

(** ** The Node interface and the parser

    [store] is the memory the nodes live in and [ref] a pointer to a node.
    Each method of the Go interface takes the receiver's pointer and the
    store, and returns the store it leaves. *)
Class Node (store ref : Type) := {
  SetXMLName : ref -> Name -> store -> store;
  GetXMLName : ref -> store -> Name;
  tagCallback : ref -> StartElement -> store -> (option ref * option error) * store;
  attrCallback : ref -> Attr -> store -> option error * store;
  charDataCallback : ref -> CharData -> store -> option error * store
}.

Section Parser.
Context {store ref : Type} `{!Node store ref}.

(** [type Parser struct { stack []Node; last Node; first Node }];
    a nil interface value is [None]. *)
Record Parser := mkParser {
  stack : list ref;
  last : option ref;
  first : option ref
}.

(** [NewParser]. *)
Definition NewParser (n : option ref) : Parser :=
  {| stack := []; last := None; first := n |}.

(** [for _, attr := range e.Attr]: the loop of [ParseToken] over the
    attributes of an open tag; it returns at the first error. *)
Fixpoint forwardAttrs (r : ref) (attrs : list Attr) (s : store)
  : option error * store :=
  match attrs with
  | [] => (None, s)
  | attr :: rest =>
      match attrCallback r attr s with
      | (Some err, s') => (Some err, s')
      | (None, s') => forwardAttrs r rest s'
      end
  end.

(** The tail of the [xml.StartElement] case: [p.last.SetXMLName(e.Name)]
    and the attribute loop, with [p.last] already chosen. *)
Definition openNode (p : Parser) (e : StartElement) (s : store)
  : outcome (option error * Parser * store) :=
  match last p with
  | None => Panicked
  | Some r =>
      let s1 := SetXMLName r (StartName e) s in
      let '(err, s2) := forwardAttrs r (StartAttr e) s1 in
      Ret (err, p, s2)
  end.

(** [Parser.ParseToken]. *)
Definition ParseToken (p : Parser) (token : Token) (s : store)
  : outcome (option error * Parser * store) :=
  match token with
  | TStartElement e =>
      match last p with
      | Some l =>
          match tagCallback l e s with
          | (_, Some err, s') => Ret (Some err, p, s')
          | (nt, None, s') =>
              openNode {| stack := stack p ++ [l]; last := nt; first := first p |} e s'
          end
      | None =>
          openNode {| stack := stack p; last := first p; first := first p |} e s
      end
  | TEndElement name =>
      match last p with
      | None => Panicked
      | Some l =>
          if negb (Name_eqb (GetXMLName l s) name)
          then Ret (Some (UnexpectedCloseTag name), p, s)
          else
            match List.rev (stack p) with
            | top :: below =>
                Ret (None, {| stack := List.rev below; last := Some top; first := first p |}, s)
            | [] =>
                Ret (None, {| stack := stack p; last := None; first := first p |}, s)
            end
      end
  | TCharData cd =>
      match last p with
      | Some l =>
          match charDataCallback l cd s with
          | (Some err, s') => Ret (Some err, p, s')
          | (None, s') => Ret (None, p, s')
          end
      | None => Ret (None, p, s)
      end
  | TComment _ | TProcInst _ _ | TDirective _ => Ret (None, p, s)
  end.

(** What [d.Token()] yields until it fails: the tokens, then the error
    that ends the stream ([io.EOF] for a clean end). *)
Record Decoder := mkDecoder { pending : list Token; failure : error }.

(** The [for] loop of [Parse]: every token goes to [ParseToken] and the
    error it returns is assigned to [err] and overwritten by the next
    [d.Token()]. *)
Fixpoint dispatch (p : Parser) (tokens : list Token) (s : store)
  : outcome (Parser * store) :=
  match tokens with
  | [] => Ret (p, s)
  | token :: rest =>
      match ParseToken p token s with
      | Panicked => Panicked
      | Ret (_, p', s') => dispatch p' rest s'
      end
  end.

Definition is_EOF (e : error) : bool :=
  match e with EOF => true | _ => false end.

(** [Parser.Parse]. *)
Definition Parse (p : Parser) (d : Decoder) (start : StartElement) (s : store)
  : outcome (option error * Parser * store) :=
  match ParseToken p (TStartElement start) s with
  | Panicked => Panicked
  | Ret (_, p1, s1) =>
      match dispatch p1 (pending d) s1 with
      | Panicked => Panicked
      | Ret (p2, s2) =>
          let parseErr := if is_EOF (failure d) then [] else [failure d] in
          match parseErr with
          | [] => Ret (None, p2, s2)
          | _ :: _ => Ret (Some (ErrParsing (Local (StartName start)) parseErr), p2, s2)
          end
      end
  end.

(** The parser and the store a call leaves, apart from the error it
    returns. *)
Definition left_by (o : outcome (option error * Parser * store)) : outcome (Parser * store) :=
  match o with
  | Ret (_, p, s) => Ret (p, s)
  | Panicked => Panicked
  end.

End Parser.

Arguments Parser ref : clear implicits.

(** ** strconv.Atoi (Go standard library, 64-bit [int])

    An optional sign and decimal digits.  A syntax error gives 0, a value
    out of the [int] range gives the nearest bound. *)
Definition isDigit (c : ascii) : bool :=
  (N.leb 48 (N_of_ascii c) && N.leb (N_of_ascii c) 57)%bool.

(** [maxUint64]. *)
Definition maxUint64 : Z := (2 ^ 64 - 1)%Z.

(** The loop of [strconv.ParseUint(s, 10, 64)] over the bytes, [n] being
    the value so far: it returns at the first byte that is no digit with
    a syntax error and 0, and at the first digit that takes the value out
    of [uint64] with a range error and [maxUint64], without looking at
    the bytes after it.  The result holds whether the error is the range
    error. *)
Fixpoint ParseUint_digits (n : Z) (s : string) : Z * option bool :=
  match s with
  | EmptyString => (n, None)
  | String c rest =>
      if negb (isDigit c) then (0%Z, Some false)
      else if (maxUint64 / 10 + 1 <=? n)%Z then (maxUint64, Some true)
      else
        let n1 := (n * 10 + (Z.of_N (N_of_ascii c) - 48))%Z in
        if (maxUint64 <? n1)%Z then (maxUint64, Some true)
        else ParseUint_digits n1 rest
  end.

(** [strconv.ParseUint(s, 10, 64)]: the empty string is a syntax
    error. *)
Definition ParseUint (s : string) : Z * option bool :=
  match s with
  | EmptyString => (0%Z, Some false)
  | String _ _ => ParseUint_digits 0 s
  end.

(** [strconv.Atoi]: the sign is taken off, [ParseUint] reads the rest, a
    syntax error is returned as it is, and the value is then checked
    against the range of [int], after a range error of [ParseUint] as
    well.  The fast path of [Atoi] for strings shorter than 19 bytes
    gives the same value and error. *)
Definition Atoi (s : string) : Z * option error :=
  match s with
  | EmptyString => (0%Z, Some (ErrSyntax s))
  | String c rest =>
      let neg := Ascii.eqb c "-" in
      let body := if (neg || Ascii.eqb c "+")%bool then rest else s in
      match ParseUint body with
      | (_, Some false) => (0%Z, Some (ErrSyntax s))
      | (un, _) =>
          if neg
          then (if (2 ^ 63 <? un)%Z then ((- 2 ^ 63)%Z, Some (ErrRange s))
                else ((- un)%Z, None))
          else (if (2 ^ 63 <=? un)%Z then ((2 ^ 63 - 1)%Z, Some (ErrRange s))
                else (un, None))
      end
  end.

(** ** The content model (content.go)

    A pointer to a node is the index of its cell in the heap; [&T{}] puts a
    zeroed [T] in a new cell at the end. *)
Abbreviation addr := nat.

(** A value of the [Contenter] interface held in a [Content] slice: a
    [CharData] value, or a pointer to a node. *)
Inductive Contenter :=
| CCharData (c : CharData)
| CNode (a : addr).

(** [baseNode]. *)
Record baseNode := mkBaseNode { XMLName : Name }.

(** [type emptyText struct{ baseNode }], [type emptyContent struct{ emptyText }]:
    structs whose only field is the embedded one. *)
Definition emptyText := baseNode.
Definition emptyContent := emptyText.

Record contentBase := mkContentBase {
  contentBase_baseNode : baseNode;
  Content : list Contenter
}.

(** [type mixed struct { contentBase }]. *)
Definition mixed := contentBase.

Record Title := mkTitle {
  Title_Lang : string;
  Title_contentBase : contentBase
}.

Record Image := mkImage {
  Image_XlinkType : string;
  Image_XlinkHref : string;
  Image_Alt : string;
  Image_Title : string;
  Image_ID : string;
  Image_emptyContent : emptyContent
}.

Record StyleType := mkStyleType {
  StyleType_mixed : mixed;
  StyleType_Lang : string
}.

Record P := mkP {
  P_StyleType : StyleType;
  P_ID : string;
  P_Style : string
}.

Record Cite := mkCite {
  Cite_ID : string;
  Cite_Lang : string;
  Cite_TextAuthor : list addr;
  Cite_contentBase : contentBase
}.

Record Poem := mkPoem {
  Poem_XMLName : Name;
  Poem_Title : option addr;
  Poem_Epigraphs : list addr;
  Poem_contentBase : contentBase
}.

Record Stanza := mkStanza {
  Stanza_Lang : string;
  Stanza_Title : option addr;
  Stanza_Subtitle : option addr;
  Stanza_V : list addr;
  Stanza_emptyText : emptyText
}.

Record Epigraph := mkEpigraph {
  Epigraph_ID : string;
  Epigraph_TextAuthor : list addr;
  Epigraph_contentBase : contentBase
}.

Record Annotation := mkAnnotation {
  Annotation_contentBase : contentBase;
  Annotation_ID : string;
  Annotation_Lang : string
}.

Record Section := mkSection {
  Section_Title : option addr;
  Section_Epigraphs : list addr;
  Section_Image : option addr;
  Section_Annotation : option addr;
  Section_Sections : list addr;
  Section_contentBase : contentBase;
  Section_ID : string;
  Section_Lang : string
}.

Record NamedStyleType := mkNamedStyleType {
  NamedStyleType_StyleType : StyleType;
  NamedStyleType_Name : string
}.

Record StyleLinkType := mkStyleLinkType {
  StyleLinkType_mixed : mixed
}.

Record Link := mkLink {
  Link_StyleLinkType : StyleLinkType;
  Link_XlinkType : string;
  Link_XlinkHref : string;
  Link_Type : string
}.

Record Table := mkTable {
  Table_XMLName : Name;
  Table_TR : list addr;
  Table_ID : string;
  Table_Style : string;
  Table_emptyText : emptyText
}.

Record TR := mkTR {
  TR_Align : string;
  TR_contentBase : contentBase
}.

Record TD := mkTD {
  TD_StyleType : StyleType;
  TD_ID : string;
  TD_Style : string;
  TD_Colspan : Z;
  TD_Rowspan : Z;
  TD_Align : string;
  TD_Valign : string
}.

Record InlineImage := mkInlineImage {
  InlineImage_XlinkType : string;
  InlineImage_XlinkHref : string;
  InlineImage_Alt : string;
  InlineImage_emptyContent : emptyContent
}.

Record EmptyLine := mkEmptyLine {
  EmptyLine_XMLName : Name;
  EmptyLine_emptyContent : emptyContent
}.

(** [stringNode]: [s *string] points into another node; in
    content.go it is only ever [&t.ID] of a [Table], kept as the address
    of that table. *)
Record stringNode := mkStringNode {
  stringNode_baseNode : baseNode;
  stringNode_s : addr
}.

(** The dynamic type of a node in the heap. *)
Inductive node :=
| NTitle (x : Title)
| NImage (x : Image)
| NP (x : P)
| NCite (x : Cite)
| NPoem (x : Poem)
| NStanza (x : Stanza)
| NEpigraph (x : Epigraph)
| NAnnotation (x : Annotation)
| NSection (x : Section)
| NStyleType (x : StyleType)
| NNamedStyleType (x : NamedStyleType)
| NLink (x : Link)
| NStyleLinkType (x : StyleLinkType)
| NTable (x : Table)
| NTR (x : TR)
| NTD (x : TD)
| NInlineImage (x : InlineImage)
| NEmptyLine (x : EmptyLine)
| NstringNode (x : stringNode).

Abbreviation heap := (list node).

(** Zero values. *)
Definition Name0 : Name := mkName "" "".
Definition baseNode0 : baseNode := mkBaseNode Name0.
Definition contentBase0 : contentBase := mkContentBase baseNode0 [].
Definition StyleType0 : StyleType := mkStyleType contentBase0 "".
Definition Title0 : Title := mkTitle "" contentBase0.
Definition Image0 : Image := mkImage "" "" "" "" "" baseNode0.
Definition P0 : P := mkP StyleType0 "" "".
Definition Cite0 : Cite := mkCite "" "" [] contentBase0.
Definition Poem0 : Poem := mkPoem Name0 None [] contentBase0.
Definition Stanza0 : Stanza := mkStanza "" None None [] baseNode0.
Definition Epigraph0 : Epigraph := mkEpigraph "" [] contentBase0.
Definition Annotation0 : Annotation := mkAnnotation contentBase0 "" "".
Definition Section0 : Section := mkSection None [] None None [] contentBase0 "" "".
Definition NamedStyleType0 : NamedStyleType := mkNamedStyleType StyleType0 "".
Definition StyleLinkType0 : StyleLinkType := mkStyleLinkType contentBase0.
Definition Link0 : Link := mkLink StyleLinkType0 "" "" "".
Definition Table0 : Table := mkTable Name0 [] "" "" baseNode0.
Definition TR0 : TR := mkTR "" contentBase0.
Definition TD0 : TD := mkTD StyleType0 "" "" 0 0 "" "".
Definition InlineImage0 : InlineImage := mkInlineImage "" "" "" baseNode0.
Definition EmptyLine0 : EmptyLine := mkEmptyLine Name0 baseNode0.

(** [&T{}]: the new cell's address and the heap with it. *)
Definition new (n : node) (h : heap) : addr * heap := (length h, h ++ [n]).

(** *** Methods of the embedded structs *)

Definition baseNode_tagCallback {ref : Type} (start : StartElement)
  : option ref * option error :=
  (None, Some (UnexpectedTag (StartName start))).

Definition baseNode_attrCallback (attr : Attr) : option error :=
  Some (UnexpectedAttr (AttrName attr)).

Definition baseNode_charDataCallback (cd : CharData) : option error := None.

Definition baseNode_SetXMLName (name : Name) (n : baseNode) : baseNode :=
  mkBaseNode name.

Definition baseNode_GetXMLName (n : baseNode) : Name := XMLName n.

Definition contentBase_GetContent (c : contentBase) : list Contenter := Content c.

Definition contentBase_appendContent (cont : Contenter) (c : contentBase) : contentBase :=
  mkContentBase (contentBase_baseNode c) (Content c ++ [cont]).

Definition contentBase_SetXMLName (name : Name) (c : contentBase) : contentBase :=
  mkContentBase (baseNode_SetXMLName name (contentBase_baseNode c)) (Content c).

(** [mixed.charDataCallback]: the run is copied and appended. *)
Definition mixed_charDataCallback (e : CharData) (m : mixed) : option error * mixed :=
  let tmp : CharData := e in
  (None, mkContentBase (contentBase_baseNode m) (Content m ++ [CCharData tmp])).

(** Assignments to the embedded struct of each type. *)
Definition Title_with_contentBase (c : contentBase) (t : Title) : Title :=
  mkTitle (Title_Lang t) c.
Definition StyleType_with_mixed (m : mixed) (s : StyleType) : StyleType :=
  mkStyleType m (StyleType_Lang s).
Definition P_with_StyleType (s : StyleType) (p : P) : P :=
  mkP s (P_ID p) (P_Style p).
Definition Cite_with_contentBase (c : contentBase) (x : Cite) : Cite :=
  mkCite (Cite_ID x) (Cite_Lang x) (Cite_TextAuthor x) c.
Definition Poem_with_contentBase (c : contentBase) (x : Poem) : Poem :=
  mkPoem (Poem_XMLName x) (Poem_Title x) (Poem_Epigraphs x) c.
Definition Stanza_with_emptyText (e : emptyText) (x : Stanza) : Stanza :=
  mkStanza (Stanza_Lang x) (Stanza_Title x) (Stanza_Subtitle x) (Stanza_V x) e.
Definition Epigraph_with_contentBase (c : contentBase) (x : Epigraph) : Epigraph :=
  mkEpigraph (Epigraph_ID x) (Epigraph_TextAuthor x) c.
Definition Annotation_with_contentBase (c : contentBase) (x : Annotation) : Annotation :=
  mkAnnotation c (Annotation_ID x) (Annotation_Lang x).
Definition Section_with_contentBase (c : contentBase) (x : Section) : Section :=
  mkSection (Section_Title x) (Section_Epigraphs x) (Section_Image x)
    (Section_Annotation x) (Section_Sections x) c (Section_ID x) (Section_Lang x).
Definition NamedStyleType_with_StyleType (s : StyleType) (x : NamedStyleType) : NamedStyleType :=
  mkNamedStyleType s (NamedStyleType_Name x).
Definition StyleLinkType_with_mixed (m : mixed) (x : StyleLinkType) : StyleLinkType :=
  mkStyleLinkType m.
Definition Link_with_StyleLinkType (s : StyleLinkType) (x : Link) : Link :=
  mkLink s (Link_XlinkType x) (Link_XlinkHref x) (Link_Type x).
Definition Table_with_emptyText (e : emptyText) (x : Table) : Table :=
  mkTable (Table_XMLName x) (Table_TR x) (Table_ID x) (Table_Style x) e.
Definition TR_with_contentBase (c : contentBase) (x : TR) : TR :=
  mkTR (TR_Align x) c.
Definition TD_with_StyleType (s : StyleType) (x : TD) : TD :=
  mkTD s (TD_ID x) (TD_Style x) (TD_Colspan x) (TD_Rowspan x) (TD_Align x) (TD_Valign x).
Definition Image_with_emptyContent (e : emptyContent) (x : Image) : Image :=
  mkImage (Image_XlinkType x) (Image_XlinkHref x) (Image_Alt x) (Image_Title x) (Image_ID x) e.
Definition InlineImage_with_emptyContent (e : emptyContent) (x : InlineImage) : InlineImage :=
  mkInlineImage (InlineImage_XlinkType x) (InlineImage_XlinkHref x) (InlineImage_Alt x) e.
Definition EmptyLine_with_emptyContent (e : emptyContent) (x : EmptyLine) : EmptyLine :=
  mkEmptyLine (EmptyLine_XMLName x) e.
Definition stringNode_with_baseNode (b : baseNode) (x : stringNode) : stringNode :=
  mkStringNode b (stringNode_s x).

(** The promoted [appendContent] of each type that embeds [contentBase]. *)
Definition Title_appendContent (cont : Contenter) (t : Title) : Title :=
  Title_with_contentBase (contentBase_appendContent cont (Title_contentBase t)) t.
Definition StyleType_appendContent (cont : Contenter) (s : StyleType) : StyleType :=
  StyleType_with_mixed (contentBase_appendContent cont (StyleType_mixed s)) s.
Definition StyleLinkType_appendContent (cont : Contenter) (s : StyleLinkType) : StyleLinkType :=
  StyleLinkType_with_mixed (contentBase_appendContent cont (StyleLinkType_mixed s)) s.
Definition Cite_appendContent (cont : Contenter) (x : Cite) : Cite :=
  Cite_with_contentBase (contentBase_appendContent cont (Cite_contentBase x)) x.
Definition Poem_appendContent (cont : Contenter) (x : Poem) : Poem :=
  Poem_with_contentBase (contentBase_appendContent cont (Poem_contentBase x)) x.
Definition Epigraph_appendContent (cont : Contenter) (x : Epigraph) : Epigraph :=
  Epigraph_with_contentBase (contentBase_appendContent cont (Epigraph_contentBase x)) x.
Definition Annotation_appendContent (cont : Contenter) (x : Annotation) : Annotation :=
  Annotation_with_contentBase (contentBase_appendContent cont (Annotation_contentBase x)) x.
Definition Section_appendContent (cont : Contenter) (x : Section) : Section :=
  Section_with_contentBase (contentBase_appendContent cont (Section_contentBase x)) x.
Definition TR_appendContent (cont : Contenter) (x : TR) : TR :=
  TR_with_contentBase (contentBase_appendContent cont (TR_contentBase x)) x.

(** *** tagCallback of each type

    Each takes the receiver's value and the heap, and returns the
    [(Node, error)] pair, the receiver as the call leaves it and the heap
    with the node it created. *)

Definition Title_tagCallback (t : Title) (start : StartElement) (h : heap)
  : (option addr * option error) * Title * heap :=
  let name := Local (StartName start) in
  if name =? "p" then
    let '(p, h) := new (NP P0) h in
    (Some p, None, Title_appendContent (CNode p) t, h)
  else if name =? "empty-line" then
    let '(el, h) := new (NEmptyLine EmptyLine0) h in
    (Some el, None, Title_appendContent (CNode el) t, h)
  else (baseNode_tagCallback start, t, h).

Definition Cite_tagCallback (c : Cite) (start : StartElement) (h : heap)
  : (option addr * option error) * Cite * heap :=
  let name := Local (StartName start) in
  if name =? "text-author" then
    let '(p, h) := new (NP P0) h in
    (Some p, None,
     mkCite (Cite_ID c) (Cite_Lang c) (Cite_TextAuthor c ++ [p]) (Cite_contentBase c), h)
  else if name =? "p" then
    let '(p, h) := new (NP P0) h in
    (Some p, None, Cite_appendContent (CNode p) c, h)
  else if name =? "poem" then
    let '(p, h) := new (NPoem Poem0) h in
    (Some p, None, Cite_appendContent (CNode p) c, h)
  else if name =? "subtitle" then
    let '(p, h) := new (NP P0) h in
    (Some p, None, Cite_appendContent (CNode p) c, h)
  else if name =? "table" then
    let '(t, h) := new (NTable Table0) h in
    (Some t, None, Cite_appendContent (CNode t) c, h)
  else if name =? "empty-line" then
    let '(el, h) := new (NEmptyLine EmptyLine0) h in
    (Some el, None, Cite_appendContent (CNode el) c, h)
  else (baseNode_tagCallback start, c, h).

Definition Poem_tagCallback (p : Poem) (start : StartElement) (h : heap)
  : (option addr * option error) * Poem * heap :=
  let name := Local (StartName start) in
  if name =? "title" then
    let '(t, h) := new (NTitle Title0) h in
    (Some t, None,
     mkPoem (Poem_XMLName p) (Some t) (Poem_Epigraphs p) (Poem_contentBase p), h)
  else if name =? "epigraph" then
    let '(ep, h) := new (NEpigraph Epigraph0) h in
    (Some ep, None,
     mkPoem (Poem_XMLName p) (Poem_Title p) (Poem_Epigraphs p ++ [ep]) (Poem_contentBase p), h)
  else if name =? "subtitle" then
    let '(pp, h) := new (NP P0) h in
    (Some pp, None, Poem_appendContent (CNode pp) p, h)
  else if name =? "stanza" then
    let '(s, h) := new (NStanza Stanza0) h in
    (Some s, None, Poem_appendContent (CNode s) p, h)
  else (baseNode_tagCallback start, p, h).

Definition Stanza_tagCallback (s : Stanza) (start : StartElement) (h : heap)
  : (option addr * option error) * Stanza * heap :=
  let name := Local (StartName start) in
  if name =? "title" then
    let '(t, h) := new (NTitle Title0) h in
    (Some t, None,
     mkStanza (Stanza_Lang s) (Some t) (Stanza_Subtitle s) (Stanza_V s) (Stanza_emptyText s), h)
  else if name =? "subtitle" then
    let '(p, h) := new (NP P0) h in
    (Some p, None,
     mkStanza (Stanza_Lang s) (Stanza_Title s) (Some p) (Stanza_V s) (Stanza_emptyText s), h)
  else if name =? "v" then
    let '(p, h) := new (NP P0) h in
    (Some p, None,
     mkStanza (Stanza_Lang s) (Stanza_Title s) (Stanza_Subtitle s) (Stanza_V s ++ [p])
       (Stanza_emptyText s), h)
  else (baseNode_tagCallback start, s, h).

Definition Epigraph_tagCallback (ep : Epigraph) (start : StartElement) (h : heap)
  : (option addr * option error) * Epigraph * heap :=
  let name := Local (StartName start) in
  if name =? "text-author" then
    let '(p, h) := new (NP P0) h in
    (Some p, None,
     mkEpigraph (Epigraph_ID ep) (Epigraph_TextAuthor ep ++ [p]) (Epigraph_contentBase ep), h)
  else if name =? "p" then
    let '(p, h) := new (NP P0) h in
    (Some p, None, Epigraph_appendContent (CNode p) ep, h)
  else if name =? "poem" then
    let '(p, h) := new (NPoem Poem0) h in
    (Some p, None, Epigraph_appendContent (CNode p) ep, h)
  else if name =? "cite" then
    let '(c, h) := new (NCite Cite0) h in
    (Some c, None, Epigraph_appendContent (CNode c) ep, h)
  else if name =? "empty-line" then
    let '(el, h) := new (NEmptyLine EmptyLine0) h in
    (Some el, None, Epigraph_appendContent (CNode el) ep, h)
  else (baseNode_tagCallback start, ep, h).

Definition Annotation_tagCallback (a : Annotation) (start : StartElement) (h : heap)
  : (option addr * option error) * Annotation * heap :=
  let name := Local (StartName start) in
  if name =? "p" then
    let '(p, h) := new (NP P0) h in
    (Some p, None, Annotation_appendContent (CNode p) a, h)
  else if name =? "poem" then
    let '(p, h) := new (NPoem Poem0) h in
    (Some p, None, Annotation_appendContent (CNode p) a, h)
  else if name =? "cite" then
    let '(c, h) := new (NCite Cite0) h in
    (Some c, None, Annotation_appendContent (CNode c) a, h)
  else if name =? "subtitle" then
    let '(p, h) := new (NP P0) h in
    (Some p, None, Annotation_appendContent (CNode p) a, h)
  else if name =? "table" then
    let '(t, h) := new (NTable Table0) h in
    (Some t, None, Annotation_appendContent (CNode t) a, h)
  else if name =? "empty-line" then
    let '(el, h) := new (NEmptyLine EmptyLine0) h in
    (Some el, None, Annotation_appendContent (CNode el) a, h)
  else (baseNode_tagCallback start, a, h).

Definition Section_tagCallback (s : Section) (start : StartElement) (h : heap)
  : (option addr * option error) * Section * heap :=
  let name := Local (StartName start) in
  if name =? "title" then
    let '(t, h) := new (NTitle Title0) h in
    (Some t, None,
     mkSection (Some t) (Section_Epigraphs s) (Section_Image s) (Section_Annotation s)
       (Section_Sections s) (Section_contentBase s) (Section_ID s) (Section_Lang s), h)
  else if name =? "epigraph" then
    let '(ep, h) := new (NEpigraph Epigraph0) h in
    (Some ep, None,
     mkSection (Section_Title s) (Section_Epigraphs s ++ [ep]) (Section_Image s)
       (Section_Annotation s) (Section_Sections s) (Section_contentBase s)
       (Section_ID s) (Section_Lang s), h)
  else if name =? "image" then
    let '(i, h) := new (NImage Image0) h in
    if Nat.ltb 0 (length (Content (Section_contentBase s)))
    then (Some i, None, Section_appendContent (CNode i) s, h)
    else (Some i, None,
          mkSection (Section_Title s) (Section_Epigraphs s) (Some i) (Section_Annotation s)
            (Section_Sections s) (Section_contentBase s) (Section_ID s) (Section_Lang s), h)
  else if name =? "annotation" then
    let '(a, h) := new (NAnnotation Annotation0) h in
    (Some a, None,
     mkSection (Section_Title s) (Section_Epigraphs s) (Section_Image s) (Some a)
       (Section_Sections s) (Section_contentBase s) (Section_ID s) (Section_Lang s), h)
  else if name =? "section" then
    let '(cs, h) := new (NSection Section0) h in
    (Some cs, None,
     mkSection (Section_Title s) (Section_Epigraphs s) (Section_Image s) (Section_Annotation s)
       (Section_Sections s ++ [cs]) (Section_contentBase s) (Section_ID s) (Section_Lang s), h)
  else if name =? "p" then
    let '(p, h) := new (NP P0) h in
    (Some p, None, Section_appendContent (CNode p) s, h)
  else if name =? "poem" then
    let '(p, h) := new (NPoem Poem0) h in
    (Some p, None, Section_appendContent (CNode p) s, h)
  else if name =? "subtitle" then
    let '(p, h) := new (NP P0) h in
    (Some p, None, Section_appendContent (CNode p) s, h)
  else if name =? "cite" then
    let '(c, h) := new (NCite Cite0) h in
    (Some c, None, Section_appendContent (CNode c) s, h)
  else if name =? "empty-line" then
    let '(el, h) := new (NEmptyLine EmptyLine0) h in
    (Some el, None, Section_appendContent (CNode el) s, h)
  else if name =? "table" then
    let '(t, h) := new (NTable Table0) h in
    (Some t, None, Section_appendContent (CNode t) s, h)
  else (baseNode_tagCallback start, s, h).

Definition StyleType_tagCallback (s : StyleType) (start : StartElement) (h : heap)
  : (option addr * option error) * StyleType * heap :=
  let name := Local (StartName start) in
  if name =? "style" then
    let '(nst, h) := new (NNamedStyleType NamedStyleType0) h in
    (Some nst, None, StyleType_appendContent (CNode nst) s, h)
  else if name =? "a" then
    let '(link, h) := new (NLink Link0) h in
    (Some link, None, StyleType_appendContent (CNode link) s, h)
  else if name =? "image" then
    let '(i, h) := new (NInlineImage InlineImage0) h in
    (Some i, None, StyleType_appendContent (CNode i) s, h)
  else if (name =? "strong") || (name =? "emphasis") || (name =? "strikethrough")
          || (name =? "sub") || (name =? "sup") || (name =? "code") then
    let '(st, h) := new (NStyleType StyleType0) h in
    (Some st, None, StyleType_appendContent (CNode st) s, h)
  else (baseNode_tagCallback start, s, h).

Definition StyleLinkType_tagCallback (s : StyleLinkType) (start : StartElement) (h : heap)
  : (option addr * option error) * StyleLinkType * heap :=
  let name := Local (StartName start) in
  if name =? "image" then
    let '(i, h) := new (NInlineImage InlineImage0) h in
    (Some i, None, StyleLinkType_appendContent (CNode i) s, h)
  else if (name =? "style") || (name =? "strong") || (name =? "emphasis")
          || (name =? "strikethrough") || (name =? "sub") || (name =? "sup")
          || (name =? "code") then
    let '(c, h) := new (NStyleLinkType StyleLinkType0) h in
    (Some c, None, StyleLinkType_appendContent (CNode c) s, h)
  else (baseNode_tagCallback start, s, h).

(** [Table.tagCallback]; [self] is the table's own address, for [&t.ID]. *)
Definition Table_tagCallback (self : addr) (t : Table) (start : StartElement) (h : heap)
  : (option addr * option error) * Table * heap :=
  let name := Local (StartName start) in
  if name =? "id" then
    let '(s, h) := new (NstringNode (mkStringNode baseNode0 self)) h in
    (Some s, None, t, h)
  else if name =? "tr" then
    let '(tr, h) := new (NTR TR0) h in
    (Some tr, None,
     mkTable (Table_XMLName t) (Table_TR t ++ [tr]) (Table_ID t) (Table_Style t)
       (Table_emptyText t), h)
  else (baseNode_tagCallback start, t, h).

Definition TR_tagCallback (t : TR) (start : StartElement) (h : heap)
  : (option addr * option error) * TR * heap :=
  let name := Local (StartName start) in
  if (name =? "th") || (name =? "td") then
    let '(td, h) := new (NTD TD0) h in
    (Some td, None, TR_appendContent (CNode td) t, h)
  else (baseNode_tagCallback start, t, h).

(** *** attrCallback of each type *)

Definition Title_attrCallback (t : Title) (attr : Attr) : option error * Title :=
  if Local (AttrName attr) =? "lang"
  then (None, mkTitle (Value attr) (Title_contentBase t))
  else (baseNode_attrCallback attr, t).

Definition StyleType_attrCallback (s : StyleType) (attr : Attr) : option error * StyleType :=
  if Local (AttrName attr) =? "lang"
  then (None, mkStyleType (StyleType_mixed s) (Value attr))
  else (Some (UnknownAttr (Local (AttrName attr))), s).

Definition P_attrCallback (p : P) (attr : Attr) : option error * P :=
  if Local (AttrName attr) =? "style" then
    (None, mkP (P_StyleType p) (P_ID p) (Value attr))
  else if Local (AttrName attr) =? "id" then
    (None, mkP (P_StyleType p) (Value attr) (P_Style p))
  else
    let '(err, s) := StyleType_attrCallback (P_StyleType p) attr in
    (err, P_with_StyleType s p).

Definition Cite_attrCallback (c : Cite) (attr : Attr) : option error * Cite :=
  if Local (AttrName attr) =? "lang" then
    (None, mkCite (Cite_ID c) (Value attr) (Cite_TextAuthor c) (Cite_contentBase c))
  else if Local (AttrName attr) =? "id" then
    (None, mkCite (Value attr) (Cite_Lang c) (Cite_TextAuthor c) (Cite_contentBase c))
  else (baseNode_attrCallback attr, c).

Definition Stanza_attrCallback (s : Stanza) (attr : Attr) : option error * Stanza :=
  if Local (AttrName attr) =? "lang"
  then (None, mkStanza (Value attr) (Stanza_Title s) (Stanza_Subtitle s) (Stanza_V s)
                (Stanza_emptyText s))
  else (baseNode_attrCallback attr, s).

Definition Epigraph_attrCallback (ep : Epigraph) (attr : Attr) : option error * Epigraph :=
  if Local (AttrName attr) =? "id"
  then (None, mkEpigraph (Value attr) (Epigraph_TextAuthor ep) (Epigraph_contentBase ep))
  else (Some (UnknownAttr (Local (AttrName attr))), ep).

Definition Annotation_attrCallback (a : Annotation) (attr : Attr) : option error * Annotation :=
  if Local (AttrName attr) =? "lang" then
    (None, mkAnnotation (Annotation_contentBase a) (Annotation_ID a) (Value attr))
  else if Local (AttrName attr) =? "id" then
    (None, mkAnnotation (Annotation_contentBase a) (Value attr) (Annotation_Lang a))
  else (Some (UnknownAttr (Local (AttrName attr))), a).

Definition Section_attrCallback (s : Section) (attr : Attr) : option error * Section :=
  if Local (AttrName attr) =? "lang" then
    (None, mkSection (Section_Title s) (Section_Epigraphs s) (Section_Image s)
             (Section_Annotation s) (Section_Sections s) (Section_contentBase s)
             (Section_ID s) (Value attr))
  else if Local (AttrName attr) =? "id" then
    (None, mkSection (Section_Title s) (Section_Epigraphs s) (Section_Image s)
             (Section_Annotation s) (Section_Sections s) (Section_contentBase s)
             (Value attr) (Section_Lang s))
  else (baseNode_attrCallback attr, s).

Definition NamedStyleType_attrCallback (s : NamedStyleType) (attr : Attr)
  : option error * NamedStyleType :=
  if Local (AttrName attr) =? "name" then
    (None, mkNamedStyleType (NamedStyleType_StyleType s) (Value attr))
  else
    let '(err, st) := StyleType_attrCallback (NamedStyleType_StyleType s) attr in
    (err, NamedStyleType_with_StyleType st s).

(** [Link.attrCallback] (content.go). *)
Definition Link_attrCallback (l : Link) (attr : Attr) : option error * Link :=
  if Local (AttrName attr) =? "type" then
    if Space (AttrName attr) =? ""
    then (None, mkLink (Link_StyleLinkType l) (Link_XlinkType l) (Link_XlinkHref l) (Value attr))
    else (None, mkLink (Link_StyleLinkType l) (Value attr) (Link_XlinkHref l) (Link_Type l))
  else if Local (AttrName attr) =? "href" then
    (None, mkLink (Link_StyleLinkType l) (Link_XlinkType l) (Value attr) (Link_Type l))
  else (Some (UnknownAttr (Local (AttrName attr))), l).

(** [Link.attrCallback] of the earlier revision of content.go kept in the
    sources, where the [href] case assigns [l.XlinkType]. *)
Definition Link_attrCallback_earlier (l : Link) (attr : Attr) : option error * Link :=
  if Local (AttrName attr) =? "type" then
    if Space (AttrName attr) =? ""
    then (None, mkLink (Link_StyleLinkType l) (Link_XlinkType l) (Link_XlinkHref l) (Value attr))
    else (None, mkLink (Link_StyleLinkType l) (Value attr) (Link_XlinkHref l) (Link_Type l))
  else if Local (AttrName attr) =? "href" then
    (None, mkLink (Link_StyleLinkType l) (Value attr) (Link_XlinkHref l) (Link_Type l))
  else (Some (UnknownAttr (Local (AttrName attr))), l).

Definition Table_attrCallback (t : Table) (attr : Attr) : option error * Table :=
  if Local (AttrName attr) =? "style"
  then (None, mkTable (Table_XMLName t) (Table_TR t) (Table_ID t) (Value attr)
                (Table_emptyText t))
  else (baseNode_attrCallback attr, t).

Definition TR_attrCallback (t : TR) (attr : Attr) : option error * TR :=
  if Local (AttrName attr) =? "align"
  then (None, mkTR (Value attr) (TR_contentBase t))
  else (baseNode_attrCallback attr, t).

Definition TD_attrCallback (t : TD) (attr : Attr) : option error * TD :=
  let name := Local (AttrName attr) in
  if name =? "id" then
    (None, mkTD (TD_StyleType t) (Value attr) (TD_Style t) (TD_Colspan t) (TD_Rowspan t)
             (TD_Align t) (TD_Valign t))
  else if name =? "style" then
    (None, mkTD (TD_StyleType t) (TD_ID t) (Value attr) (TD_Colspan t) (TD_Rowspan t)
             (TD_Align t) (TD_Valign t))
  else if name =? "colspan" then
    let '(c, err) := Atoi (Value attr) in
    (err, mkTD (TD_StyleType t) (TD_ID t) (TD_Style t) c (TD_Rowspan t)
            (TD_Align t) (TD_Valign t))
  else if name =? "rowspan" then
    let '(r, err) := Atoi (Value attr) in
    (err, mkTD (TD_StyleType t) (TD_ID t) (TD_Style t) (TD_Colspan t) r
            (TD_Align t) (TD_Valign t))
  else if name =? "align" then
    (None, mkTD (TD_StyleType t) (TD_ID t) (TD_Style t) (TD_Colspan t) (TD_Rowspan t)
             (Value attr) (TD_Valign t))
  else if name =? "valign" then
    (None, mkTD (TD_StyleType t) (TD_ID t) (TD_Style t) (TD_Colspan t) (TD_Rowspan t)
             (TD_Align t) (Value attr))
  else (baseNode_attrCallback attr, t).

Definition InlineImage_attrCallback (i : InlineImage) (attr : Attr)
  : option error * InlineImage :=
  let name := Local (AttrName attr) in
  if name =? "type" then
    (None, mkInlineImage (Value attr) (InlineImage_XlinkHref i) (InlineImage_Alt i)
             (InlineImage_emptyContent i))
  else if name =? "href" then
    (None, mkInlineImage (InlineImage_XlinkType i) (Value attr) (InlineImage_Alt i)
             (InlineImage_emptyContent i))
  else if name =? "alt" then
    (None, mkInlineImage (InlineImage_XlinkType i) (InlineImage_XlinkHref i) (Value attr)
             (InlineImage_emptyContent i))
  else (baseNode_attrCallback attr, i).

(** *** Dynamic dispatch

    The method each dynamic type answers with, after Go's promotion of the
    methods of embedded structs. *)

Definition node_SetXMLName (name : Name) (n : node) : node :=
  match n with
  | NTitle x => NTitle (Title_with_contentBase (contentBase_SetXMLName name (Title_contentBase x)) x)
  | NImage x => NImage (Image_with_emptyContent (baseNode_SetXMLName name (Image_emptyContent x)) x)
  | NP x =>
      NP (P_with_StyleType
            (StyleType_with_mixed
               (contentBase_SetXMLName name (StyleType_mixed (P_StyleType x))) (P_StyleType x)) x)
  | NCite x => NCite (Cite_with_contentBase (contentBase_SetXMLName name (Cite_contentBase x)) x)
  | NPoem x => NPoem (Poem_with_contentBase (contentBase_SetXMLName name (Poem_contentBase x)) x)
  | NStanza x => NStanza (Stanza_with_emptyText (baseNode_SetXMLName name (Stanza_emptyText x)) x)
  | NEpigraph x =>
      NEpigraph (Epigraph_with_contentBase (contentBase_SetXMLName name (Epigraph_contentBase x)) x)
  | NAnnotation x =>
      NAnnotation
        (Annotation_with_contentBase (contentBase_SetXMLName name (Annotation_contentBase x)) x)
  | NSection x =>
      NSection (Section_with_contentBase (contentBase_SetXMLName name (Section_contentBase x)) x)
  | NStyleType x =>
      NStyleType (StyleType_with_mixed (contentBase_SetXMLName name (StyleType_mixed x)) x)
  | NNamedStyleType x =>
      NNamedStyleType
        (NamedStyleType_with_StyleType
           (StyleType_with_mixed
              (contentBase_SetXMLName name (StyleType_mixed (NamedStyleType_StyleType x)))
              (NamedStyleType_StyleType x)) x)
  | NLink x =>
      NLink (Link_with_StyleLinkType
               (StyleLinkType_with_mixed
                  (contentBase_SetXMLName name (StyleLinkType_mixed (Link_StyleLinkType x)))
                  (Link_StyleLinkType x)) x)
  | NStyleLinkType x =>
      NStyleLinkType
        (StyleLinkType_with_mixed (contentBase_SetXMLName name (StyleLinkType_mixed x)) x)
  | NTable x => NTable (Table_with_emptyText (baseNode_SetXMLName name (Table_emptyText x)) x)
  | NTR x => NTR (TR_with_contentBase (contentBase_SetXMLName name (TR_contentBase x)) x)
  | NTD x =>
      NTD (TD_with_StyleType
             (StyleType_with_mixed
                (contentBase_SetXMLName name (StyleType_mixed (TD_StyleType x))) (TD_StyleType x)) x)
  | NInlineImage x =>
      NInlineImage
        (InlineImage_with_emptyContent (baseNode_SetXMLName name (InlineImage_emptyContent x)) x)
  | NEmptyLine x =>
      NEmptyLine
        (EmptyLine_with_emptyContent (baseNode_SetXMLName name (EmptyLine_emptyContent x)) x)
  | NstringNode x =>
      NstringNode (stringNode_with_baseNode (baseNode_SetXMLName name (stringNode_baseNode x)) x)
  end.

Definition node_GetXMLName (n : node) : Name :=
  match n with
  | NTitle x => baseNode_GetXMLName (contentBase_baseNode (Title_contentBase x))
  | NImage x => baseNode_GetXMLName (Image_emptyContent x)
  | NP x => baseNode_GetXMLName (contentBase_baseNode (StyleType_mixed (P_StyleType x)))
  | NCite x => baseNode_GetXMLName (contentBase_baseNode (Cite_contentBase x))
  | NPoem x => baseNode_GetXMLName (contentBase_baseNode (Poem_contentBase x))
  | NStanza x => baseNode_GetXMLName (Stanza_emptyText x)
  | NEpigraph x => baseNode_GetXMLName (contentBase_baseNode (Epigraph_contentBase x))
  | NAnnotation x => baseNode_GetXMLName (contentBase_baseNode (Annotation_contentBase x))
  | NSection x => baseNode_GetXMLName (contentBase_baseNode (Section_contentBase x))
  | NStyleType x => baseNode_GetXMLName (contentBase_baseNode (StyleType_mixed x))
  | NNamedStyleType x =>
      baseNode_GetXMLName (contentBase_baseNode (StyleType_mixed (NamedStyleType_StyleType x)))
  | NLink x =>
      baseNode_GetXMLName (contentBase_baseNode (StyleLinkType_mixed (Link_StyleLinkType x)))
  | NStyleLinkType x => baseNode_GetXMLName (contentBase_baseNode (StyleLinkType_mixed x))
  | NTable x => baseNode_GetXMLName (Table_emptyText x)
  | NTR x => baseNode_GetXMLName (contentBase_baseNode (TR_contentBase x))
  | NTD x => baseNode_GetXMLName (contentBase_baseNode (StyleType_mixed (TD_StyleType x)))
  | NInlineImage x => baseNode_GetXMLName (InlineImage_emptyContent x)
  | NEmptyLine x => baseNode_GetXMLName (EmptyLine_emptyContent x)
  | NstringNode x => baseNode_GetXMLName (stringNode_baseNode x)
  end.

Definition node_tagCallback (self : addr) (n : node) (start : StartElement) (h : heap)
  : (option addr * option error) * node * heap :=
  match n with
  | NTitle x => let '(r, x, h) := Title_tagCallback x start h in (r, NTitle x, h)
  | NP x =>
      let '(r, s, h) := StyleType_tagCallback (P_StyleType x) start h in
      (r, NP (P_with_StyleType s x), h)
  | NCite x => let '(r, x, h) := Cite_tagCallback x start h in (r, NCite x, h)
  | NPoem x => let '(r, x, h) := Poem_tagCallback x start h in (r, NPoem x, h)
  | NStanza x => let '(r, x, h) := Stanza_tagCallback x start h in (r, NStanza x, h)
  | NEpigraph x => let '(r, x, h) := Epigraph_tagCallback x start h in (r, NEpigraph x, h)
  | NAnnotation x => let '(r, x, h) := Annotation_tagCallback x start h in (r, NAnnotation x, h)
  | NSection x => let '(r, x, h) := Section_tagCallback x start h in (r, NSection x, h)
  | NStyleType x => let '(r, x, h) := StyleType_tagCallback x start h in (r, NStyleType x, h)
  | NNamedStyleType x =>
      let '(r, s, h) := StyleType_tagCallback (NamedStyleType_StyleType x) start h in
      (r, NNamedStyleType (NamedStyleType_with_StyleType s x), h)
  | NLink x =>
      let '(r, s, h) := StyleLinkType_tagCallback (Link_StyleLinkType x) start h in
      (r, NLink (Link_with_StyleLinkType s x), h)
  | NStyleLinkType x =>
      let '(r, x, h) := StyleLinkType_tagCallback x start h in (r, NStyleLinkType x, h)
  | NTable x => let '(r, x, h) := Table_tagCallback self x start h in (r, NTable x, h)
  | NTR x => let '(r, x, h) := TR_tagCallback x start h in (r, NTR x, h)
  | NTD x =>
      let '(r, s, h) := StyleType_tagCallback (TD_StyleType x) start h in
      (r, NTD (TD_with_StyleType s x), h)
  | NImage _ | NInlineImage _ | NEmptyLine _ | NstringNode _ =>
      (baseNode_tagCallback start, n, h)
  end.

Definition node_attrCallback (n : node) (attr : Attr) : option error * node :=
  match n with
  | NTitle x => let '(e, x) := Title_attrCallback x attr in (e, NTitle x)
  | NP x => let '(e, x) := P_attrCallback x attr in (e, NP x)
  | NCite x => let '(e, x) := Cite_attrCallback x attr in (e, NCite x)
  | NStanza x => let '(e, x) := Stanza_attrCallback x attr in (e, NStanza x)
  | NEpigraph x => let '(e, x) := Epigraph_attrCallback x attr in (e, NEpigraph x)
  | NAnnotation x => let '(e, x) := Annotation_attrCallback x attr in (e, NAnnotation x)
  | NSection x => let '(e, x) := Section_attrCallback x attr in (e, NSection x)
  | NStyleType x => let '(e, x) := StyleType_attrCallback x attr in (e, NStyleType x)
  | NNamedStyleType x =>
      let '(e, x) := NamedStyleType_attrCallback x attr in (e, NNamedStyleType x)
  | NLink x => let '(e, x) := Link_attrCallback x attr in (e, NLink x)
  | NTable x => let '(e, x) := Table_attrCallback x attr in (e, NTable x)
  | NTR x => let '(e, x) := TR_attrCallback x attr in (e, NTR x)
  | NTD x => let '(e, x) := TD_attrCallback x attr in (e, NTD x)
  | NInlineImage x => let '(e, x) := InlineImage_attrCallback x attr in (e, NInlineImage x)
  | NPoem _ | NStyleLinkType _ | NImage _ | NEmptyLine _ | NstringNode _ =>
      (baseNode_attrCallback attr, n)
  end.

(** [charDataCallback] of the types that embed [mixed]; the others answer
    with [baseNode.charDataCallback], and [stringNode] writes through its
    pointer (handled with the heap, below). *)
Definition node_charDataCallback (n : node) (cd : CharData) : option error * node :=
  match n with
  | NP x =>
      let '(e, m) := mixed_charDataCallback cd (StyleType_mixed (P_StyleType x)) in
      (e, NP (P_with_StyleType (StyleType_with_mixed m (P_StyleType x)) x))
  | NStyleType x =>
      let '(e, m) := mixed_charDataCallback cd (StyleType_mixed x) in
      (e, NStyleType (StyleType_with_mixed m x))
  | NNamedStyleType x =>
      let '(e, m) := mixed_charDataCallback cd (StyleType_mixed (NamedStyleType_StyleType x)) in
      (e, NNamedStyleType
            (NamedStyleType_with_StyleType
               (StyleType_with_mixed m (NamedStyleType_StyleType x)) x))
  | NLink x =>
      let '(e, m) := mixed_charDataCallback cd (StyleLinkType_mixed (Link_StyleLinkType x)) in
      (e, NLink (Link_with_StyleLinkType (StyleLinkType_with_mixed m (Link_StyleLinkType x)) x))
  | NStyleLinkType x =>
      let '(e, m) := mixed_charDataCallback cd (StyleLinkType_mixed x) in
      (e, NStyleLinkType (StyleLinkType_with_mixed m x))
  | NTD x =>
      let '(e, m) := mixed_charDataCallback cd (StyleType_mixed (TD_StyleType x)) in
      (e, NTD (TD_with_StyleType (StyleType_with_mixed m (TD_StyleType x)) x))
  | _ => (baseNode_charDataCallback cd, n)
  end.

(** [stringNode.charDataCallback]: [*s.s = string(cd)], with [s.s] the
    [ID] field of the table at [stringNode_s]. *)
Definition stringNode_charDataCallback (s : stringNode) (cd : CharData) (h : heap)
  : option error * heap :=
  match h !! stringNode_s s with
  | Some (NTable t) =>
      (None, <[stringNode_s s :=
                 NTable (mkTable (Table_XMLName t) (Table_TR t) cd (Table_Style t)
                           (Table_emptyText t))]> h)
  | _ => (None, h)
  end.

(** *** The Contenter interface *)

(** [GetContent] of each dynamic type. *)
Definition node_GetContent (n : node) : list Contenter :=
  match n with
  | NTitle x => contentBase_GetContent (Title_contentBase x)
  | NP x => contentBase_GetContent (StyleType_mixed (P_StyleType x))
  | NCite x => contentBase_GetContent (Cite_contentBase x)
  | NPoem x => contentBase_GetContent (Poem_contentBase x)
  | NStanza x => map CNode (Stanza_V x)
  | NEpigraph x => contentBase_GetContent (Epigraph_contentBase x)
  | NAnnotation x => contentBase_GetContent (Annotation_contentBase x)
  | NSection x => contentBase_GetContent (Section_contentBase x)
  | NStyleType x => contentBase_GetContent (StyleType_mixed x)
  | NNamedStyleType x => contentBase_GetContent (StyleType_mixed (NamedStyleType_StyleType x))
  | NLink x => contentBase_GetContent (StyleLinkType_mixed (Link_StyleLinkType x))
  | NStyleLinkType x => contentBase_GetContent (StyleLinkType_mixed x)
  | NTable x => map CNode (Table_TR x)
  | NTR x => contentBase_GetContent (TR_contentBase x)
  | NTD x => contentBase_GetContent (StyleType_mixed (TD_StyleType x))
  | NImage _ | NInlineImage _ | NEmptyLine _ => []
  | NstringNode _ => []
  end.

(** The three methods on a [Contenter] value.  A pointer that is not in
    the heap does not occur; it reads as an empty node. *)
Definition GetContent (h : heap) (c : Contenter) : list Contenter :=
  match c with
  | CCharData _ => []
  | CNode a => match h !! a with Some n => node_GetContent n | None => [] end
  end.

Definition GetText (h : heap) (c : Contenter) : string :=
  match c with
  | CCharData cd => cd
  | CNode _ => ""
  end.

Definition Contenter_GetXMLName (h : heap) (c : Contenter) : Name :=
  match c with
  | CCharData _ => Name0
  | CNode a => match h !! a with Some n => node_GetXMLName n | None => Name0 end
  end.

(** *** The heap as an implementation of [Node] *)

Definition heap_SetXMLName (a : addr) (name : Name) (h : heap) : heap :=
  match h !! a with
  | Some n => <[a := node_SetXMLName name n]> h
  | None => h
  end.

Definition heap_GetXMLName (a : addr) (h : heap) : Name :=
  match h !! a with
  | Some n => node_GetXMLName n
  | None => Name0
  end.

Definition heap_tagCallback (a : addr) (start : StartElement) (h : heap)
  : (option addr * option error) * heap :=
  match h !! a with
  | Some n =>
      let '(r, n', h') := node_tagCallback a n start h in
      (r, <[a := n']> h')
  | None => (baseNode_tagCallback start, h)
  end.

Definition heap_attrCallback (a : addr) (attr : Attr) (h : heap) : option error * heap :=
  match h !! a with
  | Some n =>
      let '(e, n') := node_attrCallback n attr in
      (e, <[a := n']> h)
  | None => (baseNode_attrCallback attr, h)
  end.

Definition heap_charDataCallback (a : addr) (cd : CharData) (h : heap)
  : option error * heap :=
  match h !! a with
  | Some (NstringNode s) => stringNode_charDataCallback s cd h
  | Some n =>
      let '(e, n') := node_charDataCallback n cd in
      (e, <[a := n']> h)
  | None => (baseNode_charDataCallback cd, h)
  end.

#[export] Instance heap_Node : Node heap addr := {
  SetXMLName := heap_SetXMLName;
  GetXMLName := heap_GetXMLName;
  tagCallback := heap_tagCallback;
  attrCallback := heap_attrCallback;
  charDataCallback := heap_charDataCallback
}.

(** [NewParser(root).Parse(d, start)] as [T.UnmarshalXML] calls it, on a
    heap that holds the zeroed root alone. *)
Definition UnmarshalXML (root : node) (d : Decoder) (start : StartElement)
  : outcome (option error * Parser addr * heap) :=
  Parse (NewParser (Some 0)) d start [root].

(** ** encoding/base64: [base64.StdEncoding.Decode] (Go standard library)

    The decoder of the standard alphabet with [=] padding.  Line breaks
    are skipped; [decodeQuantum] reads up to four characters and writes
    up to three bytes.  The fast paths of [Decode] for runs of 8 and 4
    plain characters give the bytes, count and error of this loop. *)

Definition decodeMap (c : ascii) : option N :=
  let n := N_of_ascii c in
  if (N.leb 65 n && N.leb n 90)%bool then Some (n - 65)%N
  else if (N.leb 97 n && N.leb n 122)%bool then Some (n - 71)%N
  else if (N.leb 48 n && N.leb n 57)%bool then Some (n + 4)%N
  else if N.eqb n 43 then Some 62%N
  else if N.eqb n 47 then Some 63%N
  else None.

Definition isNewline (c : ascii) : bool :=
  (N.eqb (N_of_ascii c) 10 || N.eqb (N_of_ascii c) 13)%bool.

Definition padChar : ascii := "="%char.

Fixpoint skipNewlines (src : string) (si : nat) : string * nat :=
  match src with
  | String c rest => if isNewline c then skipNewlines rest (S si) else (src, si)
  | EmptyString => (src, si)
  end.

(** The bytes of a quantum of [dlen] characters: [dlen - 1] of them. *)
Definition quantumBytes (dbuf : list N) (dlen : nat) : string :=
  let val := (N.shiftl (nth 0 dbuf 0) 18 + N.shiftl (nth 1 dbuf 0) 12
              + N.shiftl (nth 2 dbuf 0) 6 + nth 3 dbuf 0)%N in
  let b0 := ascii_of_N (N.shiftr val 16 mod 256) in
  let b1 := ascii_of_N (N.shiftr val 8 mod 256) in
  let b2 := ascii_of_N (val mod 256) in
  match dlen with
  | 4 => String b0 (String b1 (String b2 EmptyString))
  | 3 => String b0 (String b1 EmptyString)
  | 2 => String b0 EmptyString
  | _ => EmptyString
  end.

(** The end of a padded quantum: trailing line breaks are skipped and
    anything after them is an error, reported with the bytes written. *)
Definition finishPadded (rest : string) (si : nat) (j : nat) (dbuf : list N)
  : (string * nat) * string * option error :=
  let '(rest', si') := skipNewlines rest si in
  match rest' with
  | EmptyString => ((rest', si'), quantumBytes dbuf j, None)
  | String _ _ => ((rest', si'), quantumBytes dbuf j, Some (CorruptInputError si'))
  end.

(** [decodeQuantum]: [src] is what is left of the input from offset [si],
    [j] the characters of the quantum read so far, [dbuf] their values.
    It returns the input left and its offset, the bytes written, and the
    error. *)
Fixpoint decodeQuantum (src : string) (si j : nat) (dbuf : list N)
  : (string * nat) * string * option error :=
  match src with
  | EmptyString =>
      match j with
      | 0 => ((src, si), EmptyString, None)
      | _ => ((src, si), EmptyString, Some (CorruptInputError (si - j)))
      end
  | String c rest =>
      let si := S si in
      match decodeMap c with
      | Some out =>
          if Nat.eqb j 3
          then ((rest, si), quantumBytes (dbuf ++ [out]) 4, None)
          else decodeQuantum rest si (S j) (dbuf ++ [out])
      | None =>
          if isNewline c then decodeQuantum rest si j dbuf
          else if negb (Ascii.eqb c padChar)
          then ((rest, si), EmptyString, Some (CorruptInputError (si - 1)))
          else
            match j with
            | 0 | 1 => ((rest, si), EmptyString, Some (CorruptInputError (si - 1)))
            | 2 =>
                let '(rest', si') := skipNewlines rest si in
                match rest' with
                | EmptyString =>
                    ((rest', si'), EmptyString, Some (CorruptInputError si'))
                | String c' rest'' =>
                    if negb (Ascii.eqb c' padChar)
                    then ((rest', si'), EmptyString, Some (CorruptInputError (si' - 1)))
                    else finishPadded rest'' (S si') j dbuf
                end
            | _ => finishPadded rest si j dbuf
            end
      end
  end.

(** The loop of [Decode] over the quanta; every round takes at least one
    character, so the length of the input is fuel enough. *)
Fixpoint decodeLoop (fuel : nat) (src : string) (si : nat) : string * option error :=
  match fuel with
  | 0 => (EmptyString, None)
  | S fuel' =>
      match src with
      | EmptyString => (EmptyString, None)
      | String _ _ =>
          let '((rest, si'), written, err) := decodeQuantum src si 0 [] in
          match err with
          | Some e => (written, Some e)
          | None =>
              let '(more, e) := decodeLoop fuel' rest si' in
              ((written ++ more)%string, e)
          end
      end
  end.

(** [make([]byte, n)]. *)
Fixpoint make_bytes (n : nat) : string :=
  match n with
  | 0 => EmptyString
  | S n' => String Ascii.zero (make_bytes n')
  end.

(** [n, err := base64.StdEncoding.Decode(dst, src)]: the bytes are
    written at the front of [dst], whose remainder is left as it was. *)
Definition base64_Decode (dst src : string) : string * nat * option error :=
  let '(written, err) := decodeLoop (String.length src) src 0 in
  let n := String.length written in
  ((written ++ substring n (String.length dst - n) dst)%string, n, err).

(** The alphabet of [base64.StdEncoding]. *)
Definition encodeStd : string :=
  "ABCDEFGHIJKLMNOPQRSTUVWXYZabcdefghijklmnopqrstuvwxyz0123456789+/".

Definition encodeChar (v : N) : ascii :=
  match String.get (N.to_nat v) encodeStd with
  | Some c => c
  | None => padChar
  end.

(** [base64.StdEncoding.EncodeToString]: three bytes give four characters
    of six bits each; one or two bytes left at the end give two or three
    characters and [=] padding. *)
Fixpoint EncodeToString (src : string) : string :=
  match src with
  | EmptyString => EmptyString
  | String a EmptyString =>
      let x := N_of_ascii a in
      String (encodeChar (x / 4)) (String (encodeChar (x mod 4 * 16))
        (String padChar (String padChar EmptyString)))
  | String a (String b EmptyString) =>
      let x := N_of_ascii a in
      let y := N_of_ascii b in
      String (encodeChar (x / 4)) (String (encodeChar (x mod 4 * 16 + y / 16))
        (String (encodeChar (y mod 16 * 4)) (String padChar EmptyString)))
  | String a (String b (String c rest)) =>
      let x := N_of_ascii a in
      let y := N_of_ascii b in
      let z := N_of_ascii c in
      String (encodeChar (x / 4)) (String (encodeChar (x mod 4 * 16 + y / 16))
        (String (encodeChar (y mod 16 * 4 + z / 64)) (String (encodeChar (z mod 64))
           (EncodeToString rest))))
  end%N.

(** ** time.Parse at the layout [dateFormat] (Go standard library) *)

Definition dateFormat : string := "2006-01-02".

(** The [time.Time] of a calendar date at midnight UTC. *)
Record Time := mkTime { year : nat; month : nat; day : nat }.

(** [XMLDate] (xml_types.go). *)
Record XMLDate := mkXMLDate { XMLDate_Time : Time }.

Definition digit (c : ascii) : option nat :=
  if isDigit c then Some (nat_of_ascii c - 48) else None.

Definition isLeap (y : nat) : bool :=
  (Nat.eqb (y mod 4) 0 && (negb (Nat.eqb (y mod 100) 0) || Nat.eqb (y mod 400) 0))%bool.

Definition daysIn (m y : nat) : nat :=
  match m with
  | 2 => if isLeap y then 29 else 28
  | 4 | 6 | 9 | 11 => 30
  | _ => 31
  end.

(** [time.Parse(dateFormat, value)]: four digits of year, [-], two digits
    of month, [-], two digits of day, nothing after; the month in 1..12
    and the day in the month. *)
Definition time_Parse_dateFormat (value : string) : Time + error :=
  match value with
  | String y1 (String y2 (String y3 (String y4 (String s1 (String m1 (String m2
      (String s2 (String d1 (String d2 EmptyString))))))))) =>
      match digit y1, digit y2, digit y3, digit y4, digit m1, digit m2, digit d1, digit d2 with
      | Some a, Some b, Some c, Some d, Some e, Some f, Some g, Some i =>
          let y := 1000 * a + 100 * b + 10 * c + d in
          let m := 10 * e + f in
          let dd := 10 * g + i in
          if (Ascii.eqb s1 "-" && Ascii.eqb s2 "-"
              && Nat.leb 1 m && Nat.leb m 12 && Nat.leb 1 dd && Nat.leb dd (daysIn m y))%bool
          then inl (mkTime y m dd)
          else inr (TimeParseError value)
      | _, _, _, _, _, _, _, _ => inr (TimeParseError value)
      end
  | _ => inr (TimeParseError value)
  end.

(** [XMLDate.UnmarshalXMLAttr] (xml_types.go). *)
Definition XMLDate_UnmarshalXMLAttr (d : XMLDate) (attr : Attr) : option error * XMLDate :=
  match time_Parse_dateFormat (Value attr) with
  | inr err => (Some err, d)
  | inl parse => (None, mkXMLDate parse)
  end.

(** The character of a decimal digit. *)
Definition digitChar (n : nat) : ascii := ascii_of_nat (48 + n).

(** [t.Format(dateFormat)]: the year on four digits, the month and the
    day on two. *)
Definition Time_Format (t : Time) : string :=
  String (digitChar (year t / 1000)) (String (digitChar (year t / 100 mod 10))
    (String (digitChar (year t / 10 mod 10)) (String (digitChar (year t mod 10))
      (String "-" (String (digitChar (month t / 10)) (String (digitChar (month t mod 10))
        (String "-" (String (digitChar (day t / 10)) (String (digitChar (day t mod 10))
          EmptyString))))))))).

(** A calendar date of the years 0 to 9999. *)
Definition valid_date (t : Time) : Prop :=
  year t < 10 * 1000 /\ 1 <= month t <= 12 /\ 1 <= day t <= daysIn (month t) (year t).


(** ** The document types *)

(** [Binary]. *)
Record Binary := mkBinary {
  Binary_baseNode : baseNode;
  Binary_ID : string;
  Binary_ContentType : string;
  Binary_Value : string
}.

Definition Binary0 : Binary := mkBinary baseNode0 "" "" "".

Definition Binary_attrCallback (b : Binary) (attr : Attr) : option error * Binary :=
  if Local (AttrName attr) =? "content-type" then
    (None, mkBinary (Binary_baseNode b) (Binary_ID b) (Value attr) (Binary_Value b))
  else if Local (AttrName attr) =? "id" then
    (None, mkBinary (Binary_baseNode b) (Value attr) (Binary_ContentType b) (Binary_Value b))
  else (baseNode_attrCallback attr, b).

(** [Binary.charDataCallback]: [b.Value] is assigned the buffer before the
    decoding and cut to the decoded length after it. *)
Definition Binary_charDataCallback (b : Binary) (cd : CharData) : option error * Binary :=
  let value := make_bytes (String.length cd) in
  let '(value, n, err) := base64_Decode value cd in
  match err with
  | Some e =>
      (Some e, mkBinary (Binary_baseNode b) (Binary_ID b) (Binary_ContentType b) value)
  | None =>
      (None, mkBinary (Binary_baseNode b) (Binary_ID b) (Binary_ContentType b)
               (substring 0 n value))
  end.

(** [Date]. *)
Record Date := mkDate {
  Date_Value : option XMLDate;
  Date_Lang : string;
  Date_StrValue : string;
  Date_baseNode : baseNode
}.

Definition Date0 : Date := mkDate None "" "" baseNode0.

(** [Date.attrCallback]. *)
Definition Date_attrCallback (d : Date) (attr : Attr) : option error * Date :=
  if Local (AttrName attr) =? "value" then
    match time_Parse_dateFormat (Value attr) with
    | inr err => (Some err, d)
    | inl parse =>
        (None, mkDate (Some (mkXMLDate parse)) (Date_Lang d) (Date_StrValue d) (Date_baseNode d))
    end
  else if Local (AttrName attr) =? "lang" then
    (None, mkDate (Date_Value d) (Value attr) (Date_StrValue d) (Date_baseNode d))
  else (baseNode_attrCallback attr, d).

(** [Date.charDataCallback]. *)
Definition Date_charDataCallback (d : Date) (cd : CharData) : option error * Date :=
  (None, mkDate (Date_Value d) (Date_Lang d) cd (Date_baseNode d)).

(** [Binary] and [Date] take every callback themselves except
    [tagCallback], which is [baseNode]'s and creates nothing: a parse
    rooted at one of them has that one node for its store. *)
#[export] Instance Binary_Node : Node Binary unit := {
  SetXMLName := fun _ name b =>
    mkBinary (baseNode_SetXMLName name (Binary_baseNode b)) (Binary_ID b)
      (Binary_ContentType b) (Binary_Value b);
  GetXMLName := fun _ b => baseNode_GetXMLName (Binary_baseNode b);
  tagCallback := fun _ start b => (baseNode_tagCallback start, b);
  attrCallback := fun _ attr b => Binary_attrCallback b attr;
  charDataCallback := fun _ cd b => Binary_charDataCallback b cd
}.

#[export] Instance Date_Node : Node Date unit := {
  SetXMLName := fun _ name d =>
    mkDate (Date_Value d) (Date_Lang d) (Date_StrValue d)
      (baseNode_SetXMLName name (Date_baseNode d));
  GetXMLName := fun _ d => baseNode_GetXMLName (Date_baseNode d);
  tagCallback := fun _ start d => (baseNode_tagCallback start, d);
  attrCallback := fun _ attr d => Date_attrCallback d attr;
  charDataCallback := fun _ cd d => Date_charDataCallback d cd
}.

(** [Body], [NotesBody], [Stylesheet], [Description] and [FictionBook]:
    the fields, with a pointer as the address of a cell. *)
Record Body := mkBody {
  Body_baseNode : baseNode;
  Body_Image : option addr;
  Body_Title : option addr;
  Body_Epigraphs : list addr;
  Body_Sections : list addr;
  Body_Lang : string
}.

Record NotesBody := mkNotesBody {
  NotesBody_Body : Body;
  NotesBody_Name : string
}.

Record Stylesheet := mkStylesheet {
  Stylesheet_Type : string;
  Stylesheet_Value : string;
  Stylesheet_baseNode : baseNode
}.

Record Description := mkDescription {
  Description_baseNode : baseNode;
  Description_TitleInfo : option addr;
  Description_SrcTitleInfo : option addr;
  Description_DocumentInfo : option addr;
  Description_PublishInfo : option addr;
  Description_CustomInfo : list addr;
  Description_Output : list addr
}.

Record FictionBook := mkFictionBook {
  FictionBook_baseNode : baseNode;
  FictionBook_Stylesheet : list addr;
  FictionBook_Description : option addr;
  FictionBook_Body : option addr;
  FictionBook_NotesBody : option addr;
  FictionBook_Binary : list addr
}.

Definition Body0 : Body := mkBody baseNode0 None None [] [] "".
Definition NotesBody0 : NotesBody := mkNotesBody Body0 "".
Definition Stylesheet0 : Stylesheet := mkStylesheet "" "" baseNode0.
Definition Description0 : Description := mkDescription baseNode0 None None None None [] [].
Definition FictionBook0 : FictionBook := mkFictionBook baseNode0 [] None None None [].

(** The nodes [FictionBook.tagCallback] creates, by dynamic type. *)
Inductive docNode :=
| DStylesheet (x : Stylesheet)
| DDescription (x : Description)
| DBody (x : Body)
| DNotesBody (x : NotesBody)
| DBinary (x : Binary).

Abbreviation docHeap := (list docNode).

Definition docNew (n : docNode) (h : docHeap) : addr * docHeap := (length h, h ++ [n]).

(** [FictionBook.tagCallback]. *)
Definition FictionBook_tagCallback (f : FictionBook) (start : StartElement) (h : docHeap)
  : (option addr * option error) * FictionBook * docHeap :=
  let name := Local (StartName start) in
  if name =? "stylesheet" then
    let '(s, h) := docNew (DStylesheet Stylesheet0) h in
    (Some s, None,
     mkFictionBook (FictionBook_baseNode f) (FictionBook_Stylesheet f ++ [s])
       (FictionBook_Description f) (FictionBook_Body f) (FictionBook_NotesBody f)
       (FictionBook_Binary f), h)
  else if name =? "description" then
    let '(d, h) := docNew (DDescription Description0) h in
    (Some d, None,
     mkFictionBook (FictionBook_baseNode f) (FictionBook_Stylesheet f) (Some d)
       (FictionBook_Body f) (FictionBook_NotesBody f) (FictionBook_Binary f), h)
  else if name =? "body" then
    match StartAttr start with
    | [] =>
        let '(b, h) := docNew (DBody Body0) h in
        (Some b, None,
         mkFictionBook (FictionBook_baseNode f) (FictionBook_Stylesheet f)
           (FictionBook_Description f) (Some b) (FictionBook_NotesBody f)
           (FictionBook_Binary f), h)
    | attr0 :: _ =>
        if (Local (AttrName attr0) =? "name") && (Value attr0 =? "notes") then
          let '(b, h) := docNew (DNotesBody NotesBody0) h in
          (Some b, None,
           mkFictionBook (FictionBook_baseNode f) (FictionBook_Stylesheet f)
             (FictionBook_Description f) (FictionBook_Body f) (Some b)
             (FictionBook_Binary f), h)
        else (None, Some (UnknownBody attr0), f, h)
    end
  else if name =? "binary" then
    let '(b, h) := docNew (DBinary Binary0) h in
    (Some b, None,
     mkFictionBook (FictionBook_baseNode f) (FictionBook_Stylesheet f)
       (FictionBook_Description f) (FictionBook_Body f) (FictionBook_NotesBody f)
       (FictionBook_Binary f ++ [b]), h)
  else (baseNode_tagCallback start, f, h).

(** [FictionBook.attrCallback]. *)
Definition FictionBook_attrCallback (f : FictionBook) (attr : Attr)
  : option error * FictionBook :=
  (None, f).

(** ** Documents as trees, and what a parse of them is read as *)

(** The dynamic types. *)
Inductive kind :=
| KTitle | KImage | KP | KCite | KPoem | KStanza | KEpigraph | KAnnotation | KSection
| KStyleType | KNamedStyleType | KLink | KStyleLinkType | KTable | KTR | KTD
| KInlineImage | KEmptyLine | KstringNode.

Definition kind_of (n : node) : kind :=
  match n with
  | NTitle _ => KTitle | NImage _ => KImage | NP _ => KP | NCite _ => KCite
  | NPoem _ => KPoem | NStanza _ => KStanza | NEpigraph _ => KEpigraph
  | NAnnotation _ => KAnnotation | NSection _ => KSection | NStyleType _ => KStyleType
  | NNamedStyleType _ => KNamedStyleType | NLink _ => KLink
  | NStyleLinkType _ => KStyleLinkType | NTable _ => KTable | NTR _ => KTR | NTD _ => KTD
  | NInlineImage _ => KInlineImage | NEmptyLine _ => KEmptyLine
  | NstringNode _ => KstringNode
  end.

(** [&T{}] for each type. *)
Definition zero (k : kind) : node :=
  match k with
  | KTitle => NTitle Title0 | KImage => NImage Image0 | KP => NP P0 | KCite => NCite Cite0
  | KPoem => NPoem Poem0 | KStanza => NStanza Stanza0 | KEpigraph => NEpigraph Epigraph0
  | KAnnotation => NAnnotation Annotation0 | KSection => NSection Section0
  | KStyleType => NStyleType StyleType0 | KNamedStyleType => NNamedStyleType NamedStyleType0
  | KLink => NLink Link0 | KStyleLinkType => NStyleLinkType StyleLinkType0
  | KTable => NTable Table0 | KTR => NTR TR0 | KTD => NTD TD0
  | KInlineImage => NInlineImage InlineImage0 | KEmptyLine => NEmptyLine EmptyLine0
  | KstringNode => NstringNode (mkStringNode baseNode0 0)
  end.

(** The types whose [charDataCallback] is [mixed]'s. *)
Definition is_mixed (k : kind) : bool :=
  match k with
  | KP | KTD | KStyleType | KNamedStyleType | KLink | KStyleLinkType => true
  | _ => false
  end.

(** The vocabulary: the child a node of type [k] creates for a tag, and
    whether the child goes to the list [GetContent] returns ([true]) or to
    a slot of its own ([false]).  For [image] in a section [true] is its
    place in a section whose content list holds something already; see
    [after_content_only].  The child for [id] in a table is the
    [stringNode] that writes into the table. *)
Definition child_kind (k : kind) (name : string) : option (kind * bool) :=
  match k with
  | KTitle =>
      if name =? "p" then Some (KP, true)
      else if name =? "empty-line" then Some (KEmptyLine, true)
      else None
  | KCite =>
      if name =? "text-author" then Some (KP, false)
      else if name =? "p" then Some (KP, true)
      else if name =? "poem" then Some (KPoem, true)
      else if name =? "subtitle" then Some (KP, true)
      else if name =? "table" then Some (KTable, true)
      else if name =? "empty-line" then Some (KEmptyLine, true)
      else None
  | KPoem =>
      if name =? "title" then Some (KTitle, false)
      else if name =? "epigraph" then Some (KEpigraph, false)
      else if name =? "subtitle" then Some (KP, true)
      else if name =? "stanza" then Some (KStanza, true)
      else None
  | KStanza =>
      if name =? "title" then Some (KTitle, false)
      else if name =? "subtitle" then Some (KP, false)
      else if name =? "v" then Some (KP, true)
      else None
  | KEpigraph =>
      if name =? "text-author" then Some (KP, false)
      else if name =? "p" then Some (KP, true)
      else if name =? "poem" then Some (KPoem, true)
      else if name =? "cite" then Some (KCite, true)
      else if name =? "empty-line" then Some (KEmptyLine, true)
      else None
  | KAnnotation =>
      if name =? "p" then Some (KP, true)
      else if name =? "poem" then Some (KPoem, true)
      else if name =? "cite" then Some (KCite, true)
      else if name =? "subtitle" then Some (KP, true)
      else if name =? "table" then Some (KTable, true)
      else if name =? "empty-line" then Some (KEmptyLine, true)
      else None
  | KSection =>
      if name =? "title" then Some (KTitle, false)
      else if name =? "epigraph" then Some (KEpigraph, false)
      else if name =? "image" then Some (KImage, true)
      else if name =? "annotation" then Some (KAnnotation, false)
      else if name =? "section" then Some (KSection, false)
      else if name =? "p" then Some (KP, true)
      else if name =? "poem" then Some (KPoem, true)
      else if name =? "subtitle" then Some (KP, true)
      else if name =? "cite" then Some (KCite, true)
      else if name =? "empty-line" then Some (KEmptyLine, true)
      else if name =? "table" then Some (KTable, true)
      else None
  | KP | KTD | KStyleType | KNamedStyleType =>
      if name =? "style" then Some (KNamedStyleType, true)
      else if name =? "a" then Some (KLink, true)
      else if name =? "image" then Some (KInlineImage, true)
      else if (name =? "strong") || (name =? "emphasis") || (name =? "strikethrough")
              || (name =? "sub") || (name =? "sup") || (name =? "code")
      then Some (KStyleType, true)
      else None
  | KLink | KStyleLinkType =>
      if name =? "image" then Some (KInlineImage, true)
      else if (name =? "style") || (name =? "strong") || (name =? "emphasis")
              || (name =? "strikethrough") || (name =? "sub") || (name =? "sup")
              || (name =? "code")
      then Some (KStyleLinkType, true)
      else None
  | KTable =>
      if name =? "id" then Some (KstringNode, false)
      else if name =? "tr" then Some (KTR, true)
      else None
  | KTR =>
      if (name =? "th") || (name =? "td") then Some (KTD, true) else None
  | KImage | KInlineImage | KEmptyLine | KstringNode => None
  end.

(** [image] in a section: [Section.tagCallback] tests
    [len(s.Content) > 0] and appends the image to the content list only
    if the list holds something; otherwise the image goes to the [Image]
    slot. *)
Definition after_content_only (k : kind) (name : string) : bool :=
  match k with
  | KSection => name =? "image"
  | _ => false
  end.

(** Whether the list [GetContent] returns holds something; for a section
    that is [len(s.Content) > 0]. *)
Definition has_content (n : node) : bool :=
  match node_GetContent n with
  | [] => false
  | _ :: _ => true
  end.

(** A piece of a document: a text run, or an element with its attributes
    and children. *)
Inductive item :=
| IText (cd : CharData)
| IElem (name : Name) (attrs : list Attr) (children : list item).

(** The tokens of a piece, in document order. *)
Fixpoint tokens (i : item) : list Token :=
  match i with
  | IText cd => [TCharData cd]
  | IElem name attrs children =>
      TStartElement (mkStart name attrs) :: flat_map tokens children ++ [TEndElement name]
  end.

Definition item_children (i : item) : list item :=
  match i with
  | IText _ => []
  | IElem _ _ children => children
  end.

Definition item_name (i : item) : Name :=
  match i with
  | IText _ => Name0
  | IElem name _ _ => name
  end.

Definition is_element (i : item) : bool :=
  match i with
  | IText _ => false
  | IElem _ _ _ => true
  end.

(** The element children among the children. *)
Definition elements (l : list item) : list item := List.filter is_element l.

(** A piece is in the vocabulary of a node of type [k]: every element is
    one its parent creates a child for.  Text is taken anywhere. *)
Fixpoint markup (k : kind) (i : item) : bool :=
  match i with
  | IText _ => true
  | IElem name _ children =>
      match child_kind k (Local name) with
      | Some (k', _) => forallb (markup k') children
      | None => false
      end
  end.

(** Inline markup: in the vocabulary, with text only where it is kept
    and every element in the content of its parent. *)
Fixpoint inline (k : kind) (i : item) : bool :=
  match i with
  | IText _ => is_mixed k
  | IElem name _ children =>
      match child_kind k (Local name) with
      | Some (k', true) => forallb (inline k') children
      | _ => false
      end
  end.

(** What the [Contenter] interface shows of a value: [GetXMLName],
    [GetText] and, for each entry of [GetContent], the same. *)
Inductive tree :=
| Tree (identity : Name) (text : string) (children : list tree).

(** A piece as a tree: a text run has no name and no children, an element
    no text. *)
Fixpoint shape (i : item) : tree :=
  match i with
  | IText cd => Tree Name0 cd []
  | IElem name _ children => Tree name "" (map shape children)
  end.

Definition is_nil {A : Type} (l : list A) : bool :=
  match l with
  | [] => true
  | _ :: _ => false
  end.

Section ContentList.
Variable entries : bool -> item -> list tree.

(** The entries the children [l] add one after the other, [filled]
    telling whether the list holds something before them. *)
Fixpoint content_list (filled : bool) (l : list item) : list tree :=
  match l with
  | [] => []
  | i :: rest =>
      let ts := entries filled i in
      ts ++ content_list (filled || negb (is_nil ts)) rest
  end.

End ContentList.

(** The entries a child [i] adds to the content list of a node of type
    [k] that holds something already or not ([filled]): a text run if [k]
    keeps text, an element that goes to the content list, with its own
    content from an empty list on, and nothing otherwise. *)
Fixpoint content_item (k : kind) (filled : bool) (i : item) : list tree :=
  match i with
  | IText cd => if is_mixed k then [Tree Name0 cd []] else []
  | IElem name _ children =>
      match child_kind k (Local name) with
      | Some (k', placed) =>
          if placed && (filled || negb (after_content_only k (Local name)))
          then [Tree name "" (content_list (content_item k') false children)]
          else []
      | None => []
      end
  end.

(** The content list of a new node of type [k] for the children [l]. *)
Definition content_of (k : kind) (l : list item) : list tree :=
  content_list (content_item k) false l.

(** [reads h c t]: a depth-first walk from [c] through the three methods
    of [Contenter] sees the tree [t]. *)
Fixpoint reads (h : heap) (c : Contenter) (t : tree) {struct t} : Prop :=
  match t with
  | Tree identity text children =>
      Contenter_GetXMLName h c = identity
      /\ GetText h c = text
      /\ (fix each (ts : list tree) (cs : list Contenter) {struct ts} : Prop :=
            match ts, cs with
            | [], [] => True
            | t' :: ts', c' :: cs' => reads h c' t' /\ each ts' cs'
            | _, _ => False
            end) children (GetContent h c)
  end.

(** [reads], with every node of the walk at an address from [lo] up to
    [hi]. *)
Fixpoint reads_in (lo hi : addr) (h : heap) (c : Contenter) (t : tree) {struct t} : Prop :=
  match t with
  | Tree identity text children =>
      match c with CNode a => lo <= a < hi | CCharData _ => True end
      /\ Contenter_GetXMLName h c = identity
      /\ GetText h c = text
      /\ (fix each (ts : list tree) (cs : list Contenter) {struct ts} : Prop :=
            match ts, cs with
            | [], [] => True
            | t' :: ts', c' :: cs' => reads_in lo hi h c' t' /\ each ts' cs'
            | _, _ => False
            end) children (GetContent h c)
  end.

(** [n'] is [n] with the entries [cs] appended to its content list, and
    the same type and name. *)
Definition grows (n n' : node) (cs : list Contenter) : Prop :=
  kind_of n' = kind_of n
  /\ node_GetXMLName n' = node_GetXMLName n
  /\ node_GetContent n' = node_GetContent n ++ cs.

(** The tokens [toks], dispatched while a node of type [k] is current,
    leave the parser where it was, touch no older node but the current
    one, and append to its content list entries that read as [ts], given
    whether the list held something before. *)
Definition returns_to (toks : list Token) (k : kind) (ts : bool -> list tree) : Prop :=
  forall (h : heap) (stk : list addr) (root : option addr) (a : addr) (n : node),
    h !! a = Some n -> kind_of n = k ->
    exists h' n' cs,
      dispatch (mkParser stk (Some a) root) toks h = Ret (mkParser stk (Some a) root, h')
      /\ length h <= length h'
      /\ (forall b, b < length h -> b <> a -> h' !! b = h !! b)
      /\ h' !! a = Some n'
      /\ grows n n' cs
      /\ Forall2 (reads_in (length h) (length h') h') cs (ts (has_content n)).

(** An element with one of the local names [names]. *)
Definition named (names : list string) (i : item) : bool :=
  match i with
  | IText _ => false
  | IElem name _ _ => existsb (String.eqb (Local name)) names
  end.

(** The [tr] children among the children of a table, and the [th] and
    [td] children of a row. *)
Definition rows (l : list item) : list item := List.filter (named ["tr"]) l.
Definition cells (r : item) : list item := List.filter (named ["th"; "td"]) (item_children r).

(** The rows [GetContent] returns for a table are its [tr] children in
    order, and the cells of each row its [td] and [th] children in order,
    each cell reading as the content of that child. *)
Definition cells_read (h : heap) (row : Contenter) (r : item) : Prop :=
  Contenter_GetXMLName h row = item_name r
  /\ Forall2 (fun cell c =>
                reads h cell (Tree (item_name c) "" (content_of KTD (item_children c))))
             (GetContent h row) (cells r).

(** ** The token source

    What [xml.Decoder.Token] (strict, as [xml.NewDecoder] makes it) lets
    through of the tags of an input, [open] being the elements open so
    far, innermost first: an end tag that does not close the innermost
    open element, and an end of input inside an element, are syntax
    errors of the decoder, and the tokens from there on are never
    returned.  [DecoderError] holds the message of the
    [xml.SyntaxError], without its line number. *)
Fixpoint xml_Decoder (open : list Name) (input : list Token) : Decoder :=
  match input with
  | [] =>
      match open with
      | [] => mkDecoder [] EOF
      | _ :: _ => mkDecoder [] (DecoderError "unexpected EOF")
      end
  | TStartElement e :: rest =>
      let d := xml_Decoder (StartName e :: open) rest in
      mkDecoder (TStartElement e :: pending d) (failure d)
  | TEndElement name :: rest =>
      match open with
      | [] => mkDecoder [] (DecoderError ("unexpected end element </" ++ Local name ++ ">"))
      | top :: below =>
          if negb (Local top =? Local name)
          then mkDecoder [] (DecoderError ("element <" ++ Local top ++ "> closed by </"
                                           ++ Local name ++ ">"))
          else if negb (Space top =? Space name)
          then mkDecoder [] (DecoderError ("element <" ++ Local top ++ "> in space "
                                           ++ Space top ++ " closed by </" ++ Local name
                                           ++ "> in space " ++ Space name))
          else
            let d := xml_Decoder below rest in
            mkDecoder (TEndElement name :: pending d) (failure d)
      end
  | t :: rest =>
      let d := xml_Decoder open rest in
      mkDecoder (t :: pending d) (failure d)
  end.

(** ** Documents used below *)

(** An element name without a namespace, the open tag and the close tag
    of such an element. *)
Definition plain (local : string) : Name := mkName "" local.
Definition open_tag (local : string) (attrs : list Attr) : Token :=
  TStartElement (mkStart (plain local) attrs).
Definition close_tag (local : string) : Token := TEndElement (plain local).

(** The XLink namespace of the [xlink:type] and [xlink:href] attributes. *)
Definition xlink (local : string) : Name := mkName "http://www.w3.org/1999/xlink" local.

(** [<p></div>late</p>], after the open tag of the root: the input of
    the specification's example. *)
Definition ill_nested_close : list Token :=
  [close_tag "div"; TCharData "late"; close_tag "p"].

(** [<p><div></div>late</p>], after the open tag of the root. *)
Definition close_of_refused_element : list Token :=
  [open_tag "div" []; close_tag "div"; TCharData "late"; close_tag "p"].

(** [<section><foo><p>x</p></foo></section>], after the open tag of the
    root. *)
Definition unknown_child_with_known_inside : list Token :=
  [open_tag "foo" []; open_tag "p" []; TCharData "x"; close_tag "p"; close_tag "foo";
   close_tag "section"].

(** [<section><p>a<p>x</p>b</p></section>], after the open tag of the
    root. *)
Definition unknown_child_named_as_parent : list Token :=
  [open_tag "p" []; TCharData "a"; open_tag "p" []; TCharData "x"; close_tag "p";
   TCharData "b"; close_tag "p"; close_tag "section"].

(** [<section><p bogus="1" id="x"></p></section>], after the open tag of
    the root. *)
Definition refused_attribute : list Token :=
  [open_tag "p" [mkAttr (plain "bogus") "1"; mkAttr (plain "id") "x"];
   close_tag "p"; close_tag "section"].

(** A table of two rows of three cells, with its [id]. *)
Definition two_by_three : list item :=
  [IElem (plain "id") [] [IText "t1"];
   IElem (plain "tr") []
     [IElem (plain "th") [] [IText "a"]; IElem (plain "th") [] [IText "b"];
      IElem (plain "th") [mkAttr (plain "colspan") "2"] [IText "c"]];
   IText " ";
   IElem (plain "tr") [mkAttr (plain "align") "left"]
     [IElem (plain "td") [] [IText "1"];
      IElem (plain "td") [] [IElem (plain "strong") [] [IText "2"]];
      IElem (plain "td") [] []]].

(** [<tr><td><foo><td/><td/></foo></td><td/><td/></tr>] and a row of
    three cells: two rows of three cells each, the first cell of the
    first row holding an element that no type knows, with two cells in
    it. *)
Definition cells_in_unknown_element : list item :=
  [IElem (plain "tr") []
     [IElem (plain "td") []
        [IElem (plain "foo") [] [IElem (plain "td") [] []; IElem (plain "td") [] []]];
      IElem (plain "td") [] [];
      IElem (plain "td") [] []];
   IElem (plain "tr") []
     [IElem (plain "td") [] []; IElem (plain "td") [] []; IElem (plain "td") [] []]].

(** [text-a<strong>bold</strong>text-b] inside [<p>], after the open tag
    of the root. *)
Definition inline_markup : list Token :=
  [TCharData "text-a"; open_tag "strong" []; TCharData "bold"; close_tag "strong";
   TCharData "text-b"; close_tag "p"].

(** ** The loop of [parseDescription] (the package documentation) *)

Section BoundedParse.
Context {store ref : Type} `{!Node store ref}.

(** [e, ok := token.(xml.EndElement); ok && e.Name.Local == "description"]. *)
Definition closes_description (token : Token) : bool :=
  match token with
  | TEndElement name => Local name =? "description"
  | _ => false
  end.

(** The loop of [parseDescription] in the package's documentation: each
    round takes a token from the decoder, discarding its error, hands it to
    [ParseToken], discarding what it returns, and leaves the loop on a
    close tag named [description].  A decoder with nothing left yields the
    nil token, which [ParseToken] matches with no case.  [None] is a loop
    that has not been left after [fuel] rounds. *)
Fixpoint parseDescription_loop (fuel : nat) (p : Parser ref) (pending : list Token)
    (s : store) : option (outcome (Parser ref * store)) :=
  match fuel with
  | 0 => None
  | S fuel' =>
      match pending with
      | [] => parseDescription_loop fuel' p [] s
      | token :: rest =>
          match ParseToken p token s with
          | Panicked => Some Panicked
          | Ret (_, p', s') =>
              if closes_description token then Some (Ret (p', s'))
              else parseDescription_loop fuel' p' rest s'
          end
      end
  end.

End BoundedParse.

(** ** What the content lists of a heap hold *)

(** The types of the nodes that a node of type [k] can have in the list
    [GetContent] returns. *)
Definition holds (k k' : kind) : bool :=
  match k with
  | KTitle => match k' with KP | KEmptyLine => true | _ => false end
  | KCite => match k' with KP | KPoem | KTable | KEmptyLine => true | _ => false end
  | KPoem => match k' with KP | KStanza => true | _ => false end
  | KStanza => match k' with KP => true | _ => false end
  | KEpigraph => match k' with KP | KPoem | KCite | KEmptyLine => true | _ => false end
  | KAnnotation =>
      match k' with KP | KPoem | KCite | KTable | KEmptyLine => true | _ => false end
  | KSection =>
      match k' with
      | KImage | KP | KPoem | KCite | KEmptyLine | KTable => true
      | _ => false
      end
  | KP | KTD | KStyleType | KNamedStyleType =>
      match k' with
      | KNamedStyleType | KLink | KInlineImage | KStyleType => true
      | _ => false
      end
  | KLink | KStyleLinkType =>
      match k' with KInlineImage | KStyleLinkType => true | _ => false end
  | KTable => match k' with KTR => true | _ => false end
  | KTR => match k' with KTD => true | _ => false end
  | KImage | KInlineImage | KEmptyLine | KstringNode => false
  end.

(** An entry of the content list of a node of type [k]: a text run, in a
    type that keeps text, or a pointer to a node of the heap of a type that
    [k] holds. *)
Definition entry_in_vocabulary (h : heap) (k : kind) (c : Contenter) : bool :=
  match c with
  | CCharData _ => is_mixed k
  | CNode b =>
      match h !! b with
      | Some m => holds k (kind_of m)
      | None => false
      end
  end.

Definition in_vocabulary (h : heap) : bool :=
  forallb (fun n => forallb (entry_in_vocabulary h (kind_of n)) (node_GetContent n)) h.

(** The five attribute fields of an [Image] are as [&Image{}] has them. *)
Definition blank_image (n : node) : bool :=
  match n with
  | NImage x =>
      (Image_XlinkType x =? "") && (Image_XlinkHref x =? "") && (Image_Alt x =? "")
      && (Image_Title x =? "") && (Image_ID x =? "")
  | _ => true
  end.

Definition images_blank (h : heap) : bool := forallb blank_image h.

(** An entry added to the content list of a node of type [k] between the
    heaps [h] and [h']: a text run, in a type that keeps text, or a
    pointer to a node that [h] did not have, of a type that [k] holds. *)
Definition added_entry (h h' : heap) (k : kind) (c : Contenter) : Prop :=
  match c with
  | CCharData _ => is_mixed k = true
  | CNode b => h !! b = None /\ exists m, h' !! b = Some m /\ holds k (kind_of m) = true
  end.

(** [h'] is [h] some calls later: every node is where it was, with its
    type and with entries added at the end of its content list; what the
    content lists of the nodes created since hold was added since. *)
Definition evolves (h h' : heap) : Prop :=
  (forall b n, h !! b = Some n ->
     exists n' cs,
       h' !! b = Some n'
       /\ kind_of n' = kind_of n
       /\ node_GetContent n' = node_GetContent n ++ cs
       /\ (blank_image n = true -> blank_image n' = true)
       /\ Forall (added_entry h h' (kind_of n)) cs)
  /\ (forall b c, h !! b = None -> h' !! b = Some c ->
        blank_image c = true
        /\ Forall (added_entry h h' (kind_of c)) (node_GetContent c)).

(** ** Text runs and line breaks *)

(** The text runs among tokens, in order. *)
Definition text_runs (toks : list Token) : list CharData :=
  flat_map (fun t => match t with TCharData cd => [cd] | _ => [] end) toks.

(** A token that opens or closes an element. *)
Definition is_tag (t : Token) : bool :=
  match t with
  | TStartElement _ | TEndElement _ => true
  | _ => false
  end.

(** A string without its line breaks. *)
Fixpoint strip_newlines (s : string) : string :=
  match s with
  | EmptyString => EmptyString
  | String c rest =>
      if isNewline c then strip_newlines rest else String c (strip_newlines rest)
  end.

(** Two results of the decoder that differ in the offsets only, the
    input left by the second being the input left by the first without its
    line breaks. *)
Definition same_quantum (r r' : (string * nat) * string * option error) : Prop :=
  strip_newlines (fst (fst (fst r))) = fst (fst (fst r'))
  /\ snd (fst r) = snd (fst r')
  /\ (snd r = None <-> snd r' = None).

(** ** The description and the bodies

    The types below [Description] and the two bodies.  Their nodes live in
    a store of two heaps: one for the nodes of these types, and the heap of
    the content model for the annotations, images, titles, epigraphs and
    sections they create.  [Stylesheet] is not among them: its
    [charDataCallback] keeps the slice the decoder handed out, without a
    copy, and what that slice holds later is the decoder's business. *)

(** The type [float64] with its zero value, and [strconv.ParseFloat] at
    64 bits (Go standard library). *)
Class Float64 (float64 : Type) := {
  float64_zero : float64;
  ParseFloat : string -> float64 * option error
}.

Section DescriptionModel.
Context {float64 : Type} `{!Float64 float64}.

(** [TextField]. *)
Record TextField := mkTextField {
  TextField_baseNode : baseNode;
  TextField_Lang : string;
  TextField_Value : string
}.

(** [CustomInfo]. *)
Record CustomInfo := mkCustomInfo {
  CustomInfo_TextField : TextField;
  CustomInfo_InfoType : string
}.

(** [Author]. *)
Record Author := mkAuthor {
  Author_FirstName : option addr;
  Author_MiddleName : option addr;
  Author_LastName : option addr;
  Author_Nickname : option addr;
  Author_HomePages : list string;
  Author_Emails : list string;
  Author_ID : string;
  Author_baseNode : baseNode
}.

(** [Sequence]. *)
Record Sequence := mkSequence {
  Sequence_baseNode : baseNode;
  Sequence_Sequences : list addr;
  Sequence_Name : string;
  Sequence_Number : Z
}.

(** [Genre]; [Match *int] is nil or points to an [int] of its own. *)
Record Genre := mkGenre {
  Genre_baseNode : baseNode;
  Genre_Match : option Z;
  Genre_Genre : string
}.

(** [Coverpage]; the image is a node of the content model. *)
Record Coverpage := mkCoverpage {
  Coverpage_baseNode : baseNode;
  Coverpage_Image : option addr
}.

(** [TitleInfo]; the annotation is a node of the content model. *)
Record TitleInfo := mkTitleInfo {
  TitleInfo_baseNode : baseNode;
  TitleInfo_Genres : list addr;
  TitleInfo_Authors : list addr;
  TitleInfo_BookTitle : option addr;
  TitleInfo_Annotation : option addr;
  TitleInfo_Keywords : option addr;
  TitleInfo_Date : option addr;
  TitleInfo_Coverpage : option addr;
  TitleInfo_Lang : string;
  TitleInfo_SrcLang : string;
  TitleInfo_Translators : list addr;
  TitleInfo_Sequences : list addr
}.

(** [DocumentInfo]; the history is a node of the content model. *)
Record DocumentInfo := mkDocumentInfo {
  DocumentInfo_baseNode : baseNode;
  DocumentInfo_Authors : list addr;
  DocumentInfo_ProgramUsed : option addr;
  DocumentInfo_Date : option addr;
  DocumentInfo_SrcURLs : list string;
  DocumentInfo_SrcOcr : option addr;
  DocumentInfo_ID : string;
  DocumentInfo_Version : float64;
  DocumentInfo_History : option addr;
  DocumentInfo_Publishers : list addr
}.

(** [PublishInfo]. *)
Record PublishInfo := mkPublishInfo {
  PublishInfo_baseNode : baseNode;
  PublishInfo_BookName : option addr;
  PublishInfo_Publisher : option addr;
  PublishInfo_City : option addr;
  PublishInfo_Year : string;
  PublishInfo_ISBN : option addr;
  PublishInfo_Sequences : list addr
}.

(** [ShareInstruction]; [ShareMode] and [DocGenerationInstruction] are
    string types. *)
Record ShareInstruction := mkShareInstruction {
  ShareInstruction_baseNode : baseNode;
  ShareInstruction_Mode : string;
  ShareInstruction_IncludeAll : string;
  ShareInstruction_Price : float64;
  ShareInstruction_Currency : string;
  ShareInstruction_Parts : list addr;
  ShareInstruction_OutputDocumentClass : list addr
}.

(** [PartShareInstruction]. *)
Record PartShareInstruction := mkPartShareInstruction {
  PartShareInstruction_baseNode : baseNode;
  PartShareInstruction_XlinkType : string;
  PartShareInstruction_XlinkHref : string;
  PartShareInstruction_Include : string
}.

(** [OutPutDocument]. *)
Record OutPutDocument := mkOutPutDocument {
  OutPutDocument_baseNode : baseNode;
  OutPutDocument_Name : string;
  OutPutDocument_Create : string;
  OutPutDocument_Price : float64;
  OutPutDocument_Parts : list addr
}.

(** The [*string] of a [stringNode] below the description: the field it
    points to, in the node at the address. *)
Inductive stringPtr :=
| Author_ID_ptr (a : addr)             (* &a.ID *)
| DocumentInfo_ID_ptr (a : addr)       (* &di.ID *)
| PublishInfo_Year_ptr (a : addr)      (* &pi.Year *)
| TitleInfo_Lang_ptr (a : addr)        (* &ti.Lang *)
| TitleInfo_SrcLang_ptr (a : addr).    (* &ti.SrcLang *)

(** The [*[]string] of a [stringArrayNode]. *)
Inductive stringsPtr :=
| Author_HomePages_ptr (a : addr)      (* &a.HomePages *)
| Author_Emails_ptr (a : addr)         (* &a.Emails *)
| DocumentInfo_SrcURLs_ptr (a : addr). (* &di.SrcURLs *)

(** [stringNode], with a pointer into a node of these types. *)
Record fieldNode := mkFieldNode {
  fieldNode_baseNode : baseNode;
  fieldNode_s : stringPtr
}.

(** [stringArrayNode]. *)
Record stringArrayNode := mkStringArrayNode {
  stringArrayNode_s : stringsPtr;
  stringArrayNode_baseNode : baseNode
}.

(** [floatNode]; [f] is only ever [&di.Version], kept as the address of
    that [DocumentInfo]. *)
Record floatNode := mkFloatNode {
  floatNode_baseNode : baseNode;
  floatNode_f : addr
}.

(** The dynamic type of a node of these types. *)
Inductive info :=
| IDescription (x : Description)
| ITitleInfo (x : TitleInfo)
| IDocumentInfo (x : DocumentInfo)
| IPublishInfo (x : PublishInfo)
| ICustomInfo (x : CustomInfo)
| IShareInstruction (x : ShareInstruction)
| IPartShareInstruction (x : PartShareInstruction)
| IOutPutDocument (x : OutPutDocument)
| IAuthor (x : Author)
| ITextField (x : TextField)
| IDate (x : Date)
| ISequence (x : Sequence)
| IGenre (x : Genre)
| ICoverpage (x : Coverpage)
| IBody (x : Body)
| INotesBody (x : NotesBody)
| IfieldNode (x : fieldNode)
| IstringArrayNode (x : stringArrayNode)
| IfloatNode (x : floatNode).

(** The two heaps. *)
Record docStore := mkDocStore {
  infos : list info;
  contents : heap
}.

(** A pointer to a node: into one heap or the other. *)
Inductive docRef :=
| InfoRef (a : addr)
| ContentRef (a : addr).

(** Zero values. *)
Definition TextField0 : TextField := mkTextField baseNode0 "" "".
Definition CustomInfo0 : CustomInfo := mkCustomInfo TextField0 "".
Definition Author0 : Author := mkAuthor None None None None [] [] "" baseNode0.
Definition Sequence0 : Sequence := mkSequence baseNode0 [] "" 0.
Definition Genre0 : Genre := mkGenre baseNode0 None "".
Definition Coverpage0 : Coverpage := mkCoverpage baseNode0 None.
Definition TitleInfo0 : TitleInfo :=
  mkTitleInfo baseNode0 [] [] None None None None None "" "" [] [].
Definition DocumentInfo0 : DocumentInfo :=
  mkDocumentInfo baseNode0 [] None None [] None "" float64_zero None [].
Definition PublishInfo0 : PublishInfo := mkPublishInfo baseNode0 None None None "" None [].
Definition ShareInstruction0 : ShareInstruction :=
  mkShareInstruction baseNode0 "" "" float64_zero "" [] [].
Definition PartShareInstruction0 : PartShareInstruction :=
  mkPartShareInstruction baseNode0 "" "" "".
Definition OutPutDocument0 : OutPutDocument := mkOutPutDocument baseNode0 "" "" float64_zero [].

(** [&T{}] in each heap. *)
Definition newInfo (i : info) (s : docStore) : docRef * docStore :=
  (InfoRef (length (infos s)), mkDocStore (infos s ++ [i]) (contents s)).

Definition newContent (n : node) (s : docStore) : docRef * docStore :=
  (ContentRef (length (contents s)), mkDocStore (infos s) (contents s ++ [n])).

(** The address in a pointer. *)
Definition ref_addr (r : docRef) : addr :=
  match r with
  | InfoRef a | ContentRef a => a
  end.

(** *** tagCallback *)

Definition Body_tagCallback (b : Body) (start : StartElement) (s : docStore)
  : (option docRef * option error) * Body * docStore :=
  let name := Local (StartName start) in
  if name =? "image" then
    let '(i, s) := newContent (NImage Image0) s in
    (Some i, None,
     mkBody (Body_baseNode b) (Some (ref_addr i)) (Body_Title b) (Body_Epigraphs b)
       (Body_Sections b) (Body_Lang b), s)
  else if name =? "title" then
    let '(t, s) := newContent (NTitle Title0) s in
    (Some t, None,
     mkBody (Body_baseNode b) (Body_Image b) (Some (ref_addr t)) (Body_Epigraphs b)
       (Body_Sections b) (Body_Lang b), s)
  else if name =? "epigraph" then
    let '(ep, s) := newContent (NEpigraph Epigraph0) s in
    (Some ep, None,
     mkBody (Body_baseNode b) (Body_Image b) (Body_Title b) (Body_Epigraphs b ++ [ref_addr ep])
       (Body_Sections b) (Body_Lang b), s)
  else if name =? "section" then
    let '(cs, s) := newContent (NSection Section0) s in
    (Some cs, None,
     mkBody (Body_baseNode b) (Body_Image b) (Body_Title b) (Body_Epigraphs b)
       (Body_Sections b ++ [ref_addr cs]) (Body_Lang b), s)
  else (baseNode_tagCallback start, b, s).

Definition Description_tagCallback (d : Description) (start : StartElement) (s : docStore)
  : (option docRef * option error) * Description * docStore :=
  let name := Local (StartName start) in
  if name =? "title-info" then
    let '(t, s) := newInfo (ITitleInfo TitleInfo0) s in
    (Some t, None,
     mkDescription (Description_baseNode d) (Some (ref_addr t)) (Description_SrcTitleInfo d)
       (Description_DocumentInfo d) (Description_PublishInfo d) (Description_CustomInfo d)
       (Description_Output d), s)
  else if name =? "src-title-info" then
    let '(t, s) := newInfo (ITitleInfo TitleInfo0) s in
    (Some t, None,
     mkDescription (Description_baseNode d) (Description_TitleInfo d) (Some (ref_addr t))
       (Description_DocumentInfo d) (Description_PublishInfo d) (Description_CustomInfo d)
       (Description_Output d), s)
  else if name =? "document-info" then
    let '(t, s) := newInfo (IDocumentInfo DocumentInfo0) s in
    (Some t, None,
     mkDescription (Description_baseNode d) (Description_TitleInfo d)
       (Description_SrcTitleInfo d) (Some (ref_addr t)) (Description_PublishInfo d)
       (Description_CustomInfo d) (Description_Output d), s)
  else if name =? "publish-info" then
    let '(t, s) := newInfo (IPublishInfo PublishInfo0) s in
    (Some t, None,
     mkDescription (Description_baseNode d) (Description_TitleInfo d)
       (Description_SrcTitleInfo d) (Description_DocumentInfo d) (Some (ref_addr t))
       (Description_CustomInfo d) (Description_Output d), s)
  else if name =? "custom-info" then
    let '(ci, s) := newInfo (ICustomInfo CustomInfo0) s in
    (Some ci, None,
     mkDescription (Description_baseNode d) (Description_TitleInfo d)
       (Description_SrcTitleInfo d) (Description_DocumentInfo d) (Description_PublishInfo d)
       (Description_CustomInfo d ++ [ref_addr ci]) (Description_Output d), s)
  else if name =? "output" then
    let '(o, s) := newInfo (IShareInstruction ShareInstruction0) s in
    (Some o, None,
     mkDescription (Description_baseNode d) (Description_TitleInfo d)
       (Description_SrcTitleInfo d) (Description_DocumentInfo d) (Description_PublishInfo d)
       (Description_CustomInfo d) (Description_Output d ++ [ref_addr o]), s)
  else (baseNode_tagCallback start, d, s).

(** [DocumentInfo.tagCallback]; [self] is the node's own address, for the
    pointers to its fields. *)
Definition DocumentInfo_tagCallback (self : addr) (di : DocumentInfo) (start : StartElement)
    (s : docStore) : (option docRef * option error) * DocumentInfo * docStore :=
  let name := Local (StartName start) in
  if name =? "author" then
    let '(a, s) := newInfo (IAuthor Author0) s in
    (Some a, None,
     mkDocumentInfo (DocumentInfo_baseNode di) (DocumentInfo_Authors di ++ [ref_addr a])
       (DocumentInfo_ProgramUsed di) (DocumentInfo_Date di) (DocumentInfo_SrcURLs di)
       (DocumentInfo_SrcOcr di) (DocumentInfo_ID di) (DocumentInfo_Version di)
       (DocumentInfo_History di) (DocumentInfo_Publishers di), s)
  else if name =? "program-used" then
    let '(t, s) := newInfo (ITextField TextField0) s in
    (Some t, None,
     mkDocumentInfo (DocumentInfo_baseNode di) (DocumentInfo_Authors di)
       (Some (ref_addr t)) (DocumentInfo_Date di) (DocumentInfo_SrcURLs di)
       (DocumentInfo_SrcOcr di) (DocumentInfo_ID di) (DocumentInfo_Version di)
       (DocumentInfo_History di) (DocumentInfo_Publishers di), s)
  else if name =? "date" then
    let '(t, s) := newInfo (IDate Date0) s in
    (Some t, None,
     mkDocumentInfo (DocumentInfo_baseNode di) (DocumentInfo_Authors di)
       (DocumentInfo_ProgramUsed di) (Some (ref_addr t)) (DocumentInfo_SrcURLs di)
       (DocumentInfo_SrcOcr di) (DocumentInfo_ID di) (DocumentInfo_Version di)
       (DocumentInfo_History di) (DocumentInfo_Publishers di), s)
  else if name =? "src-url" then
    let '(n, s) :=
      newInfo (IstringArrayNode (mkStringArrayNode (DocumentInfo_SrcURLs_ptr self) baseNode0)) s in
    (Some n, None, di, s)
  else if name =? "src-ocr" then
    let '(t, s) := newInfo (ITextField TextField0) s in
    (Some t, None,
     mkDocumentInfo (DocumentInfo_baseNode di) (DocumentInfo_Authors di)
       (DocumentInfo_ProgramUsed di) (DocumentInfo_Date di) (DocumentInfo_SrcURLs di)
       (Some (ref_addr t)) (DocumentInfo_ID di) (DocumentInfo_Version di)
       (DocumentInfo_History di) (DocumentInfo_Publishers di), s)
  else if name =? "id" then
    let '(n, s) := newInfo (IfieldNode (mkFieldNode baseNode0 (DocumentInfo_ID_ptr self))) s in
    (Some n, None, di, s)
  else if name =? "version" then
    let '(n, s) := newInfo (IfloatNode (mkFloatNode baseNode0 self)) s in
    (Some n, None, di, s)
  else if name =? "history" then
    let '(h, s) := newContent (NAnnotation Annotation0) s in
    (Some h, None,
     mkDocumentInfo (DocumentInfo_baseNode di) (DocumentInfo_Authors di)
       (DocumentInfo_ProgramUsed di) (DocumentInfo_Date di) (DocumentInfo_SrcURLs di)
       (DocumentInfo_SrcOcr di) (DocumentInfo_ID di) (DocumentInfo_Version di)
       (Some (ref_addr h)) (DocumentInfo_Publishers di), s)
  else if name =? "publisher" then
    let '(a, s) := newInfo (IAuthor Author0) s in
    (Some a, None,
     mkDocumentInfo (DocumentInfo_baseNode di) (DocumentInfo_Authors di)
       (DocumentInfo_ProgramUsed di) (DocumentInfo_Date di) (DocumentInfo_SrcURLs di)
       (DocumentInfo_SrcOcr di) (DocumentInfo_ID di) (DocumentInfo_Version di)
       (DocumentInfo_History di) (DocumentInfo_Publishers di ++ [ref_addr a]), s)
  else (baseNode_tagCallback start, di, s).

Definition PublishInfo_tagCallback (self : addr) (pi : PublishInfo) (start : StartElement)
    (s : docStore) : (option docRef * option error) * PublishInfo * docStore :=
  let name := Local (StartName start) in
  if name =? "book-name" then
    let '(t, s) := newInfo (ITextField TextField0) s in
    (Some t, None,
     mkPublishInfo (PublishInfo_baseNode pi) (Some (ref_addr t)) (PublishInfo_Publisher pi)
       (PublishInfo_City pi) (PublishInfo_Year pi) (PublishInfo_ISBN pi)
       (PublishInfo_Sequences pi), s)
  else if name =? "publisher" then
    let '(t, s) := newInfo (ITextField TextField0) s in
    (Some t, None,
     mkPublishInfo (PublishInfo_baseNode pi) (PublishInfo_BookName pi) (Some (ref_addr t))
       (PublishInfo_City pi) (PublishInfo_Year pi) (PublishInfo_ISBN pi)
       (PublishInfo_Sequences pi), s)
  else if name =? "city" then
    let '(t, s) := newInfo (ITextField TextField0) s in
    (Some t, None,
     mkPublishInfo (PublishInfo_baseNode pi) (PublishInfo_BookName pi)
       (PublishInfo_Publisher pi) (Some (ref_addr t)) (PublishInfo_Year pi)
       (PublishInfo_ISBN pi) (PublishInfo_Sequences pi), s)
  else if name =? "year" then
    let '(n, s) := newInfo (IfieldNode (mkFieldNode baseNode0 (PublishInfo_Year_ptr self))) s in
    (Some n, None, pi, s)
  else if name =? "isbn" then
    let '(t, s) := newInfo (ITextField TextField0) s in
    (Some t, None,
     mkPublishInfo (PublishInfo_baseNode pi) (PublishInfo_BookName pi)
       (PublishInfo_Publisher pi) (PublishInfo_City pi) (PublishInfo_Year pi)
       (Some (ref_addr t)) (PublishInfo_Sequences pi), s)
  else if name =? "sequence" then
    let '(q, s) := newInfo (ISequence Sequence0) s in
    (Some q, None,
     mkPublishInfo (PublishInfo_baseNode pi) (PublishInfo_BookName pi)
       (PublishInfo_Publisher pi) (PublishInfo_City pi) (PublishInfo_Year pi)
       (PublishInfo_ISBN pi) (PublishInfo_Sequences pi ++ [ref_addr q]), s)
  else (baseNode_tagCallback start, pi, s).

Definition Author_tagCallback (self : addr) (a : Author) (start : StartElement)
    (s : docStore) : (option docRef * option error) * Author * docStore :=
  let name := Local (StartName start) in
  if name =? "first-name" then
    let '(t, s) := newInfo (ITextField TextField0) s in
    (Some t, None,
     mkAuthor (Some (ref_addr t)) (Author_MiddleName a) (Author_LastName a)
       (Author_Nickname a) (Author_HomePages a) (Author_Emails a) (Author_ID a)
       (Author_baseNode a), s)
  else if name =? "middle-name" then
    let '(t, s) := newInfo (ITextField TextField0) s in
    (Some t, None,
     mkAuthor (Author_FirstName a) (Some (ref_addr t)) (Author_LastName a)
       (Author_Nickname a) (Author_HomePages a) (Author_Emails a) (Author_ID a)
       (Author_baseNode a), s)
  else if name =? "last-name" then
    let '(t, s) := newInfo (ITextField TextField0) s in
    (Some t, None,
     mkAuthor (Author_FirstName a) (Author_MiddleName a) (Some (ref_addr t))
       (Author_Nickname a) (Author_HomePages a) (Author_Emails a) (Author_ID a)
       (Author_baseNode a), s)
  else if name =? "nickname" then
    let '(t, s) := newInfo (ITextField TextField0) s in
    (Some t, None,
     mkAuthor (Author_FirstName a) (Author_MiddleName a) (Author_LastName a)
       (Some (ref_addr t)) (Author_HomePages a) (Author_Emails a) (Author_ID a)
       (Author_baseNode a), s)
  else if name =? "home-page" then
    let '(n, s) :=
      newInfo (IstringArrayNode (mkStringArrayNode (Author_HomePages_ptr self) baseNode0)) s in
    (Some n, None, a, s)
  else if name =? "email" then
    let '(n, s) :=
      newInfo (IstringArrayNode (mkStringArrayNode (Author_Emails_ptr self) baseNode0)) s in
    (Some n, None, a, s)
  else if name =? "id" then
    let '(n, s) := newInfo (IfieldNode (mkFieldNode baseNode0 (Author_ID_ptr self))) s in
    (Some n, None, a, s)
  else (baseNode_tagCallback start, a, s).

Definition Sequence_tagCallback (q : Sequence) (start : StartElement) (s : docStore)
  : (option docRef * option error) * Sequence * docStore :=
  if Local (StartName start) =? "sequence" then
    let '(c, s) := newInfo (ISequence Sequence0) s in
    (Some c, None,
     mkSequence (Sequence_baseNode q) (Sequence_Sequences q ++ [ref_addr c])
       (Sequence_Name q) (Sequence_Number q), s)
  else (baseNode_tagCallback start, q, s).

Definition TitleInfo_tagCallback (self : addr) (ti : TitleInfo) (start : StartElement)
    (s : docStore) : (option docRef * option error) * TitleInfo * docStore :=
  let name := Local (StartName start) in
  if name =? "genre" then
    let '(g, s) := newInfo (IGenre Genre0) s in
    (Some g, None,
     mkTitleInfo (TitleInfo_baseNode ti) (TitleInfo_Genres ti ++ [ref_addr g])
       (TitleInfo_Authors ti) (TitleInfo_BookTitle ti) (TitleInfo_Annotation ti)
       (TitleInfo_Keywords ti) (TitleInfo_Date ti) (TitleInfo_Coverpage ti)
       (TitleInfo_Lang ti) (TitleInfo_SrcLang ti) (TitleInfo_Translators ti)
       (TitleInfo_Sequences ti), s)
  else if name =? "author" then
    let '(a, s) := newInfo (IAuthor Author0) s in
    (Some a, None,
     mkTitleInfo (TitleInfo_baseNode ti) (TitleInfo_Genres ti)
       (TitleInfo_Authors ti ++ [ref_addr a]) (TitleInfo_BookTitle ti)
       (TitleInfo_Annotation ti) (TitleInfo_Keywords ti) (TitleInfo_Date ti)
       (TitleInfo_Coverpage ti) (TitleInfo_Lang ti) (TitleInfo_SrcLang ti)
       (TitleInfo_Translators ti) (TitleInfo_Sequences ti), s)
  else if name =? "book-title" then
    let '(t, s) := newInfo (ITextField TextField0) s in
    (Some t, None,
     mkTitleInfo (TitleInfo_baseNode ti) (TitleInfo_Genres ti) (TitleInfo_Authors ti)
       (Some (ref_addr t)) (TitleInfo_Annotation ti) (TitleInfo_Keywords ti)
       (TitleInfo_Date ti) (TitleInfo_Coverpage ti) (TitleInfo_Lang ti)
       (TitleInfo_SrcLang ti) (TitleInfo_Translators ti) (TitleInfo_Sequences ti), s)
  else if name =? "annotation" then
    let '(a, s) := newContent (NAnnotation Annotation0) s in
    (Some a, None,
     mkTitleInfo (TitleInfo_baseNode ti) (TitleInfo_Genres ti) (TitleInfo_Authors ti)
       (TitleInfo_BookTitle ti) (Some (ref_addr a)) (TitleInfo_Keywords ti)
       (TitleInfo_Date ti) (TitleInfo_Coverpage ti) (TitleInfo_Lang ti)
       (TitleInfo_SrcLang ti) (TitleInfo_Translators ti) (TitleInfo_Sequences ti), s)
  else if name =? "keywords" then
    let '(t, s) := newInfo (ITextField TextField0) s in
    (Some t, None,
     mkTitleInfo (TitleInfo_baseNode ti) (TitleInfo_Genres ti) (TitleInfo_Authors ti)
       (TitleInfo_BookTitle ti) (TitleInfo_Annotation ti) (Some (ref_addr t))
       (TitleInfo_Date ti) (TitleInfo_Coverpage ti) (TitleInfo_Lang ti)
       (TitleInfo_SrcLang ti) (TitleInfo_Translators ti) (TitleInfo_Sequences ti), s)
  else if name =? "date" then
    let '(t, s) := newInfo (IDate Date0) s in
    (Some t, None,
     mkTitleInfo (TitleInfo_baseNode ti) (TitleInfo_Genres ti) (TitleInfo_Authors ti)
       (TitleInfo_BookTitle ti) (TitleInfo_Annotation ti) (TitleInfo_Keywords ti)
       (Some (ref_addr t)) (TitleInfo_Coverpage ti) (TitleInfo_Lang ti)
       (TitleInfo_SrcLang ti) (TitleInfo_Translators ti) (TitleInfo_Sequences ti), s)
  else if name =? "coverpage" then
    let '(c, s) := newInfo (ICoverpage Coverpage0) s in
    (Some c, None,
     mkTitleInfo (TitleInfo_baseNode ti) (TitleInfo_Genres ti) (TitleInfo_Authors ti)
       (TitleInfo_BookTitle ti) (TitleInfo_Annotation ti) (TitleInfo_Keywords ti)
       (TitleInfo_Date ti) (Some (ref_addr c)) (TitleInfo_Lang ti)
       (TitleInfo_SrcLang ti) (TitleInfo_Translators ti) (TitleInfo_Sequences ti), s)
  else if name =? "lang" then
    let '(n, s) := newInfo (IfieldNode (mkFieldNode baseNode0 (TitleInfo_Lang_ptr self))) s in
    (Some n, None, ti, s)
  else if name =? "src-lang" then
    let '(n, s) :=
      newInfo (IfieldNode (mkFieldNode baseNode0 (TitleInfo_SrcLang_ptr self))) s in
    (Some n, None, ti, s)
  else if name =? "translator" then
    let '(a, s) := newInfo (IAuthor Author0) s in
    (Some a, None,
     mkTitleInfo (TitleInfo_baseNode ti) (TitleInfo_Genres ti) (TitleInfo_Authors ti)
       (TitleInfo_BookTitle ti) (TitleInfo_Annotation ti) (TitleInfo_Keywords ti)
       (TitleInfo_Date ti) (TitleInfo_Coverpage ti) (TitleInfo_Lang ti)
       (TitleInfo_SrcLang ti) (TitleInfo_Translators ti ++ [ref_addr a])
       (TitleInfo_Sequences ti), s)
  else if name =? "sequence" then
    let '(q, s) := newInfo (ISequence Sequence0) s in
    (Some q, None,
     mkTitleInfo (TitleInfo_baseNode ti) (TitleInfo_Genres ti) (TitleInfo_Authors ti)
       (TitleInfo_BookTitle ti) (TitleInfo_Annotation ti) (TitleInfo_Keywords ti)
       (TitleInfo_Date ti) (TitleInfo_Coverpage ti) (TitleInfo_Lang ti)
       (TitleInfo_SrcLang ti) (TitleInfo_Translators ti)
       (TitleInfo_Sequences ti ++ [ref_addr q]), s)
  else (baseNode_tagCallback start, ti, s).

Definition Coverpage_tagCallback (c : Coverpage) (start : StartElement) (s : docStore)
  : (option docRef * option error) * Coverpage * docStore :=
  if Local (StartName start) =? "image" then
    let '(i, s) := newContent (NInlineImage InlineImage0) s in
    (Some i, None, mkCoverpage (Coverpage_baseNode c) (Some (ref_addr i)), s)
  else (baseNode_tagCallback start, c, s).

Definition ShareInstruction_tagCallback (si : ShareInstruction) (start : StartElement)
    (s : docStore) : (option docRef * option error) * ShareInstruction * docStore :=
  let name := Local (StartName start) in
  if name =? "part" then
    let '(p, s) := newInfo (IPartShareInstruction PartShareInstruction0) s in
    (Some p, None,
     mkShareInstruction (ShareInstruction_baseNode si) (ShareInstruction_Mode si)
       (ShareInstruction_IncludeAll si) (ShareInstruction_Price si)
       (ShareInstruction_Currency si) (ShareInstruction_Parts si ++ [ref_addr p])
       (ShareInstruction_OutputDocumentClass si), s)
  else if name =? "output-document-class" then
    let '(o, s) := newInfo (IOutPutDocument OutPutDocument0) s in
    (Some o, None,
     mkShareInstruction (ShareInstruction_baseNode si) (ShareInstruction_Mode si)
       (ShareInstruction_IncludeAll si) (ShareInstruction_Price si)
       (ShareInstruction_Currency si) (ShareInstruction_Parts si)
       (ShareInstruction_OutputDocumentClass si ++ [ref_addr o]), s)
  else (baseNode_tagCallback start, si, s).

Definition OutPutDocument_tagCallback (od : OutPutDocument) (start : StartElement)
    (s : docStore) : (option docRef * option error) * OutPutDocument * docStore :=
  if Local (StartName start) =? "part" then
    let '(p, s) := newInfo (IPartShareInstruction PartShareInstruction0) s in
    (Some p, None,
     mkOutPutDocument (OutPutDocument_baseNode od) (OutPutDocument_Name od)
       (OutPutDocument_Create od) (OutPutDocument_Price od)
       (OutPutDocument_Parts od ++ [ref_addr p]), s)
  else (baseNode_tagCallback start, od, s).

(** *** attrCallback *)

Definition Body_attrCallback (b : Body) (attr : Attr) : option error * Body :=
  if Local (AttrName attr) =? "lang"
  then (None, mkBody (Body_baseNode b) (Body_Image b) (Body_Title b) (Body_Epigraphs b)
                (Body_Sections b) (Value attr))
  else (baseNode_attrCallback attr, b).

Definition NotesBody_attrCallback (b : NotesBody) (attr : Attr) : option error * NotesBody :=
  if Local (AttrName attr) =? "name"
  then (None, mkNotesBody (NotesBody_Body b) (Value attr))
  else
    let '(err, body) := Body_attrCallback (NotesBody_Body b) attr in
    (err, mkNotesBody body (NotesBody_Name b)).

Definition TextField_attrCallback (t : TextField) (attr : Attr) : option error * TextField :=
  if Local (AttrName attr) =? "lang"
  then (None, mkTextField (TextField_baseNode t) (Value attr) (TextField_Value t))
  else (baseNode_attrCallback attr, t).

Definition CustomInfo_attrCallback (ci : CustomInfo) (attr : Attr)
  : option error * CustomInfo :=
  if Local (AttrName attr) =? "info-type"
  then (None, mkCustomInfo (CustomInfo_TextField ci) (Value attr))
  else
    let '(err, t) := TextField_attrCallback (CustomInfo_TextField ci) attr in
    (err, mkCustomInfo t (CustomInfo_InfoType ci)).

Definition Sequence_attrCallback (q : Sequence) (attr : Attr) : option error * Sequence :=
  if Local (AttrName attr) =? "name" then
    (None, mkSequence (Sequence_baseNode q) (Sequence_Sequences q) (Value attr)
             (Sequence_Number q))
  else if Local (AttrName attr) =? "number" then
    match Atoi (Value attr) with
    | (_, Some err) => (Some err, q)
    | (n, None) =>
        (None, mkSequence (Sequence_baseNode q) (Sequence_Sequences q) (Sequence_Name q) n)
    end
  else (baseNode_attrCallback attr, q).

Definition Genre_attrCallback (g : Genre) (attr : Attr) : option error * Genre :=
  if Local (AttrName attr) =? "match" then
    match Atoi (Value attr) with
    | (_, Some err) => (Some err, g)
    | (m, None) => (None, mkGenre (Genre_baseNode g) (Some m) (Genre_Genre g))
    end
  else (baseNode_attrCallback attr, g).

Definition ShareInstruction_attrCallback (si : ShareInstruction) (attr : Attr)
  : option error * ShareInstruction :=
  let name := Local (AttrName attr) in
  if name =? "mode" then
    (None, mkShareInstruction (ShareInstruction_baseNode si) (Value attr)
             (ShareInstruction_IncludeAll si) (ShareInstruction_Price si)
             (ShareInstruction_Currency si) (ShareInstruction_Parts si)
             (ShareInstruction_OutputDocumentClass si))
  else if name =? "include-all" then
    (None, mkShareInstruction (ShareInstruction_baseNode si) (ShareInstruction_Mode si)
             (Value attr) (ShareInstruction_Price si)
             (ShareInstruction_Currency si) (ShareInstruction_Parts si)
             (ShareInstruction_OutputDocumentClass si))
  else if name =? "price" then
    let '(p, err) := ParseFloat (Value attr) in
    (err, mkShareInstruction (ShareInstruction_baseNode si) (ShareInstruction_Mode si)
            (ShareInstruction_IncludeAll si) p
            (ShareInstruction_Currency si) (ShareInstruction_Parts si)
            (ShareInstruction_OutputDocumentClass si))
  else if name =? "currency" then
    (None, mkShareInstruction (ShareInstruction_baseNode si) (ShareInstruction_Mode si)
             (ShareInstruction_IncludeAll si) (ShareInstruction_Price si)
             (Value attr) (ShareInstruction_Parts si)
             (ShareInstruction_OutputDocumentClass si))
  else (baseNode_attrCallback attr, si).

Definition PartShareInstruction_attrCallback (psi : PartShareInstruction) (attr : Attr)
  : option error * PartShareInstruction :=
  let name := Local (AttrName attr) in
  if name =? "type" then
    (None, mkPartShareInstruction (PartShareInstruction_baseNode psi) (Value attr)
             (PartShareInstruction_XlinkHref psi) (PartShareInstruction_Include psi))
  else if name =? "href" then
    (None, mkPartShareInstruction (PartShareInstruction_baseNode psi)
             (PartShareInstruction_XlinkType psi) (Value attr)
             (PartShareInstruction_Include psi))
  else if name =? "include" then
    (None, mkPartShareInstruction (PartShareInstruction_baseNode psi)
             (PartShareInstruction_XlinkType psi) (PartShareInstruction_XlinkHref psi)
             (Value attr))
  else (baseNode_attrCallback attr, psi).

Definition OutPutDocument_attrCallback (od : OutPutDocument) (attr : Attr)
  : option error * OutPutDocument :=
  let name := Local (AttrName attr) in
  if name =? "name" then
    (None, mkOutPutDocument (OutPutDocument_baseNode od) (Value attr)
             (OutPutDocument_Create od) (OutPutDocument_Price od) (OutPutDocument_Parts od))
  else if name =? "create" then
    (None, mkOutPutDocument (OutPutDocument_baseNode od) (OutPutDocument_Name od)
             (Value attr) (OutPutDocument_Price od) (OutPutDocument_Parts od))
  else if name =? "price" then
    let '(p, err) := ParseFloat (Value attr) in
    (err, mkOutPutDocument (OutPutDocument_baseNode od) (OutPutDocument_Name od)
            (OutPutDocument_Create od) p (OutPutDocument_Parts od))
  else (baseNode_attrCallback attr, od).

(** *** charDataCallback *)

Definition TextField_charDataCallback (t : TextField) (cd : CharData)
  : option error * TextField :=
  (None, mkTextField (TextField_baseNode t) (TextField_Lang t) cd).

Definition Genre_charDataCallback (g : Genre) (cd : CharData) : option error * Genre :=
  (None, mkGenre (Genre_baseNode g) (Genre_Match g) cd).

(** [*s.s = string(cd)]. *)
Definition fieldNode_charDataCallback (n : fieldNode) (cd : CharData) (l : list info)
  : option error * list info :=
  (None,
   match fieldNode_s n with
   | Author_ID_ptr a =>
       match l !! a with
       | Some (IAuthor x) =>
           <[a := IAuthor (mkAuthor (Author_FirstName x) (Author_MiddleName x)
                             (Author_LastName x) (Author_Nickname x) (Author_HomePages x)
                             (Author_Emails x) cd (Author_baseNode x))]> l
       | _ => l
       end
   | DocumentInfo_ID_ptr a =>
       match l !! a with
       | Some (IDocumentInfo x) =>
           <[a := IDocumentInfo
                    (mkDocumentInfo (DocumentInfo_baseNode x) (DocumentInfo_Authors x)
                       (DocumentInfo_ProgramUsed x) (DocumentInfo_Date x)
                       (DocumentInfo_SrcURLs x) (DocumentInfo_SrcOcr x) cd
                       (DocumentInfo_Version x) (DocumentInfo_History x)
                       (DocumentInfo_Publishers x))]> l
       | _ => l
       end
   | PublishInfo_Year_ptr a =>
       match l !! a with
       | Some (IPublishInfo x) =>
           <[a := IPublishInfo
                    (mkPublishInfo (PublishInfo_baseNode x) (PublishInfo_BookName x)
                       (PublishInfo_Publisher x) (PublishInfo_City x) cd
                       (PublishInfo_ISBN x) (PublishInfo_Sequences x))]> l
       | _ => l
       end
   | TitleInfo_Lang_ptr a =>
       match l !! a with
       | Some (ITitleInfo x) =>
           <[a := ITitleInfo
                    (mkTitleInfo (TitleInfo_baseNode x) (TitleInfo_Genres x)
                       (TitleInfo_Authors x) (TitleInfo_BookTitle x) (TitleInfo_Annotation x)
                       (TitleInfo_Keywords x) (TitleInfo_Date x) (TitleInfo_Coverpage x)
                       cd (TitleInfo_SrcLang x) (TitleInfo_Translators x)
                       (TitleInfo_Sequences x))]> l
       | _ => l
       end
   | TitleInfo_SrcLang_ptr a =>
       match l !! a with
       | Some (ITitleInfo x) =>
           <[a := ITitleInfo
                    (mkTitleInfo (TitleInfo_baseNode x) (TitleInfo_Genres x)
                       (TitleInfo_Authors x) (TitleInfo_BookTitle x) (TitleInfo_Annotation x)
                       (TitleInfo_Keywords x) (TitleInfo_Date x) (TitleInfo_Coverpage x)
                       (TitleInfo_Lang x) cd (TitleInfo_Translators x)
                       (TitleInfo_Sequences x))]> l
       | _ => l
       end
   end).

(** [*s.s = append( *s.s, string(cd))]. *)
Definition stringArrayNode_charDataCallback (n : stringArrayNode) (cd : CharData)
    (l : list info) : option error * list info :=
  (None,
   match stringArrayNode_s n with
   | Author_HomePages_ptr a =>
       match l !! a with
       | Some (IAuthor x) =>
           <[a := IAuthor (mkAuthor (Author_FirstName x) (Author_MiddleName x)
                             (Author_LastName x) (Author_Nickname x)
                             (Author_HomePages x ++ [cd]) (Author_Emails x) (Author_ID x)
                             (Author_baseNode x))]> l
       | _ => l
       end
   | Author_Emails_ptr a =>
       match l !! a with
       | Some (IAuthor x) =>
           <[a := IAuthor (mkAuthor (Author_FirstName x) (Author_MiddleName x)
                             (Author_LastName x) (Author_Nickname x) (Author_HomePages x)
                             (Author_Emails x ++ [cd]) (Author_ID x) (Author_baseNode x))]> l
       | _ => l
       end
   | DocumentInfo_SrcURLs_ptr a =>
       match l !! a with
       | Some (IDocumentInfo x) =>
           <[a := IDocumentInfo
                    (mkDocumentInfo (DocumentInfo_baseNode x) (DocumentInfo_Authors x)
                       (DocumentInfo_ProgramUsed x) (DocumentInfo_Date x)
                       (DocumentInfo_SrcURLs x ++ [cd]) (DocumentInfo_SrcOcr x)
                       (DocumentInfo_ID x) (DocumentInfo_Version x) (DocumentInfo_History x)
                       (DocumentInfo_Publishers x))]> l
       | _ => l
       end
   end).

(** [fl, err := strconv.ParseFloat(string(cd), 64); *f.f = fl; return err]. *)
Definition floatNode_charDataCallback (n : floatNode) (cd : CharData) (l : list info)
  : option error * list info :=
  let '(fl, err) := ParseFloat cd in
  (err,
   match l !! floatNode_f n with
   | Some (IDocumentInfo x) =>
       <[floatNode_f n :=
           IDocumentInfo
             (mkDocumentInfo (DocumentInfo_baseNode x) (DocumentInfo_Authors x)
                (DocumentInfo_ProgramUsed x) (DocumentInfo_Date x) (DocumentInfo_SrcURLs x)
                (DocumentInfo_SrcOcr x) (DocumentInfo_ID x) fl (DocumentInfo_History x)
                (DocumentInfo_Publishers x))]> l
   | _ => l
   end).

(** *** Dynamic dispatch *)

(** The embedded [baseNode] of each type. *)
Definition info_baseNode (i : info) : baseNode :=
  match i with
  | IDescription x => Description_baseNode x
  | ITitleInfo x => TitleInfo_baseNode x
  | IDocumentInfo x => DocumentInfo_baseNode x
  | IPublishInfo x => PublishInfo_baseNode x
  | ICustomInfo x => TextField_baseNode (CustomInfo_TextField x)
  | IShareInstruction x => ShareInstruction_baseNode x
  | IPartShareInstruction x => PartShareInstruction_baseNode x
  | IOutPutDocument x => OutPutDocument_baseNode x
  | IAuthor x => Author_baseNode x
  | ITextField x => TextField_baseNode x
  | IDate x => Date_baseNode x
  | ISequence x => Sequence_baseNode x
  | IGenre x => Genre_baseNode x
  | ICoverpage x => Coverpage_baseNode x
  | IBody x => Body_baseNode x
  | INotesBody x => Body_baseNode (NotesBody_Body x)
  | IfieldNode x => fieldNode_baseNode x
  | IstringArrayNode x => stringArrayNode_baseNode x
  | IfloatNode x => floatNode_baseNode x
  end.

Definition info_with_baseNode (b : baseNode) (i : info) : info :=
  match i with
  | IDescription x =>
      IDescription (mkDescription b (Description_TitleInfo x) (Description_SrcTitleInfo x)
                      (Description_DocumentInfo x) (Description_PublishInfo x)
                      (Description_CustomInfo x) (Description_Output x))
  | ITitleInfo x =>
      ITitleInfo (mkTitleInfo b (TitleInfo_Genres x) (TitleInfo_Authors x)
                    (TitleInfo_BookTitle x) (TitleInfo_Annotation x) (TitleInfo_Keywords x)
                    (TitleInfo_Date x) (TitleInfo_Coverpage x) (TitleInfo_Lang x)
                    (TitleInfo_SrcLang x) (TitleInfo_Translators x) (TitleInfo_Sequences x))
  | IDocumentInfo x =>
      IDocumentInfo (mkDocumentInfo b (DocumentInfo_Authors x) (DocumentInfo_ProgramUsed x)
                       (DocumentInfo_Date x) (DocumentInfo_SrcURLs x) (DocumentInfo_SrcOcr x)
                       (DocumentInfo_ID x) (DocumentInfo_Version x) (DocumentInfo_History x)
                       (DocumentInfo_Publishers x))
  | IPublishInfo x =>
      IPublishInfo (mkPublishInfo b (PublishInfo_BookName x) (PublishInfo_Publisher x)
                      (PublishInfo_City x) (PublishInfo_Year x) (PublishInfo_ISBN x)
                      (PublishInfo_Sequences x))
  | ICustomInfo x =>
      ICustomInfo (mkCustomInfo
                     (mkTextField b (TextField_Lang (CustomInfo_TextField x))
                        (TextField_Value (CustomInfo_TextField x)))
                     (CustomInfo_InfoType x))
  | IShareInstruction x =>
      IShareInstruction
        (mkShareInstruction b (ShareInstruction_Mode x) (ShareInstruction_IncludeAll x)
           (ShareInstruction_Price x) (ShareInstruction_Currency x)
           (ShareInstruction_Parts x) (ShareInstruction_OutputDocumentClass x))
  | IPartShareInstruction x =>
      IPartShareInstruction
        (mkPartShareInstruction b (PartShareInstruction_XlinkType x)
           (PartShareInstruction_XlinkHref x) (PartShareInstruction_Include x))
  | IOutPutDocument x =>
      IOutPutDocument (mkOutPutDocument b (OutPutDocument_Name x) (OutPutDocument_Create x)
                         (OutPutDocument_Price x) (OutPutDocument_Parts x))
  | IAuthor x =>
      IAuthor (mkAuthor (Author_FirstName x) (Author_MiddleName x) (Author_LastName x)
                 (Author_Nickname x) (Author_HomePages x) (Author_Emails x) (Author_ID x) b)
  | ITextField x => ITextField (mkTextField b (TextField_Lang x) (TextField_Value x))
  | IDate x => IDate (mkDate (Date_Value x) (Date_Lang x) (Date_StrValue x) b)
  | ISequence x =>
      ISequence (mkSequence b (Sequence_Sequences x) (Sequence_Name x) (Sequence_Number x))
  | IGenre x => IGenre (mkGenre b (Genre_Match x) (Genre_Genre x))
  | ICoverpage x => ICoverpage (mkCoverpage b (Coverpage_Image x))
  | IBody x =>
      IBody (mkBody b (Body_Image x) (Body_Title x) (Body_Epigraphs x) (Body_Sections x)
               (Body_Lang x))
  | INotesBody x =>
      INotesBody
        (mkNotesBody
           (mkBody b (Body_Image (NotesBody_Body x)) (Body_Title (NotesBody_Body x))
              (Body_Epigraphs (NotesBody_Body x)) (Body_Sections (NotesBody_Body x))
              (Body_Lang (NotesBody_Body x)))
           (NotesBody_Name x))
  | IfieldNode x => IfieldNode (mkFieldNode b (fieldNode_s x))
  | IstringArrayNode x => IstringArrayNode (mkStringArrayNode (stringArrayNode_s x) b)
  | IfloatNode x => IfloatNode (mkFloatNode b (floatNode_f x))
  end.

Definition info_tagCallback (self : addr) (i : info) (start : StartElement) (s : docStore)
  : (option docRef * option error) * info * docStore :=
  match i with
  | IDescription x =>
      let '(r, x, s) := Description_tagCallback x start s in (r, IDescription x, s)
  | ITitleInfo x =>
      let '(r, x, s) := TitleInfo_tagCallback self x start s in (r, ITitleInfo x, s)
  | IDocumentInfo x =>
      let '(r, x, s) := DocumentInfo_tagCallback self x start s in (r, IDocumentInfo x, s)
  | IPublishInfo x =>
      let '(r, x, s) := PublishInfo_tagCallback self x start s in (r, IPublishInfo x, s)
  | IShareInstruction x =>
      let '(r, x, s) := ShareInstruction_tagCallback x start s in (r, IShareInstruction x, s)
  | IOutPutDocument x =>
      let '(r, x, s) := OutPutDocument_tagCallback x start s in (r, IOutPutDocument x, s)
  | IAuthor x => let '(r, x, s) := Author_tagCallback self x start s in (r, IAuthor x, s)
  | ISequence x => let '(r, x, s) := Sequence_tagCallback x start s in (r, ISequence x, s)
  | ICoverpage x => let '(r, x, s) := Coverpage_tagCallback x start s in (r, ICoverpage x, s)
  | IBody x => let '(r, x, s) := Body_tagCallback x start s in (r, IBody x, s)
  | INotesBody x =>
      let '(r, b, s) := Body_tagCallback (NotesBody_Body x) start s in
      (r, INotesBody (mkNotesBody b (NotesBody_Name x)), s)
  | ICustomInfo _ | IPartShareInstruction _ | ITextField _ | IDate _ | IGenre _
  | IfieldNode _ | IstringArrayNode _ | IfloatNode _ =>
      (baseNode_tagCallback start, i, s)
  end.

Definition info_attrCallback (i : info) (attr : Attr) : option error * info :=
  match i with
  | ICustomInfo x => let '(e, x) := CustomInfo_attrCallback x attr in (e, ICustomInfo x)
  | IShareInstruction x =>
      let '(e, x) := ShareInstruction_attrCallback x attr in (e, IShareInstruction x)
  | IPartShareInstruction x =>
      let '(e, x) := PartShareInstruction_attrCallback x attr in (e, IPartShareInstruction x)
  | IOutPutDocument x =>
      let '(e, x) := OutPutDocument_attrCallback x attr in (e, IOutPutDocument x)
  | ITextField x => let '(e, x) := TextField_attrCallback x attr in (e, ITextField x)
  | IDate x => let '(e, x) := Date_attrCallback x attr in (e, IDate x)
  | ISequence x => let '(e, x) := Sequence_attrCallback x attr in (e, ISequence x)
  | IGenre x => let '(e, x) := Genre_attrCallback x attr in (e, IGenre x)
  | IBody x => let '(e, x) := Body_attrCallback x attr in (e, IBody x)
  | INotesBody x => let '(e, x) := NotesBody_attrCallback x attr in (e, INotesBody x)
  | IDescription _ | ITitleInfo _ | IDocumentInfo _ | IPublishInfo _ | IAuthor _
  | ICoverpage _ | IfieldNode _ | IstringArrayNode _ | IfloatNode _ =>
      (baseNode_attrCallback attr, i)
  end.

(** [charDataCallback] on the node at [a]: the types with a text value
    keep the run, the three pointer nodes write through their pointer, and
    the others answer with [baseNode.charDataCallback]. *)
Definition info_charDataCallback (a : addr) (i : info) (cd : CharData) (l : list info)
  : option error * list info :=
  match i with
  | ITextField x =>
      let '(e, x) := TextField_charDataCallback x cd in (e, <[a := ITextField x]> l)
  | ICustomInfo x =>
      let '(e, t) := TextField_charDataCallback (CustomInfo_TextField x) cd in
      (e, <[a := ICustomInfo (mkCustomInfo t (CustomInfo_InfoType x))]> l)
  | IDate x => let '(e, x) := Date_charDataCallback x cd in (e, <[a := IDate x]> l)
  | IGenre x => let '(e, x) := Genre_charDataCallback x cd in (e, <[a := IGenre x]> l)
  | IfieldNode x => fieldNode_charDataCallback x cd l
  | IstringArrayNode x => stringArrayNode_charDataCallback x cd l
  | IfloatNode x => floatNode_charDataCallback x cd l
  | _ => (baseNode_charDataCallback cd, l)
  end.

(** *** The store as an implementation of [Node] *)

Definition doc_SetXMLName (r : docRef) (name : Name) (s : docStore) : docStore :=
  match r with
  | InfoRef a =>
      match infos s !! a with
      | Some i =>
          mkDocStore
            (<[a := info_with_baseNode (baseNode_SetXMLName name (info_baseNode i)) i]>
               (infos s))
            (contents s)
      | None => s
      end
  | ContentRef a => mkDocStore (infos s) (heap_SetXMLName a name (contents s))
  end.

Definition doc_GetXMLName (r : docRef) (s : docStore) : Name :=
  match r with
  | InfoRef a =>
      match infos s !! a with
      | Some i => baseNode_GetXMLName (info_baseNode i)
      | None => Name0
      end
  | ContentRef a => heap_GetXMLName a (contents s)
  end.

Definition doc_tagCallback (r : docRef) (start : StartElement) (s : docStore)
  : (option docRef * option error) * docStore :=
  match r with
  | InfoRef a =>
      match infos s !! a with
      | Some i =>
          let '(c, i', s') := info_tagCallback a i start s in
          (c, mkDocStore (<[a := i']> (infos s')) (contents s'))
      | None => (baseNode_tagCallback start, s)
      end
  | ContentRef a =>
      let '(c, e, h) := heap_tagCallback a start (contents s) in
      (option_map ContentRef c, e, mkDocStore (infos s) h)
  end.

Definition doc_attrCallback (r : docRef) (attr : Attr) (s : docStore)
  : option error * docStore :=
  match r with
  | InfoRef a =>
      match infos s !! a with
      | Some i =>
          let '(e, i') := info_attrCallback i attr in
          (e, mkDocStore (<[a := i']> (infos s)) (contents s))
      | None => (baseNode_attrCallback attr, s)
      end
  | ContentRef a =>
      let '(e, h) := heap_attrCallback a attr (contents s) in
      (e, mkDocStore (infos s) h)
  end.

Definition doc_charDataCallback (r : docRef) (cd : CharData) (s : docStore)
  : option error * docStore :=
  match r with
  | InfoRef a =>
      match infos s !! a with
      | Some i =>
          let '(e, l) := info_charDataCallback a i cd (infos s) in
          (e, mkDocStore l (contents s))
      | None => (baseNode_charDataCallback cd, s)
      end
  | ContentRef a =>
      let '(e, h) := heap_charDataCallback a cd (contents s) in
      (e, mkDocStore (infos s) h)
  end.

#[export] Instance doc_Node : Node docStore docRef := {
  SetXMLName := doc_SetXMLName;
  GetXMLName := doc_GetXMLName;
  tagCallback := doc_tagCallback;
  attrCallback := doc_attrCallback;
  charDataCallback := doc_charDataCallback
}.

End DescriptionModel.

(** A parser of the content model seen from the store of the
    description: its nodes are nodes of the content heap, above the nodes
    [below] that were open before. *)
Definition among_contents (below : list docRef) (root : option docRef) (p : Parser addr)
  : Parser docRef :=
  mkParser (below ++ map ContentRef (stack p)) (option_map ContentRef (last p)) root.

(** A child of a body: text, or a section in the vocabulary of
    sections. *)
Definition is_section (i : item) : bool :=
  match i with
  | IText _ => true
  | IElem name _ children => (Local name =? "section") && forallb (markup KSection) children
  end.

(** ** More documents used below *)

(** The children of a section: a title, an image before any content, a
    paragraph with inline markup, an image after it, a table with its
    [id], and text the section does not keep. *)
Definition a_section : list item :=
  [IElem (plain "title") [] [IElem (plain "p") [] [IText "One"]];
   IElem (plain "image") [mkAttr (xlink "href") "#top"] [];
   IText " ";
   IElem (plain "p") [mkAttr (plain "id") "p1"]
     [IText "a"; IElem (plain "emphasis") [] [IText "b"]];
   IElem (plain "image") [mkAttr (xlink "href") "#fig"] [];
   IElem (plain "empty-line") [] [];
   IElem (plain "table") []
     [IElem (plain "id") [] [IText "t1"];
      IElem (plain "tr") [] [IElem (plain "td") [] [IText "1"]]]].

(** The children of a body: two sections and the text between them. *)
Definition two_sections : list item :=
  [IElem (plain "section") [] a_section;
   IText " ";
   IElem (plain "section") [mkAttr (plain "id") "s2"] [IElem (plain "p") [] [IText "c"]]].

(** The closed examples on the description take whole numbers for
    [float64] and read them with [strconv.Atoi].  On an optional sign
    and digits of a number below [2 ^ 53] that is the number and the nil
    error of [strconv.ParseFloat]; the fractions, exponents and
    underscores that [ParseFloat] reads are refused, and no example has
    one. *)
#[export] Instance whole_numbers : Float64 Z := {
  float64_zero := 0%Z;
  ParseFloat := Atoi
}.

(** * Properties *)

Lemma Name_eqb_eq a b : Name_eqb a b = true <-> a = b.
Proof.
  destruct a as [s l], b as [s' l']; unfold Name_eqb; simpl.
  rewrite andb_true_iff, !String.eqb_eq. split.
  - intros [-> ->]; reflexivity.
  - intros [= -> ->]; auto.
Qed.

Lemma Name_eqb_refl a : Name_eqb a a = true.
Proof. apply Name_eqb_eq; reflexivity. Qed.

Lemma Name_eqb_neq a b : Name_eqb a b = false <-> a <> b.
Proof.
  rewrite <- Name_eqb_eq. destruct (Name_eqb a b); split; congruence.
Qed.

(** ** The driver, for any implementation of [Node] *)

Section ParserFacts.
Context {store ref : Type} `{!Node store ref}.

Lemma dispatch_app (p : Parser ref) (t1 t2 : list Token) (s : store) :
  dispatch p (t1 ++ t2) s =
  match dispatch p t1 s with
  | Panicked => Panicked
  | Ret (p', s') => dispatch p' t2 s'
  end.
Proof.
  revert p s. induction t1 as [|t t1 IH]; intros p s; simpl; [reflexivity|].
  destruct (ParseToken p t s) as [[[e p'] s']|]; [apply IH | reflexivity].
Qed.

(** A close tag that does not carry the current node's name is refused
    and nothing moves: not the stack, not the current node, not the
    store. *)
Lemma ParseToken_close_mismatch (p : Parser ref) (l : ref) (name : Name) (s : store) :
  last p = Some l -> GetXMLName l s <> name ->
  ParseToken p (TEndElement name) s = Ret (Some (UnexpectedCloseTag name), p, s).
Proof.
  intros Hl Hne. unfold ParseToken. rewrite Hl.
  apply Name_eqb_neq in Hne. rewrite Hne. reflexivity.
Qed.

(** The loop of [Parse] goes over a refused close tag as if it were not
    in the stream. *)
Lemma dispatch_skips_mismatch (p p1 : Parser ref) (l : ref) (name : Name)
      (pre post : list Token) (s s1 : store) :
  dispatch p pre s = Ret (p1, s1) ->
  last p1 = Some l -> GetXMLName l s1 <> name ->
  dispatch p (pre ++ TEndElement name :: post) s = dispatch p (pre ++ post) s.
Proof.
  intros Hpre Hl Hne. rewrite !dispatch_app, Hpre. cbn [dispatch].
  rewrite (ParseToken_close_mismatch p1 l name s1 Hl Hne). reflexivity.
Qed.

(** [Parse] reports the failure of the token source and nothing else:
    with a clean end of input it returns [nil], whatever [ParseToken]
    returned on the way. *)
Lemma Parse_EOF_nil (p p' : Parser ref) (tokens : list Token) (start : StartElement)
      (s s' : store) (err : option error) :
  Parse p (mkDecoder tokens EOF) start s = Ret (err, p', s') -> err = None.
Proof.
  unfold Parse; cbn [pending failure is_EOF].
  destruct (ParseToken p (TStartElement start) s) as [[[e0 p1] s1]|]; [|intros [=]].
  destruct (dispatch p1 tokens s1) as [[p2 s2]|]; [|intros [=]].
  intros Heq; inversion Heq; reflexivity.
Qed.

(** The attribute loop stops at the first attribute the node refuses:
    the attributes after it are not forwarded. *)
Lemma forwardAttrs_stops (r : ref) (before after : list Attr) (bad : Attr)
      (s s1 s2 : store) (err : error) :
  forwardAttrs r before s = (None, s1) ->
  attrCallback r bad s1 = (Some err, s2) ->
  forwardAttrs r (before ++ bad :: after) s = (Some err, s2).
Proof.
  revert s. induction before as [|a before IH]; intros s; simpl.
  - intros [= ->] Hbad. rewrite Hbad. reflexivity.
  - destruct (attrCallback r a s) as [[e|] s']; [discriminate|].
    intros Hb Hbad. apply IH; assumption.
Qed.

(** A refused open tag leaves the parser where it was. *)
Lemma ParseToken_open_refused (p : Parser ref) (l : ref) (e : StartElement)
      (nt : option ref) (err : error) (s s' : store) :
  last p = Some l -> tagCallback l e s = (nt, Some err, s') ->
  ParseToken p (TStartElement e) s = Ret (Some err, p, s').
Proof. intros Hl Ht. unfold ParseToken. rewrite Hl, Ht. reflexivity. Qed.

(** C1, as the code has it.  A close tag whose name differs from the
    current node's recorded name is an error of that one [ParseToken]
    call: it returns "unexpected close tag" at once and pops nothing.
    [Parse] does not stop there: its loop ends only when the token source
    ends or fails, the tokens after the refused close tag are dispatched
    from the parser and the tree as they were before it, to the node that
    was current, and the call leaves the parser and the tree it leaves on
    the stream without the refused close tag. *)
Theorem C1_mismatched_close_refused_not_fatal
    (p p0 p1 : Parser ref) (start : StartElement) (pre post : list Token)
    (name : Name) (fail : error) (s s0 s1 : store) (e0 : option error) (l : ref) :
  ParseToken p (TStartElement start) s = Ret (e0, p0, s0) ->
  dispatch p0 pre s0 = Ret (p1, s1) ->
  last p1 = Some l ->
  GetXMLName l s1 <> name ->
  ParseToken p1 (TEndElement name) s1 = Ret (Some (UnexpectedCloseTag name), p1, s1)
  /\ left_by (Parse p (mkDecoder (pre ++ TEndElement name :: post) fail) start s)
     = dispatch p1 post s1
  /\ left_by (Parse p (mkDecoder (pre ++ TEndElement name :: post) fail) start s)
     = left_by (Parse p (mkDecoder (pre ++ post) fail) start s).
Proof.
  intros Hstart Hpre Hl Hne. split; [|split].
  - apply (ParseToken_close_mismatch p1 l name s1 Hl Hne).
  - unfold Parse; cbn [pending failure]. rewrite Hstart.
    rewrite dispatch_app, Hpre. cbn [dispatch].
    rewrite (ParseToken_close_mismatch p1 l name s1 Hl Hne).
    destruct (dispatch p1 post s1) as [[p2 s2]|]; [|reflexivity].
    destruct (is_EOF fail); reflexivity.
  - unfold Parse; cbn [pending failure]. rewrite Hstart.
    rewrite (dispatch_skips_mismatch p0 p1 l name pre post s0 s1 Hpre Hl Hne).
    reflexivity.
Qed.

(** C10.  [ParseToken] on a close tag while no element is open
    ([p.last] is nil) calls [GetXMLName] on the nil node and panics; it
    returns no error value.  That is the state of a new parser, and the
    state the close tag of the root leaves. *)
Theorem C10_close_tag_with_no_open_element_panics :
  (forall (p : Parser ref) (name : Name) (s : store),
      last p = None -> ParseToken p (TEndElement name) s = Panicked)
  /\ (forall (n : option ref) (name : Name) (s : store),
        ParseToken (NewParser n) (TEndElement name) s = Panicked)
  /\ (forall (p : Parser ref) (l : ref) (name name' : Name) (s : store),
        last p = Some l -> stack p = [] -> GetXMLName l s = name ->
        exists p', ParseToken p (TEndElement name) s = Ret (None, p', s)
                   /\ ParseToken p' (TEndElement name') s = Panicked).
Proof.
  split; [|split].
  - intros p name s Hl. unfold ParseToken. rewrite Hl. reflexivity.
  - intros n name s. reflexivity.
  - intros p l name name' s Hl Hst Hname.
    exists {| stack := stack p; last := None; first := first p |}.
    unfold ParseToken at 1. rewrite Hl, Hname, Name_eqb_refl, Hst. simpl.
    split; reflexivity.
Qed.

End ParserFacts.

(** ** The driver on the content model *)

Lemma C1_mismatched_close_refused_not_fatal_witness :
  exists p1 h1,
    dispatch (mkParser [] (Some 0) (Some 0)) [open_tag "div" []]
             [node_SetXMLName (plain "p") (NP P0)]
    = Ret (p1, h1)
    /\ left_by (Parse (NewParser (Some 0)) (xml_Decoder [plain "p"] close_of_refused_element)
                      (mkStart (plain "p") []) [NP P0])
       = dispatch p1 [TCharData "late"; close_tag "p"] h1.
Proof.
  eexists _, _. split; [vm_compute; reflexivity|].
  change (xml_Decoder [plain "p"] close_of_refused_element)
    with (mkDecoder ([open_tag "div" []]
                       ++ TEndElement (plain "div") :: [TCharData "late"; close_tag "p"]) EOF).
  eapply proj1, proj2.
  eapply (C1_mismatched_close_refused_not_fatal (store := list node) (ref := nat)
            (NewParser (Some 0)) _ _ (mkStart (plain "p") []) [open_tag "div" []] _
            (plain "div") EOF [NP P0] _ _ _ 0).
  - reflexivity.
  - vm_compute. reflexivity.
  - reflexivity.
  - vm_compute. intros H; discriminate H.
Defined.

(** C1 as stated fails on [<p><div></div>late</p>], an input that the
    decoder lets through whole.  [p] refuses [div], so [p] is still
    current, with nothing in it, when [</div>] arrives; that close tag is
    refused, and yet [Parse] goes on: the text after it lands in the
    content of [p], the close tag [</p>] pops the root, and the call
    returns nil.  A loop that stopped at [</div>] would have left the
    content empty and [p] open. *)
Lemma C1_counterexample :
  xml_Decoder [plain "p"] close_of_refused_element = mkDecoder close_of_refused_element EOF
  /\ (exists p0 h0 p1 h1,
        ParseToken (NewParser (Some 0)) (TStartElement (mkStart (plain "p") [])) [NP P0]
        = Ret (None, p0, h0)
        /\ dispatch p0 [open_tag "div" []] h0 = Ret (p1, h1)
        /\ last p1 = Some 0
        /\ GetContent h1 (CNode 0) = []
        /\ ParseToken p1 (close_tag "div") h1
           = Ret (Some (UnexpectedCloseTag (plain "div")), p1, h1))
  /\ (exists p h,
        UnmarshalXML (NP P0) (xml_Decoder [plain "p"] close_of_refused_element)
                     (mkStart (plain "p") [])
        = Ret (None, p, h)
        /\ GetContent h (CNode 0) = [CCharData "late"]
        /\ last p = None).
Proof.
  split; [reflexivity|]. split.
  - eexists _, _, _, _. split; [vm_compute; reflexivity|].
    split; [vm_compute; reflexivity|]. repeat split.
  - eexists _, _. split; [vm_compute; reflexivity|]. split; reflexivity.
Qed.

(** The input of the specification's example, [<p></div>late</p>], never
    brings [</div>] to [ParseToken]: the decoder fails at it, and [Parse]
    returns that failure, with nothing in [p] and [p] still open. *)
Lemma Parse_ill_nested_close_fails_in_the_decoder :
  xml_Decoder [plain "p"] ill_nested_close
  = mkDecoder [] (DecoderError "element <p> closed by </div>")
  /\ exists p h,
       UnmarshalXML (NP P0) (xml_Decoder [plain "p"] ill_nested_close)
                    (mkStart (plain "p") [])
       = Ret (Some (ErrParsing "p" [DecoderError "element <p> closed by </div>"]), p, h)
       /\ GetContent h (CNode 0) = []
       /\ last p = Some 0.
Proof.
  split; [reflexivity|].
  eexists _, _. split; [vm_compute; reflexivity|]. split; reflexivity.
Qed.

Lemma C10_close_tag_with_no_open_element_panics_witness :
  last (NewParser (Some 0)) = None
  /\ ParseToken (NewParser (Some 0)) (close_tag "p") [NP P0] = Panicked.
Proof.
  split; [reflexivity|].
  apply (proj1 (C10_close_tag_with_no_open_element_panics (store := heap) (ref := addr))).
  reflexivity.
Defined.

(** [tagCallback] either creates a child or refuses the tag with
    [baseNode]'s error, and then changes nothing. *)
Lemma node_tagCallback_refused (self : addr) (n n' : node) (start : StartElement)
      (h h' : heap) (r : option addr) (err : error) :
  node_tagCallback self n start h = (r, Some err, n', h') ->
  r = None /\ err = UnexpectedTag (StartName start) /\ n' = n /\ h' = h.
Proof.
  destruct n; cbn [node_tagCallback];
    unfold Title_tagCallback, Cite_tagCallback, Poem_tagCallback, Stanza_tagCallback,
      Epigraph_tagCallback, Annotation_tagCallback, Section_tagCallback,
      StyleType_tagCallback, StyleLinkType_tagCallback, Table_tagCallback, TR_tagCallback,
      new, baseNode_tagCallback;
    cbv zeta;
    repeat match goal with
           | |- context [if ?b then _ else _] => destruct b
           end;
    intros H; inversion H; subst; try (destruct x; cbn); auto.
Qed.

Lemma heap_tagCallback_refused (a : addr) (start : StartElement) (h : heap) (err : error) :
  snd (fst (heap_tagCallback a start h)) = Some err ->
  heap_tagCallback a start h = (None, Some (UnexpectedTag (StartName start)), h).
Proof.
  unfold heap_tagCallback. destruct (h !! a) as [n|] eqn:Ha; [|reflexivity].
  destruct (node_tagCallback a n start h) as [[[r e] n'] h'] eqn:Hn. cbn [fst snd].
  intros ->. destruct (node_tagCallback_refused _ _ _ _ _ _ _ _ Hn) as (-> & -> & -> & ->).
  rewrite list_insert_id by exact Ha. reflexivity.
Qed.

(** C2, as the code has it.  An open tag that the current node does not
    know is refused: [ParseToken] returns the error of [tagCallback],
    creates no node and leaves parser and tree as they were.  The loop of
    [Parse] goes on, so what is inside the unknown element is dispatched
    to the same parent (the text it keeps and the elements it knows go to
    its content); the close tag of the unknown element is refused in turn
    when the node then current has another name; and the tokens after it,
    the later siblings, are dispatched as they are on the stream without
    the two tags of the unknown element. *)
Theorem C2_unknown_element_is_transparent
    (p p1 p2 : Parser addr) (h h1 h2 : heap) (pre inside post : list Token)
    (e : StartElement) (a l : addr) (err : error) :
  dispatch p pre h = Ret (p1, h1) ->
  last p1 = Some a ->
  snd (fst (tagCallback a e h1)) = Some err ->
  dispatch p1 inside h1 = Ret (p2, h2) ->
  last p2 = Some l ->
  GetXMLName l h2 <> StartName e ->
  ParseToken p1 (TStartElement e) h1 = Ret (Some (UnexpectedTag (StartName e)), p1, h1)
  /\ ParseToken p2 (TEndElement (StartName e)) h2
     = Ret (Some (UnexpectedCloseTag (StartName e)), p2, h2)
  /\ dispatch p (pre ++ TStartElement e :: inside ++ TEndElement (StartName e) :: post) h
     = dispatch p (pre ++ inside ++ post) h.
Proof.
  intros Hpre Ha Hunknown Hinside Hl Hname.
  pose proof (heap_tagCallback_refused a e h1 err Hunknown) as Htag.
  pose proof (ParseToken_open_refused p1 a e None _ h1 h1 Ha Htag) as Hopen.
  pose proof (ParseToken_close_mismatch p2 l (StartName e) h2 Hl Hname) as Hclose.
  split; [exact Hopen|]. split; [exact Hclose|].
  rewrite !dispatch_app, Hpre. cbn [dispatch]. rewrite Hopen.
  rewrite !dispatch_app, Hinside. cbn [dispatch]. rewrite Hclose. reflexivity.
Qed.

Lemma C2_unknown_element_is_transparent_witness :
  dispatch (mkParser [] (Some 0) (Some 0))
           ([open_tag "p" []; TCharData "a"; close_tag "p"]
              ++ TStartElement (mkStart (plain "foo") [])
              :: [TCharData "x"] ++ TEndElement (plain "foo")
              :: [open_tag "p" []; TCharData "b"; close_tag "p"])
           [node_SetXMLName (plain "section") (NSection Section0)]
  = dispatch (mkParser [] (Some 0) (Some 0))
             ([open_tag "p" []; TCharData "a"; close_tag "p"]
                ++ [TCharData "x"] ++ [open_tag "p" []; TCharData "b"; close_tag "p"])
             [node_SetXMLName (plain "section") (NSection Section0)].
Proof.
  eapply proj2, proj2.
  eapply (C2_unknown_element_is_transparent
            (mkParser [] (Some 0) (Some 0)) _ _ _ _ _
            [open_tag "p" []; TCharData "a"; close_tag "p"] [TCharData "x"]
            [open_tag "p" []; TCharData "b"; close_tag "p"]
            (mkStart (plain "foo") []) 0 0 (UnexpectedTag (plain "foo"))).
  - vm_compute. reflexivity.
  - reflexivity.
  - vm_compute. reflexivity.
  - vm_compute. reflexivity.
  - reflexivity.
  - vm_compute. intros H; discriminate H.
Defined.

(** C2 as stated fails on [<section><foo><p>x</p></foo></section>]: [foo]
    is refused, and the [p] inside it is dispatched to the section and
    placed in its content.  It fails on
    [<section><p>a<p>x</p>b</p></section>] too: the inner [p] is unknown
    to [p], its text goes to the outer [p], its close tag closes the
    outer [p], and the later sibling [b] is in no content list. *)
Lemma C2_counterexample :
  (exists p0 h0,
      ParseToken (NewParser (Some 0)) (TStartElement (mkStart (plain "section") []))
                 [NSection Section0]
      = Ret (None, p0, h0)
      /\ ParseToken p0 (open_tag "foo" []) h0
         = Ret (Some (UnexpectedTag (plain "foo")), p0, h0))
  /\ (exists p h,
        UnmarshalXML (NSection Section0) (mkDecoder unknown_child_with_known_inside EOF)
                     (mkStart (plain "section") [])
        = Ret (None, p, h)
        /\ GetContent h (CNode 0) = [CNode 1]
        /\ Contenter_GetXMLName h (CNode 1) = plain "p"
        /\ GetContent h (CNode 1) = [CCharData "x"])
  /\ (exists p h,
        UnmarshalXML (NSection Section0) (mkDecoder unknown_child_named_as_parent EOF)
                     (mkStart (plain "section") [])
        = Ret (None, p, h)
        /\ GetContent h (CNode 0) = [CNode 1]
        /\ GetContent h (CNode 1) = [CCharData "a"; CCharData "x"]
        /\ length h = 2).
Proof.
  split; [|split].
  - eexists _, _. split; vm_compute; reflexivity.
  - eexists _, _. split; [vm_compute; reflexivity|]. repeat split.
  - eexists _, _. split; [vm_compute; reflexivity|]. repeat split.
Qed.

(** C3 fails on [<p bogus="1" id="x">]: [P.attrCallback] refuses [bogus],
    [ParseToken] returns at once, [id] is never forwarded ([ID] stays
    empty, where the callback alone would have set it), and [Parse]
    returns nil. *)
Theorem C3_attributes_after_a_refused_one_are_lost :
  (exists p0 h0 p1 h1 x,
      ParseToken (NewParser (Some 0)) (TStartElement (mkStart (plain "section") []))
                 [NSection Section0]
      = Ret (None, p0, h0)
      /\ ParseToken p0 (open_tag "p" [mkAttr (plain "bogus") "1"; mkAttr (plain "id") "x"]) h0
         = Ret (Some (UnknownAttr "bogus"), p1, h1)
      /\ last p1 = Some 1 /\ h1 !! 1 = Some (NP x) /\ P_ID x = "")
  /\ P_attrCallback P0 (mkAttr (plain "id") "x") = (None, mkP StyleType0 "x" "")
  /\ (exists p h x,
        UnmarshalXML (NSection Section0) (mkDecoder refused_attribute EOF)
                     (mkStart (plain "section") [])
        = Ret (None, p, h)
        /\ h !! 1 = Some (NP x) /\ P_ID x = "").
Proof.
  split; [|split].
  - eexists _, _, _, _, _. split; [vm_compute; reflexivity|].
    split; [vm_compute; reflexivity|]. repeat split.
  - reflexivity.
  - eexists _, _, _. split; [vm_compute; reflexivity|]. split; reflexivity.
Qed.

(** ** FictionBook.tagCallback *)

(** C5, as the code has it.  On a [body] open tag, [FictionBook.tagCallback]
    looks at the first attribute only.  With no attribute the new [Body]
    is bound to the [Body] slot, whatever the slot held (a second such
    body is accepted and replaces the first).  With [name="notes"] as the
    first attribute the new [NotesBody] is bound to the [NotesBody] slot.
    With any other first attribute the tag is refused with an "Unknown
    body" error, nothing is created and no slot changes. *)
Theorem C5_body_dispatch (f : FictionBook) (start : StartElement) (h : docHeap) :
  Local (StartName start) = "body" ->
  (StartAttr start = [] ->
   exists f',
     FictionBook_tagCallback f start h = (Some (length h), None, f', h ++ [DBody Body0])
     /\ FictionBook_Body f' = Some (length h)
     /\ FictionBook_NotesBody f' = FictionBook_NotesBody f)
  /\ (forall attr0 rest,
        StartAttr start = attr0 :: rest ->
        Local (AttrName attr0) = "name" -> Value attr0 = "notes" ->
        exists f',
          FictionBook_tagCallback f start h
          = (Some (length h), None, f', h ++ [DNotesBody NotesBody0])
          /\ FictionBook_NotesBody f' = Some (length h)
          /\ FictionBook_Body f' = FictionBook_Body f)
  /\ (forall attr0 rest,
        StartAttr start = attr0 :: rest ->
        ~ (Local (AttrName attr0) = "name" /\ Value attr0 = "notes") ->
        FictionBook_tagCallback f start h = (None, Some (UnknownBody attr0), f, h)).
Proof.
  intros Hname. unfold FictionBook_tagCallback, docNew. rewrite Hname. simpl.
  split; [|split].
  - intros ->. eexists. split; [reflexivity|]. split; reflexivity.
  - intros attr0 rest -> Hn Hv. rewrite Hn, Hv. simpl.
    eexists. split; [reflexivity|]. split; reflexivity.
  - intros attr0 rest -> Hnot.
    destruct (Local (AttrName attr0) =? "name") eqn:En;
      destruct (Value attr0 =? "notes") eqn:Ev; simpl; try reflexivity.
    apply String.eqb_eq in En, Ev. exfalso; apply Hnot; split; assumption.
Qed.

Lemma C5_body_dispatch_witness :
  (exists f',
      FictionBook_tagCallback FictionBook0 (mkStart (plain "body") []) []
      = (Some 0, None, f', [DBody Body0])
      /\ FictionBook_Body f' = Some 0
      /\ FictionBook_NotesBody f' = None)
  /\ (exists f',
        FictionBook_tagCallback FictionBook0
          (mkStart (plain "body") [mkAttr (plain "name") "notes"]) []
        = (Some 0, None, f', [DNotesBody NotesBody0])
        /\ FictionBook_NotesBody f' = Some 0
        /\ FictionBook_Body f' = None)
  /\ FictionBook_tagCallback FictionBook0
       (mkStart (plain "body") [mkAttr (plain "lang") "ru"]) []
     = (None, Some (UnknownBody (mkAttr (plain "lang") "ru")), FictionBook0, []).
Proof.
  split; [|split].
  - apply (proj1 (C5_body_dispatch FictionBook0 (mkStart (plain "body") []) [] eq_refl)).
    reflexivity.
  - apply (proj1 (proj2 (C5_body_dispatch FictionBook0
             (mkStart (plain "body") [mkAttr (plain "name") "notes"]) [] eq_refl))
             (mkAttr (plain "name") "notes") []); reflexivity.
  - apply (proj2 (proj2 (C5_body_dispatch FictionBook0
             (mkStart (plain "body") [mkAttr (plain "lang") "ru"]) [] eq_refl))
             (mkAttr (plain "lang") "ru") []); [reflexivity|].
    intros [H _]. discriminate H.
Defined.

(** C5 as stated fails on [<body/><body/>]: the second unmarked body is
    no error, its node is returned and takes the [Body] slot from the
    first.  And a body that carries [name="notes"] after another
    attribute is refused, not bound to the [NotesBody] slot. *)
Lemma C5_counterexample :
  (exists f1 h1 f2 h2,
      FictionBook_tagCallback FictionBook0 (mkStart (plain "body") []) []
      = (Some 0, None, f1, h1)
      /\ FictionBook_Body f1 = Some 0
      /\ FictionBook_tagCallback f1 (mkStart (plain "body") []) h1
         = (Some 1, None, f2, h2)
      /\ FictionBook_Body f2 = Some 1)
  /\ FictionBook_tagCallback FictionBook0
       (mkStart (plain "body") [mkAttr (plain "lang") "ru"; mkAttr (plain "name") "notes"]) []
     = (None, Some (UnknownBody (mkAttr (plain "lang") "ru")), FictionBook0, []).
Proof.
  split.
  - eexists _, _, _, _. repeat split.
  - reflexivity.
Qed.

(** ** Binary.charDataCallback *)

Lemma length_append (s t : string) :
  String.length (s ++ t)%string = String.length s + String.length t.
Proof. induction s as [|c s IH]; cbn; [reflexivity | rewrite IH; reflexivity]. Qed.

Lemma length_substring (s : string) :
  forall n m, n + m <= String.length s -> String.length (substring n m s) = m.
Proof.
  induction s as [|c s IH]; intros n m Hle; cbn in *.
  - destruct n, m; cbn; lia.
  - destruct n as [|n].
    + destruct m as [|m]; [reflexivity|]. cbn. rewrite IH by lia. reflexivity.
    + apply IH. lia.
Qed.

Lemma length_make_bytes (n : nat) : String.length (make_bytes n) = n.
Proof. induction n as [|n IH]; cbn; [reflexivity | rewrite IH; reflexivity]. Qed.

Lemma skipNewlines_length (src : string) :
  forall si, String.length (fst (skipNewlines src si)) <= String.length src.
Proof.
  induction src as [|c rest IH]; intros si; cbn; [lia|].
  destruct (isNewline c); cbn; [specialize (IH (S si)); lia | lia].
Qed.

Lemma quantumBytes_length (dbuf : list N) (dlen : nat) :
  String.length (quantumBytes dbuf dlen) <= dlen.
Proof.
  unfold quantumBytes. destruct dlen as [|[|[|[|[|d]]]]]; cbn; lia.
Qed.

Lemma finishPadded_length (rest : string) (si j : nat) (dbuf : list N) :
  String.length (snd (fst (finishPadded rest si j dbuf)))
  + String.length (fst (fst (fst (finishPadded rest si j dbuf))))
  <= String.length rest + j.
Proof.
  unfold finishPadded.
  pose proof (skipNewlines_length rest si) as Hs.
  destruct (skipNewlines rest si) as [rest' si']. cbn [fst] in Hs.
  pose proof (quantumBytes_length dbuf j) as Hq.
  destruct rest'; cbn [fst snd String.length] in *; lia.
Qed.

(** A quantum writes no more bytes than the characters it takes. *)
Lemma decodeQuantum_length (src : string) :
  forall si j dbuf,
    String.length (snd (fst (decodeQuantum src si j dbuf)))
    + String.length (fst (fst (fst (decodeQuantum src si j dbuf))))
    <= String.length src + j.
Proof.
  induction src as [|c rest IH]; intros si j dbuf; cbn [decodeQuantum].
  - destruct j; cbn; lia.
  - destruct (decodeMap c) as [out|].
    + destruct (Nat.eqb j 3) eqn:Hj.
      * apply Nat.eqb_eq in Hj. subst j. cbn. lia.
      * specialize (IH (S si) (S j) (dbuf ++ [out])). cbn [String.length]. lia.
    + destruct (isNewline c).
      * specialize (IH (S si) j dbuf). cbn [String.length]. lia.
      * destruct (negb (Ascii.eqb c padChar)); [cbn; lia|].
        destruct j as [|[|[|j]]]; try (cbn; lia).
        -- pose proof (skipNewlines_length rest (S si)) as Hs.
           destruct (skipNewlines rest (S si)) as [rest' si']. cbn [fst] in Hs.
           destruct rest' as [|c' rest'']; [cbn in *; lia|].
           destruct (negb (Ascii.eqb c' padChar)); [cbn in *; lia|].
           pose proof (finishPadded_length rest'' (S si') 2 dbuf).
           cbn [String.length] in *. lia.
        -- pose proof (finishPadded_length rest (S si) (S (S (S j))) dbuf).
           cbn [String.length]. lia.
Qed.

Lemma decodeLoop_length (fuel : nat) :
  forall src si, String.length (fst (decodeLoop fuel src si)) <= String.length src.
Proof.
  induction fuel as [|fuel IH]; intros src si; cbn [decodeLoop]; [cbn; lia|].
  destruct src as [|c rest]; [cbn; lia|].
  pose proof (decodeQuantum_length (String c rest) si 0 []) as Hq.
  destruct (decodeQuantum (String c rest) si 0 []) as [[[rest' si'] written] err].
  cbn [fst snd] in Hq.
  destruct err as [e|]; [cbn [fst]; lia|].
  specialize (IH rest' si').
  destruct (decodeLoop fuel rest' si') as [more e]. cbn [fst] in *.
  rewrite length_append. lia.
Qed.

(** Whenever the decoder refuses the content, [Value] is left holding a
    buffer as long as the content. *)
Lemma Binary_error_keeps_buffer (b b' : Binary) (cd : CharData) (e : error) :
  Binary_charDataCallback b cd = (Some e, b') ->
  String.length (Binary_Value b') = String.length cd /\ cd <> "".
Proof.
  unfold Binary_charDataCallback, base64_Decode.
  pose proof (decodeLoop_length (String.length cd) cd 0) as Hlen.
  destruct (decodeLoop (String.length cd) cd 0) as [written err] eqn:Hloop.
  cbn [fst] in Hlen.
  destruct err as [e'|]; [|discriminate].
  intros [= <- <-]. cbn [Binary_Value]. split.
  - rewrite length_append, length_substring, length_make_bytes by
      (rewrite length_make_bytes; lia). lia.
  - intros ->. cbn in Hloop. discriminate Hloop.
Qed.

Lemma decodeMap_encodeChar (v : N) : (v < 64)%N -> decodeMap (encodeChar v) = Some v.
Proof.
  intros Hv.
  assert (Hall : forallb (fun n => match decodeMap (encodeChar (N.of_nat n)) with
                                   | Some w => N.eqb w (N.of_nat n)
                                   | None => false
                                   end) (seq 0 64) = true) by (vm_compute; reflexivity).
  rewrite forallb_forall in Hall.
  specialize (Hall (N.to_nat v)). rewrite N2Nat.id in Hall.
  assert (Hin : In (N.to_nat v) (seq 0 64)) by (apply in_seq; lia).
  specialize (Hall Hin).
  destruct (decodeMap (encodeChar v)) as [w|]; [|discriminate Hall].
  apply N.eqb_eq in Hall. rewrite Hall. reflexivity.
Qed.

(** The arithmetic of a quantum. *)
Lemma quantum_3 (x y z : N) :
  (x < 256 -> y < 256 -> z < 256 ->
   let val := N.shiftl (x / 4) 18 + N.shiftl (x mod 4 * 16 + y / 16) 12
              + N.shiftl (y mod 16 * 4 + z / 64) 6 + z mod 64 in
   N.shiftr val 16 mod 256 = x /\ N.shiftr val 8 mod 256 = y /\ val mod 256 = z)%N.
Proof.
  intros Hx Hy Hz val. subst val.
  rewrite !N.shiftl_mul_pow2, !N.shiftr_div_pow2.
  change (2 ^ 18)%N with 262144%N. change (2 ^ 12)%N with 4096%N.
  change (2 ^ 6)%N with 64%N. change (2 ^ 16)%N with 65536%N. change (2 ^ 8)%N with 256%N.
  repeat split; zify; Z.to_euclidean_division_equations; lia.
Qed.

Lemma quantum_2 (x y : N) :
  (x < 256 -> y < 256 ->
   let val := N.shiftl (x / 4) 18 + N.shiftl (x mod 4 * 16 + y / 16) 12
              + N.shiftl (y mod 16 * 4) 6 + 0 in
   N.shiftr val 16 mod 256 = x /\ N.shiftr val 8 mod 256 = y)%N.
Proof.
  intros Hx Hy val. subst val.
  rewrite !N.shiftl_mul_pow2, !N.shiftr_div_pow2.
  change (2 ^ 18)%N with 262144%N. change (2 ^ 12)%N with 4096%N.
  change (2 ^ 6)%N with 64%N. change (2 ^ 16)%N with 65536%N. change (2 ^ 8)%N with 256%N.
  repeat split; zify; Z.to_euclidean_division_equations; lia.
Qed.

Lemma quantum_1 (x : N) :
  (x < 256 ->
   let val := N.shiftl (x / 4) 18 + N.shiftl (x mod 4 * 16) 12 + N.shiftl 0 6 + 0 in
   N.shiftr val 16 mod 256 = x)%N.
Proof.
  intros Hx val. subst val.
  rewrite !N.shiftl_mul_pow2, !N.shiftr_div_pow2.
  change (2 ^ 18)%N with 262144%N. change (2 ^ 12)%N with 4096%N.
  change (2 ^ 6)%N with 64%N. change (2 ^ 16)%N with 65536%N.
  zify; Z.to_euclidean_division_equations; lia.
Qed.

Lemma sextet_bounds (x y z : N) :
  (x < 256 -> y < 256 -> z < 256 ->
   x / 4 < 64 /\ x mod 4 * 16 + y / 16 < 64 /\ y mod 16 * 4 + z / 64 < 64 /\ z mod 64 < 64
   /\ x mod 4 * 16 < 64 /\ y mod 16 * 4 < 64)%N.
Proof.
  intros Hx Hy Hz. repeat split; zify; Z.to_euclidean_division_equations; lia.
Qed.

Lemma decodeQuantum_char (c : ascii) (rest : string) (si j : nat) (dbuf : list N) (out : N) :
  decodeMap c = Some out -> j < 3 ->
  decodeQuantum (String c rest) si j dbuf = decodeQuantum rest (S si) (S j) (dbuf ++ [out]).
Proof.
  intros Hc Hj. cbn [decodeQuantum]. rewrite Hc.
  destruct (Nat.eqb j 3) eqn:E; [apply Nat.eqb_eq in E; lia | reflexivity].
Qed.

Lemma decodeQuantum_last (c : ascii) (rest : string) (si : nat) (dbuf : list N) (out : N) :
  decodeMap c = Some out ->
  decodeQuantum (String c rest) si 3 dbuf
  = ((rest, S si), quantumBytes (dbuf ++ [out]) 4, None).
Proof. intros Hc. cbn [decodeQuantum]. rewrite Hc. reflexivity. Qed.

Lemma decodeQuantum_pad2 (si : nat) (dbuf : list N) :
  decodeQuantum (String padChar (String padChar EmptyString)) si 2 dbuf
  = ((EmptyString, S (S si)), quantumBytes dbuf 2, None).
Proof. reflexivity. Qed.

Lemma decodeQuantum_pad1 (si : nat) (dbuf : list N) :
  decodeQuantum (String padChar EmptyString) si 3 dbuf
  = ((EmptyString, S si), quantumBytes dbuf 3, None).
Proof. reflexivity. Qed.

(** Induction on a byte string three bytes at a time. *)
Lemma string_ind3 (Q : string -> Prop) :
  Q EmptyString ->
  (forall a, Q (String a EmptyString)) ->
  (forall a b, Q (String a (String b EmptyString))) ->
  (forall a b c rest, Q rest -> Q (String a (String b (String c rest)))) ->
  forall s, Q s.
Proof.
  intros H0 H1 H2 H3. fix IH 1. intros [|a [|b [|c rest]]].
  - exact H0.
  - apply H1.
  - apply H2.
  - apply H3, IH.
Qed.

Lemma decodeLoop_empty (fuel si : nat) : decodeLoop fuel EmptyString si = (EmptyString, None).
Proof. destruct fuel; reflexivity. Qed.

(** Decoding undoes encoding. *)
Lemma decodeLoop_EncodeToString (bs : string) :
  forall fuel si, String.length bs <= 3 * fuel ->
    decodeLoop fuel (EncodeToString bs) si = (bs, None).
Proof.
  induction bs as [|a|a b|a b c rest IH] using string_ind3; intros fuel si Hfuel.
  - apply decodeLoop_empty.
  - destruct fuel as [|fuel]; [cbn in Hfuel; lia|].
    pose proof (N_ascii_bounded a) as Ha.
    destruct (sextet_bounds (N_of_ascii a) 0 0 Ha eq_refl eq_refl)
      as (B0 & _ & _ & _ & B1 & _).
    cbn [EncodeToString decodeLoop].
    rewrite (decodeQuantum_char _ _ _ 0 _ _ (decodeMap_encodeChar _ B0)) by lia.
    rewrite (decodeQuantum_char _ _ _ 1 _ _ (decodeMap_encodeChar _ B1)) by lia.
    rewrite decodeQuantum_pad2. cbv beta iota. rewrite decodeLoop_empty.
    pose proof (quantum_1 (N_of_ascii a) Ha) as Hq. cbv zeta in Hq.
    unfold quantumBytes. cbn [app nth]. rewrite Hq, ascii_N_embedding. reflexivity.
  - destruct fuel as [|fuel]; [cbn in Hfuel; lia|].
    pose proof (N_ascii_bounded a) as Ha. pose proof (N_ascii_bounded b) as Hb.
    destruct (sextet_bounds (N_of_ascii a) (N_of_ascii b) 0 Ha Hb eq_refl)
      as (B0 & B1 & _ & _ & _ & B2).
    cbn [EncodeToString decodeLoop].
    rewrite (decodeQuantum_char _ _ _ 0 _ _ (decodeMap_encodeChar _ B0)) by lia.
    rewrite (decodeQuantum_char _ _ _ 1 _ _ (decodeMap_encodeChar _ B1)) by lia.
    rewrite (decodeQuantum_char _ _ _ 2 _ _ (decodeMap_encodeChar _ B2)) by lia.
    rewrite decodeQuantum_pad1. cbv beta iota. rewrite decodeLoop_empty.
    pose proof (quantum_2 (N_of_ascii a) (N_of_ascii b) Ha Hb) as Hq. cbv zeta in Hq.
    destruct Hq as [Hq1 Hq2].
    unfold quantumBytes. cbn [app nth]. rewrite Hq1, Hq2, !ascii_N_embedding. reflexivity.
  - destruct fuel as [|fuel]; [cbn in Hfuel; lia|].
    pose proof (N_ascii_bounded a) as Ha. pose proof (N_ascii_bounded b) as Hb.
    pose proof (N_ascii_bounded c) as Hc.
    destruct (sextet_bounds (N_of_ascii a) (N_of_ascii b) (N_of_ascii c) Ha Hb Hc)
      as (B0 & B1 & B2 & B3 & _ & _).
    cbn [EncodeToString decodeLoop].
    rewrite (decodeQuantum_char _ _ _ 0 _ _ (decodeMap_encodeChar _ B0)) by lia.
    rewrite (decodeQuantum_char _ _ _ 1 _ _ (decodeMap_encodeChar _ B1)) by lia.
    rewrite (decodeQuantum_char _ _ _ 2 _ _ (decodeMap_encodeChar _ B2)) by lia.
    rewrite (decodeQuantum_last _ _ _ _ _ (decodeMap_encodeChar _ B3)).
    cbv beta iota. rewrite IH by (cbn [String.length] in Hfuel; lia).
    pose proof (quantum_3 (N_of_ascii a) (N_of_ascii b) (N_of_ascii c) Ha Hb Hc) as Hq.
    cbv zeta in Hq. destruct Hq as (Hq1 & Hq2 & Hq3).
    unfold quantumBytes. cbn [app nth]. rewrite Hq1, Hq2, Hq3, !ascii_N_embedding.
    reflexivity.
Qed.

Lemma EncodeToString_length (bs : string) :
  String.length bs <= 3 * String.length (EncodeToString bs).
Proof.
  induction bs as [|a|a b|a b c rest IH] using string_ind3; cbn [EncodeToString String.length] in *; lia.
Qed.

Lemma substring_prefix (s t : string) : substring 0 (String.length s) (s ++ t)%string = s.
Proof. induction s as [|c s IH]; cbn; [destruct t; reflexivity | rewrite IH; reflexivity]. Qed.

(** Valid content: the value is the bytes that were encoded. *)
Lemma Binary_valid_content (b : Binary) (bs : string) :
  Binary_charDataCallback b (EncodeToString bs)
  = (None, mkBinary (Binary_baseNode b) (Binary_ID b) (Binary_ContentType b) bs).
Proof.
  unfold Binary_charDataCallback, base64_Decode.
  rewrite (decodeLoop_EncodeToString bs _ 0 (EncodeToString_length bs)).
  rewrite substring_prefix. reflexivity.
Qed.

(** C6 fails on the content [QUJD!]: the decoder writes [ABC], meets [!]
    and returns an error; the callback returns it and leaves in [Value]
    the whole buffer of [len(cd)] bytes, the three decoded bytes and two
    zero bytes.  On valid content, the encoding of any bytes, the value is
    those bytes, as on [QUJD]. *)
Theorem C6_malformed_base64_leaves_the_buffer :
  Binary_charDataCallback Binary0 "QUJD!"
  = (Some (CorruptInputError 4),
     mkBinary baseNode0 "" "" ("ABC" ++ make_bytes 2)%string)
  /\ String.length (Binary_Value (snd (Binary_charDataCallback Binary0 "QUJD!"))) = 5
  /\ Binary_charDataCallback Binary0 "QUJD" = (None, mkBinary baseNode0 "" "" "ABC")
  /\ (forall (b : Binary) (bs : string),
        Binary_charDataCallback b (EncodeToString bs)
        = (None, mkBinary (Binary_baseNode b) (Binary_ID b) (Binary_ContentType b) bs)).
Proof.
  split; [reflexivity|]. split; [reflexivity|]. split; [reflexivity|].
  apply Binary_valid_content.
Qed.

(** ** Date.attrCallback *)

Lemma digit_Some (c : ascii) (n : nat) : digit c = Some n <-> n <= 9 /\ c = digitChar n.
Proof.
  unfold digit, isDigit, digitChar, nat_of_ascii. split.
  - destruct (N.leb 48 (N_of_ascii c) && N.leb (N_of_ascii c) 57)%bool eqn:E; [|discriminate].
    apply andb_true_iff in E as [E1 E2]. apply N.leb_le in E1, E2.
    intros [= <-]. split; [lia|].
    replace (48 + (N.to_nat (N_of_ascii c) - 48)) with (N.to_nat (N_of_ascii c)) by lia.
    symmetry. apply ascii_nat_embedding.
  - intros [Hn ->].
    change (N_of_ascii (ascii_of_nat (48 + n))) with (N_of_ascii (ascii_of_nat (48 + n))).
    assert (Hnat : nat_of_ascii (ascii_of_nat (48 + n)) = 48 + n)
      by (apply nat_ascii_embedding; lia).
    unfold nat_of_ascii in Hnat.
    assert (HN : N_of_ascii (ascii_of_nat (48 + n)) = N.of_nat (48 + n)) by lia.
    rewrite HN.
    destruct (N.leb 48 (N.of_nat (48 + n)) && N.leb (N.of_nat (48 + n)) 57)%bool eqn:E.
    + f_equal. lia.
    + apply andb_false_iff in E as [E|E]; apply N.leb_gt in E; lia.
Qed.

Lemma dash_eqb (c : ascii) : Ascii.eqb c "-" = true <-> c = "-"%char.
Proof. apply Ascii.eqb_eq. Qed.

(** [time.Parse(dateFormat, value)] succeeds on the strings that are a
    valid date written in the format, and on no other. *)
Lemma time_Parse_dateFormat_matches (value : string) (t : Time) :
  time_Parse_dateFormat value = inl t <-> valid_date t /\ value = Time_Format t.
Proof.
  split.
  - unfold time_Parse_dateFormat.
    destruct value as [|y1 [|y2 [|y3 [|y4 [|s1 [|m1 [|m2 [|s2 [|d1 [|d2 [|? ?]]]]]]]]]]];
      try discriminate.
    destruct (digit y1) as [a|] eqn:Ha; [|discriminate].
    destruct (digit y2) as [b|] eqn:Hb; [|discriminate].
    destruct (digit y3) as [c|] eqn:Hc; [|discriminate].
    destruct (digit y4) as [d|] eqn:Hd; [|discriminate].
    destruct (digit m1) as [e|] eqn:He; [|discriminate].
    destruct (digit m2) as [f|] eqn:Hf; [|discriminate].
    destruct (digit d1) as [g|] eqn:Hg; [|discriminate].
    destruct (digit d2) as [i|] eqn:Hi; [|discriminate].
    apply digit_Some in Ha as [Ha ->], Hb as [Hb ->], Hc as [Hc ->], Hd as [Hd ->],
                          He as [He ->], Hf as [Hf ->], Hg as [Hg ->], Hi as [Hi ->].
    match goal with |- (if ?cond then _ else _) = _ -> _ => destruct cond eqn:E end;
      [|discriminate].
    repeat (apply andb_true_iff in E as [E ?]).
    apply Ascii.eqb_eq in E. subst s1.
    match goal with H : Ascii.eqb s2 _ = true |- _ => apply Ascii.eqb_eq in H; subst s2 end.
    repeat match goal with H : Nat.leb _ _ = true |- _ => apply Nat.leb_le in H end.
    intros Heq.
    assert (Ht : t = mkTime (1000 * a + 100 * b + 10 * c + d) (10 * e + f) (10 * g + i))
      by congruence.
    rewrite Ht. clear Heq Ht.
    unfold valid_date, Time_Format, year, month, day. cbv beta iota.
    split; [lia|].
    replace ((1000 * a + 100 * b + 10 * c + d) / 1000) with a by
      (zify; Z.to_euclidean_division_equations; lia).
    replace ((1000 * a + 100 * b + 10 * c + d) / 100 mod 10) with b by
      (zify; Z.to_euclidean_division_equations; lia).
    replace ((1000 * a + 100 * b + 10 * c + d) / 10 mod 10) with c by
      (zify; Z.to_euclidean_division_equations; lia).
    replace ((1000 * a + 100 * b + 10 * c + d) mod 10) with d by
      (zify; Z.to_euclidean_division_equations; lia).
    replace ((10 * e + f) / 10) with e by (zify; Z.to_euclidean_division_equations; lia).
    replace ((10 * e + f) mod 10) with f by (zify; Z.to_euclidean_division_equations; lia).
    replace ((10 * g + i) / 10) with g by (zify; Z.to_euclidean_division_equations; lia).
    replace ((10 * g + i) mod 10) with i by (zify; Z.to_euclidean_division_equations; lia).
    reflexivity.
  - intros [(Hy & Hm & Hd) ->]. destruct t as [y m dd].
    unfold year, month, day in *. cbv beta iota in *.
    assert (Hdd : dd <= 31) by (unfold daysIn in Hd;
      destruct m as [|[|[|[|[|[|[|[|[|[|[|[|?]]]]]]]]]]]]; try destruct (isLeap y); lia).
    unfold time_Parse_dateFormat, Time_Format, year, month, day. cbv beta iota.
    rewrite (proj2 (digit_Some _ (y / 1000))) by
      (split; [zify; Z.to_euclidean_division_equations; lia | reflexivity]).
    rewrite (proj2 (digit_Some _ (y / 100 mod 10))) by
      (split; [zify; Z.to_euclidean_division_equations; lia | reflexivity]).
    rewrite (proj2 (digit_Some _ (y / 10 mod 10))) by
      (split; [zify; Z.to_euclidean_division_equations; lia | reflexivity]).
    rewrite (proj2 (digit_Some _ (y mod 10))) by
      (split; [zify; Z.to_euclidean_division_equations; lia | reflexivity]).
    rewrite (proj2 (digit_Some _ (m / 10))) by
      (split; [zify; Z.to_euclidean_division_equations; lia | reflexivity]).
    rewrite (proj2 (digit_Some _ (m mod 10))) by
      (split; [zify; Z.to_euclidean_division_equations; lia | reflexivity]).
    rewrite (proj2 (digit_Some _ (dd / 10))) by
      (split; [zify; Z.to_euclidean_division_equations; lia | reflexivity]).
    rewrite (proj2 (digit_Some _ (dd mod 10))) by
      (split; [zify; Z.to_euclidean_division_equations; lia | reflexivity]).
    replace (1000 * (y / 1000) + 100 * (y / 100 mod 10) + 10 * (y / 10 mod 10) + y mod 10)
      with y by (zify; Z.to_euclidean_division_equations; lia).
    replace (10 * (m / 10) + m mod 10) with m by
      (zify; Z.to_euclidean_division_equations; lia).
    replace (10 * (dd / 10) + dd mod 10) with dd by
      (zify; Z.to_euclidean_division_equations; lia).
    change (Ascii.eqb "-" "-") with true. cbn [andb].
    destruct Hm as [Hm1 Hm2], Hd as [Hd1 Hd2].
    apply Nat.leb_le in Hm1, Hm2, Hd1, Hd2. rewrite Hm1, Hm2, Hd1, Hd2. reflexivity.
Qed.

(** C7.  On the [value] attribute of a date, a string that is not a
    valid calendar date written as [YYYY-MM-DD] makes [Date.attrCallback]
    return the error of [time.Parse] and leave the date as it was:
    [Value] is not assigned, and the text of the element, [StrValue], is
    kept; it is still stored when it comes after the refused attribute,
    as [Parse] shows.  A string that is such a date sets [Value] to it.
    [XMLDate.UnmarshalXMLAttr] does the same on an [XMLDate]. *)
Theorem C7_date_attribute (d : Date) (attr : Attr) :
  Local (AttrName attr) = "value" ->
  ((~ exists t, valid_date t /\ Value attr = Time_Format t) ->
   exists err,
     Date_attrCallback d attr = (Some err, d)
     /\ (forall x, XMLDate_UnmarshalXMLAttr x attr = (Some err, x))
     /\ (forall (name : Name) (text : string),
            exists p d',
              Parse (NewParser (Some tt))
                    (mkDecoder [TCharData text; TEndElement name] EOF)
                    (mkStart name [attr]) Date0
              = Ret (None, p, d')
              /\ Date_Value d' = None /\ Date_StrValue d' = text))
  /\ (forall t,
        valid_date t -> Value attr = Time_Format t ->
        Date_attrCallback d attr
        = (None, mkDate (Some (mkXMLDate t)) (Date_Lang d) (Date_StrValue d)
                   (Date_baseNode d))
        /\ (forall x, XMLDate_UnmarshalXMLAttr x attr = (None, mkXMLDate t))).
Proof.
  intros Hname. split.
  - intros Hno.
    destruct (time_Parse_dateFormat (Value attr)) as [t|err] eqn:Herr.
    { exfalso. apply Hno. exists t. apply time_Parse_dateFormat_matches, Herr. }
    exists err. split; [|split].
    + unfold Date_attrCallback. rewrite Hname, Herr. reflexivity.
    + intros x. unfold XMLDate_UnmarshalXMLAttr. rewrite Herr. reflexivity.
    + intros name text. eexists _, _.
      unfold Parse, ParseToken, openNode, NewParser; cbn.
      unfold Date_attrCallback. rewrite Hname, Herr. cbn.
      rewrite Name_eqb_refl. cbn. split; [reflexivity|]. split; reflexivity.
  - intros t Hvalid Hfmt.
    assert (Hok : time_Parse_dateFormat (Value attr) = inl t)
      by (apply time_Parse_dateFormat_matches; split; assumption).
    split.
    + unfold Date_attrCallback. rewrite Hname, Hok. reflexivity.
    + intros x. unfold XMLDate_UnmarshalXMLAttr. rewrite Hok. reflexivity.
Qed.

Lemma C7_date_attribute_witness :
  (exists err,
      Date_attrCallback (mkDate None "" "1863-1867" baseNode0)
                        (mkAttr (plain "value") "1863-1867")
      = (Some err, mkDate None "" "1863-1867" baseNode0))
  /\ Date_attrCallback Date0 (mkAttr (plain "value") "1863-02-28")
     = (None, mkDate (Some (mkXMLDate (mkTime 1863 2 28))) "" "" baseNode0).
Proof.
  split.
  - destruct (proj1 (C7_date_attribute (mkDate None "" "1863-1867" baseNode0)
                       (mkAttr (plain "value") "1863-1867") eq_refl))
      as (err & Herr & _).
    + intros (t & _ & Hfmt). cbn [Value] in Hfmt. unfold Time_Format in Hfmt.
      injection Hfmt as _ _ _ _ _ _ _ Hdash _ _. discriminate Hdash.
    + exists err. exact Herr.
  - apply (proj2 (C7_date_attribute Date0 (mkAttr (plain "value") "1863-02-28") eq_refl)
                 (mkTime 1863 2 28)).
    + unfold valid_date. cbn. lia.
    + reflexivity.
Defined.

(** ** Link.attrCallback *)

(** C8, as the code has it.  [Link.attrCallback] keeps a [type] attribute
    without namespace in [Type] and a [type] attribute with a namespace in
    [XlinkType]: after both, in either order, each field holds its own
    value.  An [href] attribute goes to the one field [XlinkHref] whatever
    its namespace, and leaves [Type] and [XlinkType] alone: of an
    unqualified and a namespaced [href] on one element the later
    replaces the earlier. *)
Theorem C8_link_attributes (l : Link) (ns v1 v2 : string) :
  ns <> "" ->
  let plain_type := mkAttr (mkName "" "type") v1 in
  let xlink_type := mkAttr (mkName ns "type") v2 in
  let plain_href := mkAttr (mkName "" "href") v1 in
  let xlink_href := mkAttr (mkName ns "href") v2 in
  let then_ (a b : Attr) := snd (Link_attrCallback (snd (Link_attrCallback l a)) b) in
  (Link_Type (then_ plain_type xlink_type) = v1
   /\ Link_XlinkType (then_ plain_type xlink_type) = v2
   /\ then_ xlink_type plain_type = then_ plain_type xlink_type
   /\ fst (Link_attrCallback l plain_type) = None
   /\ fst (Link_attrCallback l xlink_type) = None)
  /\ (Link_XlinkHref (then_ plain_href xlink_href) = v2
      /\ Link_XlinkHref (then_ xlink_href plain_href) = v1
      /\ Link_Type (then_ plain_href xlink_href) = Link_Type l
      /\ Link_XlinkType (then_ plain_href xlink_href) = Link_XlinkType l
      /\ then_ plain_href xlink_href = snd (Link_attrCallback l xlink_href)).
Proof.
  intros Hns. apply String.eqb_neq in Hns.
  unfold Link_attrCallback; cbn. rewrite Hns. cbn. repeat split.
Qed.

Lemma C8_link_attributes_witness :
  Link_Type (snd (Link_attrCallback
                    (snd (Link_attrCallback Link0 (mkAttr (plain "type") "note")))
                    (mkAttr (xlink "type") "simple"))) = "note"
  /\ Link_XlinkType (snd (Link_attrCallback
                            (snd (Link_attrCallback Link0 (mkAttr (plain "type") "note")))
                            (mkAttr (xlink "type") "simple"))) = "simple".
Proof.
  assert (Hns : "http://www.w3.org/1999/xlink" <> "") by (intros H; discriminate H).
  pose proof (C8_link_attributes Link0 "http://www.w3.org/1999/xlink" "note" "simple" Hns)
    as [[H1 [H2 _]] _].
  split; [exact H1 | exact H2].
Defined.

(** C8 as stated fails on [<a href="local.html" xlink:href="#n1">]: both
    values go to [XlinkHref], the unqualified one is overwritten and is
    in no field of the link, which is the link the namespaced [href]
    alone gives. *)
Lemma C8_counterexample :
  snd (Link_attrCallback
         (snd (Link_attrCallback Link0 (mkAttr (plain "href") "local.html")))
         (mkAttr (xlink "href") "#n1"))
  = mkLink StyleLinkType0 "" "#n1" ""
  /\ snd (Link_attrCallback Link0 (mkAttr (xlink "href") "#n1"))
     = mkLink StyleLinkType0 "" "#n1" "".
Proof. split; reflexivity. Qed.

(** In the earlier revision an [href] overwrote [XlinkType]. *)
Lemma Link_attrCallback_earlier_href (l : Link) (ns v : string) :
  Link_attrCallback_earlier l (mkAttr (mkName ns "href") v)
  = (None, mkLink (Link_StyleLinkType l) v (Link_XlinkHref l) (Link_Type l)).
Proof. reflexivity. Qed.

(** ** The content model: a parse, read through [Contenter] *)

Ltac split_ifs_in H :=
  repeat match type of H with
         | context [if ?b then _ else _] => destruct b eqn:?
         end.

Ltac split_ifs :=
  repeat match goal with
         | |- context [if ?b then _ else _] => destruct b eqn:?
         end.

Lemma grows_refl n : grows n n [].
Proof. unfold grows. rewrite app_nil_r. auto. Qed.

Lemma grows_trans n1 n2 n3 cs1 cs2 :
  grows n1 n2 cs1 -> grows n2 n3 cs2 -> grows n1 n3 (cs1 ++ cs2).
Proof.
  unfold grows. intros (K1 & N1 & C1) (K2 & N2 & C2).
  rewrite K2, K1, N2, N1, C2, C1, app_assoc. auto.
Qed.

Lemma grows_has_content n n' cs :
  grows n n' cs -> has_content n' = has_content n || negb (is_nil cs).
Proof.
  intros (_ & _ & Hc). unfold has_content. rewrite Hc.
  destruct (node_GetContent n), cs; reflexivity.
Qed.

Lemma Forall2_is_nil {A B : Type} (R : A -> B -> Prop) (l : list A) (l' : list B) :
  Forall2 R l l' -> is_nil l = is_nil l'.
Proof. destruct 1; reflexivity. Qed.

Lemma node_tagCallback_child (self : addr) (n : node) (start : StartElement) (h : heap)
      (k' : kind) (placed : bool) :
  child_kind (kind_of n) (Local (StartName start)) = Some (k', placed) ->
  k' <> KstringNode ->
  exists n1,
    node_tagCallback self n start h = (Some (length h), None, n1, h ++ [zero k'])
    /\ grows n n1
         (if placed && (has_content n
                        || negb (after_content_only (kind_of n) (Local (StartName start))))
          then [CNode (length h)] else []).
Proof.
  intros Hc Hns.
  destruct n; cbn [kind_of child_kind after_content_only] in Hc |- *; try discriminate Hc;
    cbn [node_tagCallback];
    unfold Title_tagCallback, Cite_tagCallback, Poem_tagCallback, Stanza_tagCallback,
      Epigraph_tagCallback, Annotation_tagCallback, Section_tagCallback,
      StyleType_tagCallback, StyleLinkType_tagCallback, Table_tagCallback, TR_tagCallback,
      new;
    cbv zeta;
    split_ifs_in Hc; try discriminate Hc;
    injection Hc as <- <-; try congruence;
    try match goal with
        | x : Section |- _ => destruct x as [? ? ? ? ? [? [|? ?]] ? ?]
        end;
    (eexists; split; [reflexivity|]);
    unfold grows, has_content; cbn; rewrite ?orb_true_r, ?app_nil_r, ?map_app; cbn; auto.
Qed.

Lemma node_SetXMLName_spec (name : Name) (n : node) :
  kind_of (node_SetXMLName name n) = kind_of n
  /\ node_GetXMLName (node_SetXMLName name n) = name
  /\ node_GetContent (node_SetXMLName name n) = node_GetContent n.
Proof. destruct n; repeat split. Qed.

Lemma node_attrCallback_same (n : node) (attr : Attr) :
  grows n (snd (node_attrCallback n attr)) [].
Proof.
  unfold grows. rewrite app_nil_r.
  destruct n; cbn [node_attrCallback];
    unfold Title_attrCallback, P_attrCallback, Cite_attrCallback, Stanza_attrCallback,
      Epigraph_attrCallback, Annotation_attrCallback, Section_attrCallback,
      NamedStyleType_attrCallback, StyleType_attrCallback, Link_attrCallback,
      Table_attrCallback, TR_attrCallback, TD_attrCallback, InlineImage_attrCallback;
    repeat first [ progress split_ifs
                 | match goal with |- context [Atoi ?v] => destruct (Atoi v) end ];
    cbn; auto.
Qed.

Lemma node_charDataCallback_grows (n : node) (cd : CharData) :
  fst (node_charDataCallback n cd) = None
  /\ grows n (snd (node_charDataCallback n cd))
           (if is_mixed (kind_of n) then [CCharData cd] else []).
Proof.
  unfold grows. destruct n; cbn; rewrite ?app_nil_r; auto.
Qed.

(** The heap. *)

Lemma heap_tagCallback_child (h : heap) (a : addr) (n : node) (start : StartElement)
      (k' : kind) (placed : bool) :
  h !! a = Some n ->
  child_kind (kind_of n) (Local (StartName start)) = Some (k', placed) ->
  k' <> KstringNode ->
  exists n1,
    heap_tagCallback a start h = (Some (length h), None, <[a := n1]> (h ++ [zero k']))
    /\ grows n n1
         (if placed && (has_content n
                        || negb (after_content_only (kind_of n) (Local (StartName start))))
          then [CNode (length h)] else []).
Proof.
  intros Ha Hc Hns. unfold heap_tagCallback. rewrite Ha.
  destruct (node_tagCallback_child a n start h k' placed Hc Hns) as (n1 & -> & Hg).
  exists n1. split; [reflexivity | exact Hg].
Qed.

Lemma forwardAttrs_same (b : addr) (attrs : list Attr) (h : heap) (m : node) :
  h !! b = Some m ->
  exists e m', forwardAttrs b attrs h = (e, <[b := m']> h) /\ grows m m' [].
Proof.
  revert h m. induction attrs as [|attr attrs IH]; intros h m Hb.
  - exists None, m. rewrite list_insert_id by exact Hb. split; [reflexivity|apply grows_refl].
  - cbn [forwardAttrs attrCallback heap_Node]. unfold heap_attrCallback. rewrite Hb.
    pose proof (node_attrCallback_same m attr) as Hs.
    destruct (node_attrCallback m attr) as [e m1]. cbn [snd] in Hs.
    destruct e as [err|].
    + exists (Some err), m1. split; [reflexivity | exact Hs].
    + assert (Hb1 : <[b := m1]> h !! b = Some m1).
      { apply list_lookup_insert_eq. apply lookup_lt_Some in Hb. exact Hb. }
      destruct (IH _ _ Hb1) as (e & m' & Hf & Hg).
      exists e, m'. rewrite Hf, list_insert_insert_eq. split; [reflexivity|].
      apply (grows_trans m m1 m' [] [] Hs Hg).
Qed.

(** Induction on trees, with the hypothesis for every child. *)
Lemma tree_ind' (Q : tree -> Prop) :
  (forall identity text children, Forall Q children -> Q (Tree identity text children)) ->
  forall t, Q t.
Proof.
  intros Hstep. fix IH 1. intros [identity text children]. apply Hstep.
  induction children as [|t ts IHts]; constructor; [apply IH | exact IHts].
Qed.

Lemma item_ind' (Q : item -> Prop) :
  (forall cd, Q (IText cd)) ->
  (forall name attrs children, Forall Q children -> Q (IElem name attrs children)) ->
  forall i, Q i.
Proof.
  intros Htext Helem. fix IH 1. intros [cd | name attrs children]; [apply Htext|].
  apply Helem. induction children as [|i l IHl]; constructor; [apply IH | exact IHl].
Qed.

(** The tokens of a document given by its pieces pass the decoder whole:
    every close tag closes the innermost open element. *)
Lemma xml_Decoder_each (l : list item) :
  Forall (fun i => forall open rest,
            xml_Decoder open (tokens i ++ rest)
            = mkDecoder (tokens i ++ pending (xml_Decoder open rest))
                        (failure (xml_Decoder open rest))) l ->
  forall (open : list Name) (rest : list Token),
    xml_Decoder open (flat_map tokens l ++ rest)
    = mkDecoder (flat_map tokens l ++ pending (xml_Decoder open rest))
                (failure (xml_Decoder open rest)).
Proof.
  induction 1 as [|i l Hi Hl IH]; intros open rest.
  - cbn [flat_map app]. destruct (xml_Decoder open rest). reflexivity.
  - cbn [flat_map]. rewrite <- !app_assoc, Hi, IH. reflexivity.
Qed.

Lemma xml_Decoder_piece (i : item) :
  forall (open : list Name) (rest : list Token),
    xml_Decoder open (tokens i ++ rest)
    = mkDecoder (tokens i ++ pending (xml_Decoder open rest))
                (failure (xml_Decoder open rest)).
Proof.
  induction i as [cd | name attrs children IH] using item_ind'; intros open rest.
  - reflexivity.
  - cbn [tokens app]. rewrite <- !app_assoc. cbn [xml_Decoder StartName].
    rewrite (xml_Decoder_each children IH). cbn [app xml_Decoder pending failure].
    rewrite !String.eqb_refl. cbn [negb pending failure]. reflexivity.
Qed.

Lemma xml_Decoder_pieces (l : list item) (open : list Name) (rest : list Token) :
  xml_Decoder open (flat_map tokens l ++ rest)
  = mkDecoder (flat_map tokens l ++ pending (xml_Decoder open rest))
              (failure (xml_Decoder open rest)).
Proof.
  apply xml_Decoder_each, Forall_forall. intros i _. apply xml_Decoder_piece.
Qed.

Lemma xml_Decoder_element (name : Name) (l : list item) :
  xml_Decoder [name] (flat_map tokens l ++ [TEndElement name])
  = mkDecoder (flat_map tokens l ++ [TEndElement name]) EOF.
Proof.
  rewrite xml_Decoder_pieces. cbn [xml_Decoder]. rewrite !String.eqb_refl. reflexivity.
Qed.

Lemma reads_in_unfold lo hi (h : heap) c identity text children :
  reads_in lo hi h c (Tree identity text children) <->
  match c with CNode a => lo <= a < hi | CCharData _ => True end
  /\ Contenter_GetXMLName h c = identity
  /\ GetText h c = text
  /\ Forall2 (reads_in lo hi h) (GetContent h c) children.
Proof.
  cbn [reads_in]. generalize (GetContent h c) as cs.
  assert (Heach : forall ts cs,
    (fix each (ts : list tree) (cs : list Contenter) {struct ts} : Prop :=
       match ts, cs with
       | [], [] => True
       | t' :: ts', c' :: cs' => reads_in lo hi h c' t' /\ each ts' cs'
       | _, _ => False
       end) ts cs <-> Forall2 (reads_in lo hi h) cs ts).
  { induction ts as [|t ts IHts]; intros [|c' cs].
    - split; [constructor | exact (fun _ => I)].
    - split; [contradiction | intros H; inversion H].
    - split; [contradiction | intros H; inversion H].
    - split.
      + intros [H1 H2]. constructor; [exact H1 | apply IHts, H2].
      + intros H; inversion H; subst. split; [assumption | apply IHts; assumption]. }
  intros cs. rewrite Heach. reflexivity.
Qed.

Lemma reads_unfold (h : heap) c identity text children :
  reads h c (Tree identity text children) <->
  Contenter_GetXMLName h c = identity
  /\ GetText h c = text
  /\ Forall2 (reads h) (GetContent h c) children.
Proof.
  cbn [reads]. generalize (GetContent h c) as cs.
  assert (Heach : forall ts cs,
    (fix each (ts : list tree) (cs : list Contenter) {struct ts} : Prop :=
       match ts, cs with
       | [], [] => True
       | t' :: ts', c' :: cs' => reads h c' t' /\ each ts' cs'
       | _, _ => False
       end) ts cs <-> Forall2 (reads h) cs ts).
  { induction ts as [|t ts IHts]; intros [|c' cs].
    - split; [constructor | exact (fun _ => I)].
    - split; [contradiction | intros H; inversion H].
    - split; [contradiction | intros H; inversion H].
    - split.
      + intros [H1 H2]. constructor; [exact H1 | apply IHts, H2].
      + intros H; inversion H; subst. split; [assumption | apply IHts; assumption]. }
  intros cs. rewrite Heach. reflexivity.
Qed.

(** What a walk sees depends on the nodes it visits only. *)
Lemma reads_in_frame lo hi (h h' : heap) :
  (forall b, lo <= b < hi -> h' !! b = h !! b) ->
  forall t c, reads_in lo hi h c t -> reads_in lo hi h' c t.
Proof.
  intros Hsame. induction t as [identity text children IH] using tree_ind'.
  intros c. rewrite !reads_in_unfold. intros (Hb & Hn & Ht & Hc).
  assert (Hcell : match c with CNode a => h' !! a = h !! a | CCharData _ => True end).
  { destruct c; [exact I | apply Hsame, Hb]. }
  split; [exact Hb|].
  split; [destruct c; cbn in *; [exact Hn | rewrite Hcell; exact Hn]|].
  split; [exact Ht|].
  assert (Hg : GetContent h' c = GetContent h c).
  { destruct c; cbn in *; [reflexivity | rewrite Hcell; reflexivity]. }
  rewrite Hg. clear Hg Hcell Hb Hn Ht.
  revert IH. induction Hc as [|c' t' cs ts Hr Hrest IHrest]; intros IH; constructor.
  - inversion IH; subst. auto.
  - inversion IH; subst. auto.
Qed.

Lemma reads_in_widen lo hi lo' hi' (h : heap) :
  lo' <= lo -> hi <= hi' ->
  forall t c, reads_in lo hi h c t -> reads_in lo' hi' h c t.
Proof.
  intros Hlo Hhi. induction t as [identity text children IH] using tree_ind'.
  intros c. rewrite !reads_in_unfold. intros (Hb & Hn & Ht & Hc).
  split; [destruct c; [exact I | lia]|].
  split; [exact Hn|]. split; [exact Ht|].
  clear Hb Hn Ht.
  revert IH. induction Hc as [|c' t' cs ts Hr Hrest IHrest]; intros IH; constructor.
  - inversion IH; subst. auto.
  - inversion IH; subst. auto.
Qed.

Lemma reads_in_reads lo hi (h : heap) :
  forall t c, reads_in lo hi h c t -> reads h c t.
Proof.
  induction t as [identity text children IH] using tree_ind'.
  intros c. rewrite reads_in_unfold, reads_unfold. intros (Hb & Hn & Ht & Hc).
  split; [exact Hn|]. split; [exact Ht|].
  clear Hb Hn Ht.
  revert IH. induction Hc as [|c' t' cs ts Hr Hrest IHrest]; intros IH; constructor.
  - inversion IH; subst. auto.
  - inversion IH; subst. auto.
Qed.

(** A walk sees one tree. *)
Lemma reads_unique (h : heap) (t1 : tree) :
  forall c t2, reads h c t1 -> reads h c t2 -> t1 = t2.
Proof.
  induction t1 as [identity text children IH] using tree_ind'.
  intros c [identity' text' children']. rewrite !reads_unfold.
  intros (Hn & Ht & Hc) (Hn' & Ht' & Hc'). subst identity' text'. rewrite <- Hn, <- Ht.
  f_equal; try congruence.
  revert children' Hc' IH. induction Hc as [|c' t cs ts Hr Hrest IHrest];
    intros children' Hc' IH; inversion Hc'; subst; [reflexivity|].
  inversion IH; subst. f_equal; [eauto | apply IHrest; assumption].
Qed.

Lemma returns_ext (toks : list Token) (k : kind) (f g : bool -> list tree) :
  (forall b, f b = g b) -> returns_to toks k f -> returns_to toks k g.
Proof.
  intros Hfg Hf h stk rt a n Ha Hk.
  destruct (Hf h stk rt a n Ha Hk) as (h' & n' & cs & H). rewrite Hfg in H. eauto.
Qed.

Lemma returns_nil (k : kind) : returns_to [] k (fun _ => []).
Proof.
  intros h stk rt a n Ha Hk. exists h, n, []. cbn [dispatch].
  split; [reflexivity|]. split; [lia|]. split; [auto|]. split; [exact Ha|].
  split; [apply grows_refl | constructor].
Qed.

Lemma returns_app (t1 t2 : list Token) (k : kind) (f1 f2 : bool -> list tree) :
  returns_to t1 k f1 -> returns_to t2 k f2 ->
  returns_to (t1 ++ t2) k (fun b => f1 b ++ f2 (b || negb (is_nil (f1 b)))).
Proof.
  intros H1 H2 h stk rt a n Ha Hk.
  pose proof (lookup_lt_Some _ _ _ Ha) as Hlt.
  destruct (H1 h stk rt a n Ha Hk) as (h1 & n1 & cs1 & Hd1 & Hl1 & Hf1 & Ha1 & Hg1 & Hr1).
  assert (Hk1 : kind_of n1 = k) by (destruct Hg1 as (-> & _); exact Hk).
  destruct (H2 h1 stk rt a n1 Ha1 Hk1) as (h2 & n2 & cs2 & Hd2 & Hl2 & Hf2 & Ha2 & Hg2 & Hr2).
  rewrite (grows_has_content _ _ _ Hg1), (Forall2_is_nil _ _ _ Hr1) in Hr2.
  exists h2, n2, (cs1 ++ cs2).
  split; [rewrite dispatch_app, Hd1; exact Hd2|].
  split; [lia|].
  split; [intros b Hb Hne; rewrite Hf2 by (lia || exact Hne); apply Hf1; assumption|].
  split; [exact Ha2|].
  split; [apply (grows_trans n n1 n2 cs1 cs2 Hg1 Hg2)|].
  apply Forall2_app.
  - eapply Forall2_impl; [exact Hr1|]. intros c t Hr. cbv beta in Hr.
    apply (reads_in_widen (length h) (length h1)); [lia | exact Hl2 |].
    apply (reads_in_frame (length h) (length h1) h1); [|exact Hr].
    intros b Hb. apply Hf2; lia.
  - eapply Forall2_impl; [exact Hr2|]. intros c t Hr. cbv beta in Hr.
    apply (reads_in_widen (length h1) (length h2)); [exact Hl1 | lia | exact Hr].
Qed.

Lemma returns_text (k : kind) (cd : CharData) :
  k <> KstringNode -> returns_to [TCharData cd] k (fun b => content_item k b (IText cd)).
Proof.
  intros Hns h stk rt a n Ha Hk.
  pose proof (lookup_lt_Some _ _ _ Ha) as Hlt.
  destruct (node_charDataCallback_grows n cd) as [He Hg].
  exists (<[a := snd (node_charDataCallback n cd)]> h), (snd (node_charDataCallback n cd)),
         (if is_mixed (kind_of n) then [CCharData cd] else []).
  split.
  - cbn [dispatch ParseToken last charDataCallback heap_Node].
    unfold heap_charDataCallback. rewrite Ha.
    destruct (node_charDataCallback n cd) as [e n'] eqn:Hcb. cbn [fst snd] in *. subst e.
    destruct n; try reflexivity. exfalso; apply Hns; rewrite <- Hk; reflexivity.
  - split; [rewrite length_insert; lia|].
    split; [intros b Hb Hne; apply list_lookup_insert_ne; congruence|].
    split; [apply list_lookup_insert_eq; exact Hlt|].
    split; [exact Hg|].
    rewrite Hk. cbn [content_item]. destruct (is_mixed k); constructor; [|constructor].
    apply reads_in_unfold. cbn. repeat split. constructor.
Qed.

Lemma returns_elem (k k' : kind) (placed : bool) (name : Name) (attrs : list Attr)
      (kidtoks : list Token) (f : bool -> list tree) :
  child_kind k (Local name) = Some (k', placed) ->
  k' <> KstringNode ->
  returns_to kidtoks k' f ->
  returns_to (TStartElement (mkStart name attrs) :: kidtoks ++ [TEndElement name]) k
             (fun b => if placed && (b || negb (after_content_only k (Local name)))
                       then [Tree name "" (f false)] else []).
Proof.
  intros Hc Hns Hkids h stk rt a n Ha Hk.
  pose proof (lookup_lt_Some _ _ _ Ha) as Hlt.
  set (b := length h).
  (* the open tag *)
  destruct (heap_tagCallback_child h a n (mkStart name attrs) k' placed Ha) as (n1 & Htag & Hg1);
    [rewrite Hk; exact Hc | exact Hns |].
  rewrite Hk in Hg1. cbn [StartName] in Hg1.
  set (h1 := <[a := n1]> (h ++ [zero k'])) in *.
  assert (Hb1 : h1 !! b = Some (zero k')).
  { unfold h1. rewrite list_lookup_insert_ne by (unfold b; lia).
    rewrite lookup_app_r by (unfold b; lia). unfold b. rewrite Nat.sub_diag. reflexivity. }
  destruct (node_SetXMLName_spec name (zero k')) as (Hk2 & Hn2 & Hc2).
  set (m2 := node_SetXMLName name (zero k')) in *.
  assert (Hb2 : <[b := m2]> h1 !! b = Some m2).
  { apply list_lookup_insert_eq. apply lookup_lt_Some in Hb1. exact Hb1. }
  destruct (forwardAttrs_same b attrs _ m2 Hb2) as (e & m3 & Hattrs & Hg3).
  rewrite list_insert_insert_eq in Hattrs.
  set (h3 := <[b := m3]> h1) in *.
  assert (Hlen1 : length h1 = S (length h)).
  { unfold h1. rewrite length_insert, length_app. cbn. lia. }
  assert (Hlen3 : length h3 = S (length h)).
  { unfold h3. rewrite length_insert. exact Hlen1. }
  assert (Hb3 : h3 !! b = Some m3).
  { unfold h3. apply list_lookup_insert_eq. rewrite Hlen1. unfold b. lia. }
  assert (Ha3 : h3 !! a = Some n1).
  { unfold h3, h1. rewrite list_lookup_insert_ne by (unfold b; lia).
    apply list_lookup_insert_eq. rewrite length_app. cbn. lia. }
  assert (Hf3 : forall c, c < length h -> c <> a -> h3 !! c = h !! c).
  { intros c Hlc Hne. unfold h3, h1.
    rewrite list_lookup_insert_ne by (unfold b; lia).
    rewrite list_lookup_insert_ne by congruence.
    apply lookup_app_l. exact Hlc. }
  destruct Hg3 as (Hk3 & Hn3 & Hc3). rewrite app_nil_r in Hc3.
  assert (Hkm3 : kind_of m3 = k').
  { rewrite Hk3, Hk2. destruct k'; reflexivity. }
  assert (Hempty3 : has_content m3 = false).
  { unfold has_content. rewrite Hc3, Hc2. destruct k'; reflexivity. }
  (* the children *)
  destruct (Hkids h3 (stk ++ [a]) rt b m3 Hb3 Hkm3)
    as (h4 & m4 & cs & Hd4 & Hl4 & Hf4 & Hb4 & Hg4 & Hr4).
  rewrite Hempty3 in Hr4.
  destruct Hg4 as (Hk4 & Hn4 & Hc4).
  assert (Hcs : node_GetContent m4 = cs).
  { rewrite Hc4, Hc3, Hc2. destruct k'; reflexivity. }
  assert (Hname4 : node_GetXMLName m4 = name).
  { rewrite Hn4, Hn3. exact Hn2. }
  exists h4, n1, (if placed && (has_content n || negb (after_content_only k (Local name)))
                  then [CNode b] else []).
  split.
  - cbn [dispatch]. unfold ParseToken at 1. cbn [last tagCallback heap_Node].
    rewrite Htag. unfold openNode. cbn [last stack first SetXMLName heap_Node StartName StartAttr].
    unfold heap_SetXMLName. subst b m2. rewrite Hb1, Hattrs.
    rewrite dispatch_app, Hd4. cbn [dispatch].
    unfold ParseToken. cbn [last stack first GetXMLName heap_Node].
    unfold heap_GetXMLName. rewrite Hb4, Hname4, Name_eqb_refl. cbn [negb].
    rewrite rev_app_distr. cbn [List.rev app]. rewrite rev_involutive. reflexivity.
  - split; [lia|].
    split.
    { intros c Hlc Hne. rewrite Hf4 by (unfold b; lia). apply Hf3; assumption. }
    split.
    { rewrite Hf4 by (unfold b; lia). exact Ha3. }
    split; [exact Hg1|].
    destruct (placed && (has_content n || negb (after_content_only k (Local name))));
      constructor; [|constructor].
    apply reads_in_unfold.
    split; [unfold b; lia|].
    split; [cbn; rewrite Hb4; exact Hname4|].
    split; [reflexivity|].
    cbn [GetContent]. rewrite Hb4, Hcs.
    eapply Forall2_impl; [exact Hr4|]. intros c t Hr. cbv beta in Hr.
    apply (reads_in_widen (length h3) (length h4)); [lia | lia | exact Hr].
Qed.

(** *** The [id] child of a table *)

Lemma last_cons {A : Type} (l : list A) (x d : A) : List.last (x :: l) d = List.last l x.
Proof.
  revert x d. induction l as [|y l IH]; intros x d; [reflexivity|].
  change (List.last (x :: y :: l) d) with (List.last (y :: l) d).
  rewrite !IH. reflexivity.
Qed.

Lemma stringNode_forwardAttrs (b : addr) (x : stringNode) (attrs : list Attr) (h : heap) :
  h !! b = Some (NstringNode x) ->
  snd (forwardAttrs b attrs h) = h.
Proof.
  intros Hb. destruct attrs as [|attr attrs]; [reflexivity|].
  cbn [forwardAttrs attrCallback heap_Node]. unfold heap_attrCallback. rewrite Hb.
  cbn. rewrite list_insert_id by exact Hb. reflexivity.
Qed.

Lemma stringNode_runs (b a : addr) (x : stringNode) (stk : list addr) (root : option addr)
      (cds : list CharData) :
  stringNode_s x = a -> a <> b ->
  forall (h : heap) (t : Table),
    h !! b = Some (NstringNode x) -> h !! a = Some (NTable t) ->
    exists h',
      dispatch (mkParser stk (Some b) root) (map TCharData cds) h
      = Ret (mkParser stk (Some b) root, h')
      /\ h' !! b = Some (NstringNode x)
      /\ h' !! a = Some (NTable (mkTable (Table_XMLName t) (Table_TR t)
                                   (List.last cds (Table_ID t)) (Table_Style t)
                                   (Table_emptyText t)))
      /\ length h' = length h
      /\ (forall c, c <> a -> h' !! c = h !! c).
Proof.
  intros Hs Hne. induction cds as [|cd cds IH]; intros h t Hb Ha.
  - exists h. destruct t. cbn. auto.
  - cbn [map dispatch ParseToken last charDataCallback heap_Node].
    unfold heap_charDataCallback. rewrite Hb. unfold stringNode_charDataCallback.
    rewrite Hs, Ha.
    set (t1 := mkTable (Table_XMLName t) (Table_TR t) cd (Table_Style t) (Table_emptyText t)).
    assert (Hlt : a < length h) by (eapply lookup_lt_Some; exact Ha).
    destruct (IH (<[a := NTable t1]> h) t1) as (h' & Hd & Hb' & Ha' & Hlen & Hfr).
    { rewrite list_lookup_insert_ne by exact Hne. exact Hb. }
    { apply list_lookup_insert_eq. exact Hlt. }
    exists h'. split; [exact Hd|]. split; [exact Hb'|].
    rewrite length_insert in Hlen. split; [|split; [exact Hlen|]].
    + rewrite Ha', last_cons. reflexivity.
    + intros c Hc. rewrite Hfr by exact Hc. apply list_lookup_insert_ne. congruence.
Qed.

(** An [id] element in a table: one [stringNode] is created, the text
    runs go through it into the [ID] of the table, and nothing else
    moves. *)
Lemma Table_id_element
    (h : heap) (a : addr) (t : Table) (stk : list addr) (root : option addr)
    (name : Name) (attrs : list Attr) (cds : list CharData) :
  h !! a = Some (NTable t) ->
  Local name = "id" ->
  exists h',
    dispatch (mkParser stk (Some a) root)
      (TStartElement (mkStart name attrs) :: map TCharData cds ++ [TEndElement name]) h
    = Ret (mkParser stk (Some a) root, h')
    /\ h' !! a = Some (NTable (mkTable (Table_XMLName t) (Table_TR t)
                                 (List.last cds (Table_ID t)) (Table_Style t)
                                 (Table_emptyText t)))
    /\ length h' = S (length h)
    /\ (forall c, c < length h -> c <> a -> h' !! c = h !! c).
Proof.
  intros Ha Hid.
  assert (Hlt : a < length h) by (eapply lookup_lt_Some; exact Ha).
  set (x := mkStringNode (baseNode_SetXMLName name baseNode0) a).
  set (h1 := <[length h := NstringNode x]> (<[a := NTable t]> (h ++ [NstringNode (mkStringNode baseNode0 a)]))).
  assert (Hb1 : h1 !! length h = Some (NstringNode x)).
  { subst h1. apply list_lookup_insert_eq. rewrite length_insert, length_app. cbn. lia. }
  assert (Ha1 : h1 !! a = Some (NTable t)).
  { subst h1. rewrite list_lookup_insert_ne by lia.
    apply list_lookup_insert_eq. rewrite length_app. lia. }
  assert (Hopen : ParseToken (mkParser stk (Some a) root) (TStartElement (mkStart name attrs)) h
                  = Ret (fst (forwardAttrs (length h) attrs h1),
                         mkParser (stk ++ [a]) (Some (length h)) root, h1)).
  { cbn [ParseToken last tagCallback heap_Node]. unfold heap_tagCallback. rewrite Ha.
    cbn [node_tagCallback]. unfold Table_tagCallback. cbn [StartName]. rewrite Hid.
    cbn [String.eqb Ascii.eqb Bool.eqb new]. cbv zeta. unfold new. cbv beta iota.
    unfold openNode. cbn [last stack first StartName StartAttr SetXMLName heap_Node].
    unfold heap_SetXMLName.
    assert (Hl : <[a := NTable t]> (h ++ [NstringNode (mkStringNode baseNode0 a)]) !! length h
                 = Some (NstringNode (mkStringNode baseNode0 a))).
    { rewrite list_lookup_insert_ne by lia. rewrite lookup_app_r by lia.
      rewrite Nat.sub_diag. reflexivity. }
    rewrite Hl.
    change (forwardAttrs (length h) attrs _) with (forwardAttrs (length h) attrs h1).
    pose proof (stringNode_forwardAttrs (length h) x attrs h1 Hb1) as Hf.
    destruct (forwardAttrs (length h) attrs h1) as [e h2]. cbn [snd fst] in *. subst h2.
    reflexivity. }
  destruct (stringNode_runs (length h) a x (stk ++ [a]) root cds eq_refl ltac:(lia) h1 t Hb1 Ha1)
    as (h' & Hd & Hb' & Ha' & Hlen & Hfr).
  exists h'. split; [|split; [exact Ha'|split]].
  - cbn [dispatch]. rewrite Hopen. rewrite dispatch_app, Hd.
    cbn [dispatch ParseToken last GetXMLName heap_Node]. unfold heap_GetXMLName.
    rewrite Hb'. cbn [node_GetXMLName stringNode_baseNode x baseNode_GetXMLName XMLName].
    subst x. cbn. rewrite Name_eqb_refl. cbn [negb stack].
    rewrite rev_app_distr. cbn [rev app]. rewrite rev_involutive. reflexivity.
  - rewrite Hlen. subst h1. rewrite !length_insert, length_app. cbn. lia.
  - intros c Hc Hne. rewrite Hfr by exact Hne. subst h1.
    rewrite list_lookup_insert_ne by lia. rewrite list_lookup_insert_ne by congruence.
    apply lookup_app_l. exact Hc.
Qed.

(** Below a [stringNode] the vocabulary is text. *)
Lemma stringNode_children (children : list item) :
  forallb (markup KstringNode) children = true ->
  exists cds, flat_map tokens children = map TCharData cds.
Proof.
  induction children as [|[cd|name attrs kids] l IH]; cbn [forallb markup child_kind].
  - exists []. reflexivity.
  - intros Hm. destruct (IH Hm) as (cds & Hcds). exists (cd :: cds).
    cbn [flat_map tokens map app]. rewrite Hcds. reflexivity.
  - intros [=].
Qed.

Lemma returns_table_id (name : Name) (attrs : list Attr) (children : list item) :
  Local name = "id" ->
  forallb (markup KstringNode) children = true ->
  returns_to (tokens (IElem name attrs children)) KTable (fun _ => []).
Proof.
  intros Hid Hm h stk rt a n Ha Hk.
  destruct n; try discriminate Hk. rename x into t.
  destruct (stringNode_children children Hm) as (cds & Hcds).
  destruct (Table_id_element h a t stk rt name attrs cds Ha Hid)
    as (h' & Hd & Ha' & Hlen & Hfr).
  eexists h', _, []. cbn [tokens]. rewrite Hcds.
  split; [exact Hd|]. split; [lia|]. split; [exact Hfr|]. split; [exact Ha'|].
  split; [|constructor].
  unfold grows. cbn. rewrite app_nil_r. auto.
Qed.

Lemma child_kind_stringNode (k : kind) (name : string) (placed : bool) :
  child_kind k name = Some (KstringNode, placed) ->
  k = KTable /\ name = "id" /\ placed = false.
Proof.
  intros Hc. destruct k; cbn [child_kind] in Hc; split_ifs_in Hc; try discriminate Hc.
  injection Hc as <-. split; [reflexivity|]. split; [|reflexivity].
  apply String.eqb_eq. assumption.
Qed.

Lemma kind_eq_dec (a b : kind) : {a = b} + {a <> b}.
Proof. decide equality. Qed.

Lemma returns_items (k : kind) (l : list item) :
  Forall (fun i => forall k, k <> KstringNode -> markup k i = true ->
                    returns_to (tokens i) k (fun b => content_item k b i)) l ->
  k <> KstringNode -> forallb (markup k) l = true ->
  returns_to (flat_map tokens l) k (fun b => content_list (content_item k) b l).
Proof.
  intros Hall Hns. induction Hall as [|i l Hi Hl IH]; intros Hm.
  - apply returns_nil.
  - cbn [forallb] in Hm. apply andb_true_iff in Hm as [Hmi Hml].
    cbn [flat_map content_list].
    apply (returns_app (tokens i) (flat_map tokens l) k
             (fun b => content_item k b i) (fun b => content_list (content_item k) b l));
      [apply Hi; assumption | apply IH; exact Hml].
Qed.

Lemma returns_markup (i : item) :
  forall k, k <> KstringNode -> markup k i = true ->
    returns_to (tokens i) k (fun b => content_item k b i).
Proof.
  induction i as [cd | name attrs children IH] using item_ind'; intros k Hns Hm.
  - apply returns_text. exact Hns.
  - cbn [markup] in Hm.
    destruct (child_kind k (Local name)) as [[k' placed]|] eqn:Hc; [|discriminate Hm].
    destruct (kind_eq_dec k' KstringNode) as [->|Hns'].
    + destruct (child_kind_stringNode _ _ _ Hc) as (-> & Hid & ->).
      apply (returns_ext _ _ (fun _ => [])); [|apply returns_table_id; assumption].
      intros b. cbn [content_item]. rewrite Hc. reflexivity.
    + apply (returns_ext _ _ _ _
               (fun b => eq_sym (f_equal (fun c => match c with
                                                   | Some (k', placed) =>
                                                       if placed && (b || negb (after_content_only k (Local name)))
                                                       then [Tree name "" (content_list (content_item k') false children)]
                                                       else []
                                                   | None => []
                                                   end) Hc))).
      exact (returns_elem k k' placed name attrs _ _ Hc Hns'
               (returns_items k' children IH Hns' Hm)).
Qed.

(** A whole element parsed from its root. *)
Lemma UnmarshalXML_reads (root : node) (name : Name) (attrs : list Attr) (l : list item) :
  kind_of root <> KstringNode -> node_GetContent root = [] ->
  forallb (markup (kind_of root)) l = true ->
  exists p h,
    UnmarshalXML root (mkDecoder (flat_map tokens l ++ [TEndElement name]) EOF)
                 (mkStart name attrs)
    = Ret (None, p, h)
    /\ last p = None
    /\ reads h (CNode 0) (Tree name "" (content_of (kind_of root) l)).
Proof.
  intros Hns Hempty Hm.
  destruct (node_SetXMLName_spec name root) as (Hk2 & Hn2 & Hc2).
  assert (H0 : [node_SetXMLName name root] !! 0 = Some (node_SetXMLName name root))
    by reflexivity.
  destruct (forwardAttrs_same 0 attrs _ _ H0) as (e & m3 & Hattrs & (Hk3 & Hn3 & Hc3)).
  rewrite app_nil_r in Hc3. cbn [insert list_insert] in Hattrs.
  assert (Hkm3 : kind_of m3 = kind_of root) by (rewrite Hk3; exact Hk2).
  assert (Hl3 : [m3] !! 0 = Some m3) by reflexivity.
  destruct (returns_items (kind_of root) l
              (proj2 (Forall_forall _ _) (fun i _ => returns_markup i)) Hns Hm
              [m3] [] (Some 0) 0 m3 Hl3 Hkm3)
    as (h4 & m4 & cs & Hd4 & Hl4 & Hf4 & Hb4 & (Hk4 & Hn4 & Hc4) & Hr4).
  assert (Hname4 : node_GetXMLName m4 = name) by (rewrite Hn4, Hn3; exact Hn2).
  assert (Hcs : node_GetContent m4 = cs) by (rewrite Hc4, Hc3, Hc2, Hempty; reflexivity).
  assert (Hempty3 : has_content m3 = false)
    by (unfold has_content; rewrite Hc3, Hc2, Hempty; reflexivity).
  rewrite Hempty3 in Hr4.
  exists (mkParser [] None (Some 0)), h4.
  split; [|split; [reflexivity|]].
  - unfold UnmarshalXML, Parse. cbn [pending failure is_EOF].
    unfold ParseToken at 1, NewParser, openNode.
    cbn [last stack first SetXMLName heap_Node StartName StartAttr].
    unfold heap_SetXMLName. cbn [lookup list_lookup insert list_insert].
    rewrite Hattrs, dispatch_app, Hd4. cbn [dispatch].
    unfold ParseToken. cbn [last stack first GetXMLName heap_Node].
    unfold heap_GetXMLName. rewrite Hb4, Hname4, Name_eqb_refl. reflexivity.
  - apply reads_unfold. cbn [Contenter_GetXMLName GetText GetContent]. rewrite Hb4.
    split; [exact Hname4|]. split; [reflexivity|]. rewrite Hcs.
    eapply Forall2_impl; [exact Hr4|]. intros c t. apply reads_in_reads.
Qed.

Lemma inline_is_markup (i : item) : forall k, inline k i = true -> markup k i = true.
Proof.
  induction i as [cd | name attrs children IH] using item_ind'; intros k Hi; [reflexivity|].
  cbn [inline markup] in *.
  destruct (child_kind k (Local name)) as [[k' [|]]|]; try discriminate Hi.
  rewrite forallb_forall in *. rewrite Forall_forall in IH.
  intros x Hx. apply IH; [apply list_elem_of_In; exact Hx | apply Hi; exact Hx].
Qed.

Lemma placed_child_keeps_its_place (k k' : kind) (name : string) :
  is_mixed k = true \/ k = KInlineImage ->
  child_kind k name = Some (k', true) ->
  (is_mixed k' = true \/ k' = KInlineImage) /\ after_content_only k name = false.
Proof.
  intros [Hk | ->] Hc; [|discriminate Hc].
  destruct k; try discriminate Hk; cbn [child_kind] in Hc; split_ifs_in Hc;
    try discriminate Hc; injection Hc as <-; auto.
Qed.

Lemma inline_content (i : item) :
  forall k b, is_mixed k = true \/ k = KInlineImage ->
    inline k i = true -> content_item k b i = [shape i].
Proof.
  induction i as [cd | name attrs children IH] using item_ind'; intros k b Hk Hi.
  - cbn in *. rewrite Hi. reflexivity.
  - cbn [inline content_item shape] in *.
    destruct (child_kind k (Local name)) as [[k' [|]]|] eqn:Hc; try discriminate Hi.
    destruct (placed_child_keeps_its_place k k' _ Hk Hc) as [Hk' ->].
    rewrite orb_true_r. cbn [andb]. do 2 f_equal.
    generalize false as b'.
    induction IH as [|x l Hx Hl IHl]; intros b'; [reflexivity|].
    cbn [forallb] in Hi. apply andb_true_iff in Hi as [Hi1 Hi2].
    cbn [content_list map]. rewrite (Hx k' b' Hk' Hi1), (IHl Hi2). reflexivity.
Qed.

Lemma inline_content_of (k : kind) (l : list item) :
  is_mixed k = true ->
  forallb (inline k) l = true -> content_of k l = map shape l.
Proof.
  intros Hk. unfold content_of. generalize false as b.
  induction l as [|x l IH]; intros b Hi; [reflexivity|].
  cbn [forallb] in Hi. apply andb_true_iff in Hi as [Hi1 Hi2].
  cbn [content_list map]. rewrite (inline_content x k b (or_introl Hk) Hi1), (IH _ Hi2).
  reflexivity.
Qed.

Lemma inline_forall_markup (k : kind) (l : list item) :
  forallb (inline k) l = true -> forallb (markup k) l = true.
Proof.
  rewrite !forallb_forall. intros H x Hx. apply inline_is_markup, H, Hx.
Qed.

Lemma is_mixed_not_stringNode (k : kind) : is_mixed k = true -> k <> KstringNode.
Proof. intros H ->. discriminate H. Qed.

Lemma kind_of_zero (k : kind) : kind_of (zero k) = k.
Proof. destruct k; reflexivity. Qed.

Lemma content_zero (k : kind) : node_GetContent (zero k) = [].
Proof. destruct k; reflexivity. Qed.

(** C4.  The tokens of [text-a<strong>bold</strong>text-b], parsed into
    a [StyleType], give a content list that reads as the text [text-a],
    the element [strong] holding the text [bold], and the text [text-b],
    in that order (the instance below).  For every node type that keeps
    text and every list of inline pieces, the content list reads as the
    pieces in document order, text runs and elements alike, each element
    with its own content in document order. *)
Theorem C4_mixed_content_in_document_order
    (k : kind) (name : Name) (attrs : list Attr) (items : list item) :
  is_mixed k = true ->
  forallb (inline k) items = true ->
  exists p h,
    UnmarshalXML (zero k) (mkDecoder (flat_map tokens items ++ [TEndElement name]) EOF)
                 (mkStart name attrs)
    = Ret (None, p, h)
    /\ reads h (CNode 0) (Tree name "" (map shape items)).
Proof.
  intros Hmixed Hinline.
  destruct (UnmarshalXML_reads (zero k) name attrs items) as (p & h & Hp & _ & Hr).
  - rewrite kind_of_zero. apply is_mixed_not_stringNode, Hmixed.
  - apply content_zero.
  - rewrite kind_of_zero. apply inline_forall_markup, Hinline.
  - exists p, h. split; [exact Hp|].
    rewrite kind_of_zero, (inline_content_of k items Hmixed Hinline) in Hr. exact Hr.
Qed.

Lemma C4_mixed_content_in_document_order_witness :
  exists p h,
    UnmarshalXML (NStyleType StyleType0) (mkDecoder inline_markup EOF) (mkStart (plain "p") [])
    = Ret (None, p, h)
    /\ reads h (CNode 0)
         (Tree (plain "p") ""
            [Tree Name0 "text-a" [];
             Tree (plain "strong") "" [Tree Name0 "bold" []];
             Tree Name0 "text-b" []]).
Proof.
  exact (C4_mixed_content_in_document_order KStyleType (plain "p") []
           [IText "text-a"; IElem (plain "strong") [] [IText "bold"]; IText "text-b"]
           eq_refl eq_refl).
Defined.

(** In a table no text is kept, the [id] child goes to no list, and the
    rows go to the list [GetContent] returns. *)
Lemma table_content (l : list item) :
  forallb (markup KTable) l = true ->
  forall b,
    content_list (content_item KTable) b l
    = map (fun r => Tree (item_name r) "" (content_of KTR (item_children r))) (rows l)
    /\ Forall (fun r => forallb (markup KTR) (item_children r) = true) (rows l).
Proof.
  unfold rows.
  induction l as [|[cd | name attrs children] l IH]; intros Hm b.
  - split; [reflexivity | constructor].
  - cbn [forallb] in Hm. apply andb_true_iff in Hm as [_ Hm].
    cbn [content_list content_item is_mixed List.filter named app is_nil negb].
    rewrite orb_false_r. apply IH, Hm.
  - cbn [forallb markup] in Hm. apply andb_true_iff in Hm as [Hm1 Hm2].
    cbn [content_list content_item List.filter named existsb child_kind after_content_only]
      in Hm1 |- *.
    destruct (Local name =? "id") eqn:Hid.
    + apply String.eqb_eq in Hid. rewrite Hid. cbn [andb app is_nil negb String.eqb
        Ascii.eqb Bool.eqb orb]. rewrite orb_false_r. apply IH, Hm2.
    + destruct (Local name =? "tr") eqn:Htr; [|discriminate Hm1].
      cbn [andb orb negb app is_nil map item_name item_children].
      rewrite orb_true_r. cbn [andb].
      rewrite (proj1 (IH Hm2 _)).
      split; [reflexivity | constructor; [assumption | apply (IH Hm2 b)]].
Qed.

(** In a row no text is kept and the cells go to the content list. *)
Lemma row_content (l : list item) :
  forallb (markup KTR) l = true ->
  forall b,
    content_list (content_item KTR) b l
    = map (fun c => Tree (item_name c) "" (content_of KTD (item_children c)))
          (List.filter (named ["th"; "td"]) l).
Proof.
  induction l as [|[cd | name attrs children] l IH]; intros Hm b.
  - reflexivity.
  - cbn [forallb] in Hm. apply andb_true_iff in Hm as [_ Hm].
    cbn [content_list content_item is_mixed List.filter named app is_nil negb].
    rewrite orb_false_r. apply IH, Hm.
  - cbn [forallb markup] in Hm. apply andb_true_iff in Hm as [Hm1 Hm2].
    cbn [content_list content_item List.filter named existsb child_kind after_content_only]
      in Hm1 |- *.
    rewrite orb_false_r.
    destruct ((Local name =? "th") || (Local name =? "td")); [|discriminate Hm1].
    cbn [andb orb negb app is_nil map item_name item_children].
    rewrite orb_true_r. cbn [andb]. rewrite (IH Hm2). reflexivity.
Qed.

Lemma table_reads (h : heap) (c : Contenter) (name : Name) (l : list item) :
  forallb (markup KTable) l = true ->
  reads h c (Tree name "" (content_of KTable l)) ->
  Forall2 (cells_read h) (GetContent h c) (rows l).
Proof.
  intros Hm Hr. apply reads_unfold in Hr as (_ & _ & Hrows).
  destruct (table_content l Hm false) as [Hc Hall].
  unfold content_of in Hrows. rewrite Hc in Hrows. clear Hc Hm.
  revert Hrows Hall. generalize (GetContent h c) as rows'. generalize (rows l) as rs.
  induction rs as [|r rs IH]; intros rows' Hrows Hall.
  - inversion Hrows; subst. constructor.
  - cbn [map] in Hrows. inversion Hrows as [|row t rows'' ts Hrow Hrest]; subst.
    inversion Hall as [|? ? Hr1 Hr2]; subst.
    constructor; [|apply IH; assumption].
    apply reads_unfold in Hrow as (Hn & _ & Hcells).
    unfold content_of in Hcells at 1. rewrite (row_content _ Hr1) in Hcells.
    split; [exact Hn|]. unfold cells.
    clear - Hcells. revert Hcells. generalize (GetContent h row) as cells'.
    generalize (List.filter (named ["th"; "td"]) (item_children r)) as cs.
    induction cs as [|c cs IHc]; intros cells' Hcells.
    + inversion Hcells; subst. constructor.
    + cbn [map] in Hcells. inversion Hcells; subst. constructor; [assumption|].
      apply IHc; assumption.
Qed.

Lemma cells_read_lengths (h : heap) (rs' : list Contenter) (rs : list item) :
  Forall2 (cells_read h) rs' rs ->
  map (fun row => length (GetContent h row)) rs'
  = map (fun r => length (cells r)) rs.
Proof.
  induction 1 as [|row r rs' rs [_ Hcells] _ IH]; [reflexivity|].
  cbn [map]. rewrite IH. f_equal. apply (Forall2_length _ _ _ Hcells).
Qed.

(** C9, as the code has it.  A table in the vocabulary (an [id], rows,
    cells of inline markup, text anywhere) whose [tr] children are two,
    each with three [td] or [th] children, parses to a table whose
    [GetContent] has length 2 and whose rows each have a [GetContent] of
    length 3; the rows are the [tr] children in document order and the
    cells of each row its cells in document order.  Text between the rows
    and cells, attributes and the content of the cells are free. *)
Theorem C9_table_rows_and_cells (name : Name) (attrs : list Attr) (l : list item) :
  forallb (markup KTable) l = true ->
  map (fun r => length (cells r)) (rows l) = [3; 3] ->
  exists p h,
    UnmarshalXML (NTable Table0) (mkDecoder (flat_map tokens l ++ [TEndElement name]) EOF)
                 (mkStart name attrs)
    = Ret (None, p, h)
    /\ length (GetContent h (CNode 0)) = 2
    /\ map (fun row => length (GetContent h row)) (GetContent h (CNode 0)) = [3; 3]
    /\ Forall2 (cells_read h) (GetContent h (CNode 0)) (rows l).
Proof.
  intros Hm Hshape.
  destruct (UnmarshalXML_reads (NTable Table0) name attrs l) as (p & h & Hp & _ & Hr);
    [discriminate | reflexivity | exact Hm |].
  cbn [kind_of] in Hr. pose proof (table_reads h (CNode 0) name l Hm Hr) as Hrows.
  exists p, h. split; [exact Hp|].
  pose proof (cells_read_lengths h _ _ Hrows) as Hlen. rewrite Hshape in Hlen.
  split; [|split; [exact Hlen | exact Hrows]].
  rewrite <- (length_map (fun row => length (GetContent h row))), Hlen. reflexivity.
Qed.

Lemma C9_table_rows_and_cells_witness :
  exists p h,
    UnmarshalXML (NTable Table0)
                 (mkDecoder (flat_map tokens two_by_three ++ [TEndElement (plain "table")]) EOF)
                 (mkStart (plain "table") [])
    = Ret (None, p, h)
    /\ length (GetContent h (CNode 0)) = 2
    /\ map (fun row => length (GetContent h row)) (GetContent h (CNode 0)) = [3; 3]
    /\ Forall2 (cells_read h) (GetContent h (CNode 0)) (rows two_by_three).
Proof.
  exact (C9_table_rows_and_cells (plain "table") [] two_by_three eq_refl eq_refl).
Defined.

(** C9 as stated fails on
    [<table><tr><td><foo><td/><td/></foo></td><td/><td/></tr><tr><td/><td/><td/></tr></table>],
    a table of two rows of three cells each: the cell refuses [foo] and
    the first [td] inside it, the close tag of that [td] closes the cell,
    the second [td] inside [foo] becomes a cell of the row, and the row
    ends with four cells. *)
Lemma C9_counterexample :
  map (fun r => length (cells r)) (rows cells_in_unknown_element) = [3; 3]
  /\ xml_Decoder [plain "table"]
       (flat_map tokens cells_in_unknown_element ++ [TEndElement (plain "table")])
     = mkDecoder (flat_map tokens cells_in_unknown_element ++ [TEndElement (plain "table")])
                 EOF
  /\ exists p h,
       UnmarshalXML (NTable Table0)
         (mkDecoder (flat_map tokens cells_in_unknown_element
                     ++ [TEndElement (plain "table")]) EOF)
         (mkStart (plain "table") [])
       = Ret (None, p, h)
       /\ length (GetContent h (CNode 0)) = 2
       /\ map (fun row => length (GetContent h row)) (GetContent h (CNode 0)) = [4; 3].
Proof.
  split; [reflexivity|]. split; [reflexivity|].
  eexists _, _. split; [vm_compute; reflexivity|]. split; reflexivity.
Qed.

(** * Further properties *)

(** ** The driver *)

Section DriverFacts.
Context {store ref : Type} `{!Node store ref}.


(** X2.  The loop of [parseDescription] stops at the first close tag
    whose local name is [description], whether [ParseToken] took that tag
    or refused it: what it leaves is what the dispatch of the tokens up to
    and including that tag leaves, and no token after it is read. *)
Theorem parseDescription_loop_stops (pre post : list Token) (t : Token) :
  forallb (fun x => negb (closes_description x)) pre = true ->
  closes_description t = true ->
  forall (fuel : nat) (p : Parser ref) (s : store),
    length pre < fuel ->
    parseDescription_loop fuel p (pre ++ t :: post) s = Some (dispatch p (pre ++ [t]) s).
Proof.
  intros Hpre Ht. induction pre as [|x pre IH]; intros fuel p s Hf.
  - destruct fuel as [|fuel]; [cbn in Hf; lia|].
    cbn [app parseDescription_loop dispatch].
    destruct (ParseToken p t s) as [[[e p1] s1]|]; [|reflexivity].
    rewrite Ht. reflexivity.
  - cbn [forallb] in Hpre. apply andb_prop in Hpre as [Hx Hpre].
    destruct fuel as [|fuel]; [cbn in Hf; lia|].
    cbn [app parseDescription_loop dispatch].
    destruct (ParseToken p x s) as [[[e p1] s1]|]; [|reflexivity].
    apply negb_true_iff in Hx. rewrite Hx.
    apply IH; [exact Hpre | cbn in Hf; lia].
Qed.

Lemma parseDescription_loop_nil (fuel : nat) (p : Parser ref) (s : store) :
  parseDescription_loop fuel p [] s = None.
Proof. induction fuel as [|fuel IH]; [reflexivity | exact IH]. Qed.

(** X3.  On a stream with no close tag named [description] that the
    parser gets through without a panic, the loop of [parseDescription]
    is never left: once the stream is over the decoder yields the nil
    token for ever, and no number of rounds ends the loop. *)
Theorem parseDescription_loop_runs_on (toks : list Token) :
  forallb (fun x => negb (closes_description x)) toks = true ->
  forall (fuel : nat) (p p' : Parser ref) (s s' : store),
    dispatch p toks s = Ret (p', s') ->
    parseDescription_loop fuel p toks s = None.
Proof.
  intros Hall. induction toks as [|x toks IH]; intros fuel p p' s s' Hd.
  - apply parseDescription_loop_nil.
  - cbn [forallb] in Hall. apply andb_prop in Hall as [Hx Hall].
    destruct fuel as [|fuel]; [reflexivity|].
    cbn [parseDescription_loop]. cbn [dispatch] in Hd.
    destruct (ParseToken p x s) as [[[e p1] s1]|]; [|discriminate Hd].
    apply negb_true_iff in Hx. rewrite Hx. exact (IH Hall fuel p1 p' s1 s' Hd).
Qed.

(** X4.  An element that the root refuses and that bears the name of the
    root closes the root: its open tag is refused and pushes nothing, its
    close tag matches the root, which is current, and with an empty stack
    leaves no node current.  The next close tag, the root's own in a
    well-formed document, then panics. *)
Theorem refused_child_named_as_the_root_panics
    (r : ref) (root : option ref) (e : StartElement) (closing : Name) (s s' : store)
    (nt : option ref) (err : error) :
  tagCallback r e s = (nt, Some err, s') ->
  GetXMLName r s' = StartName e ->
  dispatch (mkParser [] (Some r) root) [TStartElement e; TEndElement (StartName e)] s
  = Ret (mkParser [] None root, s')
  /\ dispatch (mkParser [] (Some r) root)
       [TStartElement e; TEndElement (StartName e); TEndElement closing] s
     = Panicked.
Proof.
  intros Ht Hn. cbn [dispatch ParseToken last stack first]. rewrite Ht.
  cbn [last stack first]. rewrite Hn, Name_eqb_refl. cbn. auto.
Qed.

(** Tokens that are no tags, with a node current: the text runs go to its
    [charDataCallback] one after the other, and nothing else happens. *)
Lemma dispatch_text_runs (toks : list Token) :
  forallb (fun t => negb (is_tag t)) toks = true ->
  forall (p : Parser ref) (r : ref) (s : store),
    last p = Some r ->
    dispatch p toks s
    = Ret (p, fold_left (fun s cd => snd (charDataCallback r cd s)) (text_runs toks) s).
Proof.
  induction toks as [|t toks IH]; intros Hall p r s Hl; [reflexivity|].
  cbn [forallb] in Hall. apply andb_prop in Hall as [Ht Hall].
  destruct t as [e|name|cd|c|tg i|dr]; try discriminate Ht;
    cbn [dispatch ParseToken]; try (rewrite (IH Hall p r s Hl); reflexivity).
  rewrite Hl. cbn [text_runs flat_map app fold_left].
  change (flat_map _ toks) with (text_runs toks).
  destruct (charDataCallback r cd s) as [[err|] s1]; cbn [snd]; apply (IH Hall p r s1 Hl).
Qed.

(** [ParseToken] never assigns [first]. *)
Lemma ParseToken_first (p p1 : Parser ref) (t : Token) (s s1 : store) (o : option error) :
  ParseToken p t s = Ret (o, p1, s1) -> first p1 = first p.
Proof.
  destruct t as [e|name|cd|c|tg i|d]; cbn [ParseToken].
  - unfold openNode. destruct (last p) as [l|].
    + destruct (tagCallback l e s) as [[nt [err|]] s2].
      * intros H; inversion H; reflexivity.
      * cbn [last]. destruct nt as [r|]; [|intros [=]].
        destruct (forwardAttrs _ _ _). intros H; inversion H; reflexivity.
    + cbn [last]. destruct (first p) as [r|] eqn:Hf; [|intros [=]].
      destruct (forwardAttrs _ _ _). intros H; inversion H; subst. cbn. auto.
  - destruct (last p) as [l|]; [|intros [=]].
    destruct (negb _); [intros H; inversion H; reflexivity|].
    destruct (rev (stack p)); intros H; inversion H; reflexivity.
  - destruct (last p) as [l|]; [|intros H; inversion H; reflexivity].
    destruct (charDataCallback l cd s) as [[err|] s2]; intros H; inversion H; reflexivity.
  - intros H; inversion H; reflexivity.
  - intros H; inversion H; reflexivity.
  - intros H; inversion H; reflexivity.
Qed.

(** With no node current and no root, a parser goes nowhere: it panics
    on a tag and lets the other tokens through. *)
Lemma dispatch_without_a_node (toks : list Token) :
  forall (p p' : Parser ref) (s s' : store),
    last p = None -> first p = None ->
    dispatch p toks s = Ret (p', s') -> last p' = None.
Proof.
  induction toks as [|t toks IH]; intros p p' s s' Hl Hf; cbn [dispatch].
  - intros H; inversion H; subst. exact Hl.
  - destruct t as [e|name|cd|c|tg i|d]; cbn [ParseToken]; rewrite ?Hl;
      try (apply IH; assumption).
    + unfold openNode. cbn [last]. rewrite Hf. intros [=].
    + intros [=].
Qed.

End DriverFacts.


Lemma parseDescription_loop_stops_witness :
  parseDescription_loop 4 (NewParser (Some 0))
    ([open_tag "section" []; open_tag "description" []]
     ++ close_tag "description" :: [open_tag "p" []]) [NSection Section0]
  = Some (dispatch (NewParser (Some 0))
            ([open_tag "section" []; open_tag "description" []] ++ [close_tag "description"])
            [NSection Section0]).
Proof.
  apply (parseDescription_loop_stops (store := heap) (ref := addr)
           [open_tag "section" []; open_tag "description" []] [open_tag "p" []]
           (close_tag "description") eq_refl eq_refl 4 (NewParser (Some 0)) [NSection Section0]).
  cbn. lia.
Defined.

Lemma parseDescription_loop_runs_on_witness :
  parseDescription_loop 100 (NewParser (Some 0))
    [open_tag "section" []; open_tag "p" []; close_tag "p"] [NSection Section0]
  = None.
Proof.
  eapply (parseDescription_loop_runs_on (store := heap) (ref := addr)
            [open_tag "section" []; open_tag "p" []; close_tag "p"] eq_refl 100
            (NewParser (Some 0))).
  vm_compute. reflexivity.
Defined.

Lemma refused_child_named_as_the_root_panics_witness :
  dispatch (mkParser [] (Some 0) (Some 0))
    [open_tag "p" []; close_tag "p"; close_tag "p"]
    [node_SetXMLName (plain "p") (NP P0)]
  = Panicked.
Proof.
  exact (proj2 (refused_child_named_as_the_root_panics (store := heap) (ref := addr)
                  0 (Some 0) (mkStart (plain "p") []) (plain "p")
                  [node_SetXMLName (plain "p") (NP P0)] _ _ _ eq_refl eq_refl)).
Defined.

(** ** The heap between two calls *)

Lemma evolves_refl (h : heap) : evolves h h.
Proof.
  split.
  - intros b n Hb. exists n, []. rewrite app_nil_r. auto.
  - intros b c Hn Hs. congruence.
Qed.

Lemma added_entry_later (h1 h2 h3 : heap) (k : kind) (c : Contenter) :
  evolves h2 h3 -> added_entry h1 h2 k c -> added_entry h1 h3 k c.
Proof.
  intros [E _]. destruct c as [cd|b]; cbn; [auto|].
  intros (Hn & m & Hm & Hk). split; [exact Hn|].
  destruct (E b m Hm) as (m' & cs & Hm' & Hk' & _).
  exists m'. rewrite Hk'. auto.
Qed.

Lemma added_entry_earlier (h1 h2 h3 : heap) (k : kind) (c : Contenter) :
  evolves h1 h2 -> added_entry h2 h3 k c -> added_entry h1 h3 k c.
Proof.
  intros [E _]. destruct c as [cd|b]; cbn; [auto|].
  intros (Hn & Hm). split; [|exact Hm].
  destruct (h1 !! b) as [n|] eqn:Hb; [|reflexivity].
  destruct (E b n Hb) as (n' & cs & Hn' & _). congruence.
Qed.

Lemma evolves_trans (h1 h2 h3 : heap) : evolves h1 h2 -> evolves h2 h3 -> evolves h1 h3.
Proof.
  intros E12 E23. pose proof E12 as [A12 B12]. pose proof E23 as [A23 B23]. split.
  - intros b n Hb.
    destruct (A12 b n Hb) as (n' & cs1 & Hn' & K1 & C1 & I1 & F1).
    destruct (A23 b n' Hn') as (n'' & cs2 & Hn'' & K2 & C2 & I2 & F2).
    exists n'', (cs1 ++ cs2). split; [exact Hn''|]. split; [congruence|].
    split; [rewrite C2, C1, app_assoc; reflexivity|]. split; [auto|].
    apply Forall_app. split.
    + eapply Forall_impl; [exact F1|]. intros c. apply added_entry_later. exact E23.
    + rewrite K1 in F2. eapply Forall_impl; [exact F2|]. intros c.
      apply added_entry_earlier. exact E12.
  - intros b c Hn Hc. destruct (h2 !! b) as [c'|] eqn:Hb.
    + destruct (B12 b c' Hn Hb) as (I1 & F1).
      destruct (A23 b c' Hb) as (c2 & cs & Hc2 & K2 & C2 & I2 & F2).
      assert (c2 = c) as -> by congruence.
      split; [auto|]. rewrite C2, K2. apply Forall_app. split.
      * eapply Forall_impl; [exact F1|]. intros x. apply added_entry_later. exact E23.
      * eapply Forall_impl; [exact F2|]. intros x. apply added_entry_earlier. exact E12.
    + destruct (B23 b c Hb Hc) as (I & F). split; [exact I|].
      eapply Forall_impl; [exact F|]. intros x. apply added_entry_earlier. exact E12.
Qed.

(** A node is replaced by itself with text added. *)
Lemma evolves_insert (h : heap) (a : addr) (n n' : node) (cs : list Contenter) :
  h !! a = Some n ->
  kind_of n' = kind_of n ->
  node_GetContent n' = node_GetContent n ++ cs ->
  (blank_image n = true -> blank_image n' = true) ->
  Forall (fun c => match c with
                   | CCharData _ => is_mixed (kind_of n) = true
                   | CNode _ => False
                   end) cs ->
  evolves h (<[a := n']> h).
Proof.
  intros Ha K C I F. split.
  - intros b m Hb. destruct (decide (b = a)) as [->|Hne].
    + assert (m = n) as -> by congruence.
      exists n', cs. split; [apply list_lookup_insert_eq; eapply lookup_lt_Some; exact Ha|].
      repeat (split; [assumption|]).
      eapply Forall_impl; [exact F|]. intros [cd|x]; cbn; [auto|tauto].
    + exists m, []. rewrite list_lookup_insert_ne by congruence.
      rewrite app_nil_r. auto.
  - intros b c Hn Hc. destruct (decide (b = a)) as [->|Hne]; [congruence|].
    rewrite list_lookup_insert_ne in Hc by congruence. congruence.
Qed.

(** A node creates a child, and holds it in its content list or in a
    slot. *)
Lemma evolves_alloc (h : heap) (a : addr) (n n1 c : node) (cs : list Contenter) :
  h !! a = Some n ->
  kind_of n1 = kind_of n ->
  node_GetContent n1 = node_GetContent n ++ cs ->
  (blank_image n = true -> blank_image n1 = true) ->
  node_GetContent c = [] ->
  blank_image c = true ->
  cs = [] \/ (cs = [CNode (length h)] /\ holds (kind_of n) (kind_of c) = true) ->
  evolves h (<[a := n1]> (h ++ [c])).
Proof.
  intros Ha K C I Cc Ic Hcs.
  assert (Hlt : a < length h) by (eapply lookup_lt_Some; exact Ha).
  assert (Hnew : <[a := n1]> (h ++ [c]) !! length h = Some c).
  { rewrite list_lookup_insert_ne by lia.
    rewrite lookup_app_r by lia. rewrite Nat.sub_diag. reflexivity. }
  split.
  - intros b m Hb. destruct (decide (b = a)) as [->|Hne].
    + assert (m = n) as -> by congruence.
      exists n1, cs. split.
      { apply list_lookup_insert_eq. rewrite length_app. cbn. lia. }
      repeat (split; [assumption|]).
      destruct Hcs as [->|[-> Hh]]; [constructor|].
      constructor; [|constructor]. cbn. split; [apply lookup_ge_None; lia|].
      exists c. split; [exact Hnew | exact Hh].
    + exists m, []. rewrite list_lookup_insert_ne by congruence.
      rewrite lookup_app_l by (eapply lookup_lt_Some; exact Hb).
      rewrite app_nil_r. auto.
  - intros b c0 Hn Hc. apply lookup_ge_None in Hn.
    rewrite list_lookup_insert_ne in Hc by lia.
    rewrite lookup_app_r in Hc by lia.
    destruct (b - length h) as [|k] eqn:Hk; cbn in Hc; [|try rewrite lookup_nil in Hc; discriminate].
    injection Hc as <-. split; [exact Ic|]. rewrite Cc. constructor.
Qed.

Lemma blank_image_other (n : node) : kind_of n <> KImage -> blank_image n = true.
Proof. destruct n; cbn; congruence. Qed.

Lemma node_SetXMLName_blank (name : Name) (n : node) :
  blank_image (node_SetXMLName name n) = blank_image n.
Proof. destruct n; reflexivity. Qed.

Lemma node_attrCallback_blank (n : node) (attr : Attr) :
  blank_image n = true -> blank_image (snd (node_attrCallback n attr)) = true.
Proof.
  destruct (node_attrCallback_same n attr) as (K & _ & _).
  destruct n; try (intros _; apply blank_image_other; rewrite K; discriminate).
  cbn. auto.
Qed.

Lemma node_charDataCallback_blank (n : node) (cd : CharData) :
  blank_image n = true -> blank_image (snd (node_charDataCallback n cd)) = true.
Proof. destruct n; cbn; auto. Qed.

(** An open tag that a node takes: the child is a new, zeroed node at the
    end of the heap, and the parent holds it in its content list or in a
    slot. *)
Lemma node_tagCallback_accepted (self : addr) (n n1 : node) (start : StartElement)
      (h h1 : heap) (r : option addr) :
  node_tagCallback self n start h = (r, None, n1, h1) ->
  exists c cs,
    r = Some (length h) /\ h1 = h ++ [c]
    /\ node_GetContent c = [] /\ blank_image c = true
    /\ kind_of n1 = kind_of n
    /\ node_GetContent n1 = node_GetContent n ++ cs
    /\ (cs = [] \/ (cs = [CNode (length h)] /\ holds (kind_of n) (kind_of c) = true)).
Proof.
  destruct n; cbn [node_tagCallback];
    unfold Title_tagCallback, Cite_tagCallback, Poem_tagCallback, Stanza_tagCallback,
      Epigraph_tagCallback, Annotation_tagCallback, Section_tagCallback,
      StyleType_tagCallback, StyleLinkType_tagCallback, Table_tagCallback, TR_tagCallback,
      new, baseNode_tagCallback;
    cbv zeta;
    repeat match goal with
           | |- context [if ?b then _ else _] => destruct b
           end;
    intros H; inversion H; subst;
    first [ solve [ eexists; exists [CNode (length h)];
                    split; [reflexivity|]; split; [reflexivity|];
                    cbn; rewrite ?map_app; repeat (split; [reflexivity|]);
                    right; split; reflexivity ]
          | solve [ eexists; exists [];
                    split; [reflexivity|]; split; [reflexivity|];
                    cbn; rewrite ?app_nil_r; repeat (split; [reflexivity|]);
                    left; reflexivity ] ].
Qed.

Lemma heap_SetXMLName_evolves (a : addr) (name : Name) (h : heap) :
  evolves h (heap_SetXMLName a name h).
Proof.
  unfold heap_SetXMLName. destruct (h !! a) as [n|] eqn:Ha; [|apply evolves_refl].
  destruct (node_SetXMLName_spec name n) as (K & _ & C).
  apply (evolves_insert h a n _ []); auto.
  - rewrite app_nil_r. exact C.
  - rewrite node_SetXMLName_blank. auto.
Qed.

Lemma heap_attrCallback_evolves (a : addr) (attr : Attr) (h : heap) :
  evolves h (snd (heap_attrCallback a attr h)).
Proof.
  unfold heap_attrCallback. destruct (h !! a) as [n|] eqn:Ha; [|apply evolves_refl].
  pose proof (node_attrCallback_same n attr) as (K & _ & C).
  pose proof (node_attrCallback_blank n attr) as I.
  destruct (node_attrCallback n attr) as [e n']. cbn [snd] in *.
  apply (evolves_insert h a n n' []); auto.
Qed.

Lemma heap_charDataCallback_evolves (a : addr) (cd : CharData) (h : heap) :
  evolves h (snd (heap_charDataCallback a cd h)).
Proof.
  unfold heap_charDataCallback. destruct (h !! a) as [n|] eqn:Ha; [|apply evolves_refl].
  assert (Hg : evolves h (snd (let '(e, n') := node_charDataCallback n cd in
                               (e, <[a := n']> h)))).
  { pose proof (node_charDataCallback_grows n cd) as (_ & K & _ & C).
    pose proof (node_charDataCallback_blank n cd) as I.
    destruct (node_charDataCallback n cd) as [e n']. cbn [snd] in *.
    apply (evolves_insert h a n n' _ Ha K C I).
    destruct (is_mixed (kind_of n)) eqn:Hm; repeat constructor. }
  destruct n; try exact Hg.
  unfold stringNode_charDataCallback.
  destruct (h !! stringNode_s x) as [[]|] eqn:Ht; try apply evolves_refl.
  cbn [snd]. eapply (evolves_insert h _ _ _ []); [exact Ht| | | |]; cbn; auto.
  rewrite app_nil_r. reflexivity.
Qed.

Lemma heap_tagCallback_evolves (a : addr) (start : StartElement) (h : heap) :
  evolves h (snd (heap_tagCallback a start h)).
Proof.
  unfold heap_tagCallback. destruct (h !! a) as [n|] eqn:Ha; [|apply evolves_refl].
  destruct (node_tagCallback a n start h) as [[[r e] n1] h1] eqn:Hn. cbn [snd].
  destruct e as [err|].
  - destruct (node_tagCallback_refused _ _ _ _ _ _ _ _ Hn) as (_ & _ & -> & ->).
    rewrite list_insert_id by exact Ha. apply evolves_refl.
  - destruct (node_tagCallback_accepted _ _ _ _ _ _ _ Hn)
      as (c & cs & _ & -> & Cc & Ic & K & C & Hcs).
    apply (evolves_alloc h a n n1 c cs); auto.
    intros _. destruct n; first [apply blank_image_other; rewrite K; discriminate
                                | cbn in Hn; discriminate Hn].
Qed.

Lemma forwardAttrs_evolves (r : addr) (attrs : list Attr) (h : heap) :
  evolves h (snd (forwardAttrs r attrs h)).
Proof.
  revert h. induction attrs as [|attr attrs IH]; intros h; [apply evolves_refl|].
  cbn [forwardAttrs attrCallback heap_Node].
  pose proof (heap_attrCallback_evolves r attr h) as E.
  destruct (heap_attrCallback r attr h) as [[err|] h1]; cbn [snd] in *; [exact E|].
  eapply evolves_trans; [exact E | apply IH].
Qed.

Lemma openNode_evolves (p p' : Parser addr) (e : StartElement) (h h' : heap)
      (o : option error) :
  openNode p e h = Ret (o, p', h') -> evolves h h'.
Proof.
  unfold openNode. destruct (last p) as [r|]; [|intros [=]].
  pose proof (forwardAttrs_evolves r (StartAttr e) (SetXMLName r (StartName e) h)) as E.
  destruct (forwardAttrs r (StartAttr e) (SetXMLName r (StartName e) h)) as [err h2].
  cbn [snd] in E. intros Heq; inversion Heq; subst.
  eapply evolves_trans; [apply heap_SetXMLName_evolves | exact E].
Qed.

Lemma ParseToken_evolves (p p' : Parser addr) (token : Token) (h h' : heap)
      (o : option error) :
  ParseToken p token h = Ret (o, p', h') -> evolves h h'.
Proof.
  destruct token as [e|name|cd|c|t i|d]; cbn [ParseToken];
    try (intros Heq; inversion Heq; subst; apply evolves_refl).
  - destruct (last p) as [l|]; [|apply openNode_evolves].
    pose proof (heap_tagCallback_evolves l e h) as E.
    cbn [tagCallback heap_Node].
    destruct (heap_tagCallback l e h) as [[nt [err|]] h1]; cbn [snd] in E.
    + intros Heq; inversion Heq; subst. exact E.
    + intros Heq. eapply evolves_trans; [exact E|]. eapply openNode_evolves. exact Heq.
  - destruct (last p) as [l|]; [|intros [=]].
    destruct (negb _); [intros Heq; inversion Heq; subst; apply evolves_refl|].
    destruct (rev (stack p)); intros Heq; inversion Heq; subst; apply evolves_refl.
  - destruct (last p) as [l|]; [|intros Heq; inversion Heq; subst; apply evolves_refl].
    pose proof (heap_charDataCallback_evolves l cd h) as E.
    cbn [charDataCallback heap_Node].
    destruct (heap_charDataCallback l cd h) as [[err|] h1]; cbn [snd] in E;
      intros Heq; inversion Heq; subst; exact E.
Qed.

Lemma dispatch_evolves (toks : list Token) :
  forall (p p' : Parser addr) (h h' : heap),
    dispatch p toks h = Ret (p', h') -> evolves h h'.
Proof.
  induction toks as [|t toks IH]; intros p p' h h'; cbn [dispatch].
  - intros Heq; inversion Heq; subst. apply evolves_refl.
  - destruct (ParseToken p t h) as [[[o p1] h1]|] eqn:Ht; [|intros [=]].
    intros Hd. eapply evolves_trans; [eapply ParseToken_evolves; exact Ht | eapply IH; exact Hd].
Qed.

Lemma Parse_evolves (p p' : Parser addr) (d : Decoder) (start : StartElement)
      (h h' : heap) (o : option error) :
  Parse p d start h = Ret (o, p', h') -> evolves h h'.
Proof.
  unfold Parse.
  destruct (ParseToken p (TStartElement start) h) as [[[o1 p1] h1]|] eqn:Ht; [|intros [=]].
  destruct (dispatch p1 (pending d) h1) as [[p2 h2]|] eqn:Hd; [|intros [=]].
  intros Heq.
  assert (h2 = h') as <- by (destruct (is_EOF (failure d)); inversion Heq; reflexivity).
  eapply evolves_trans; [eapply ParseToken_evolves; exact Ht | eapply dispatch_evolves; exact Hd].
Qed.

Lemma in_vocabulary_spec (h : heap) :
  in_vocabulary h = true <->
  forall b n, h !! b = Some n ->
    Forall (fun c => entry_in_vocabulary h (kind_of n) c = true) (node_GetContent n).
Proof.
  unfold in_vocabulary. rewrite forallb_forall. split.
  - intros H b n Hb. apply Forall_forall. intros c Hc.
    assert (Hin : In n h) by (apply list_elem_of_In, list_elem_of_lookup; eauto).
    specialize (H n Hin). rewrite forallb_forall in H. apply H, list_elem_of_In, Hc.
  - intros H n Hin. apply list_elem_of_In, list_elem_of_lookup in Hin as [b Hb].
    apply forallb_forall. intros c Hc. specialize (H b n Hb).
    rewrite Forall_forall in H. apply H, list_elem_of_In, Hc.
Qed.

Lemma in_vocabulary_evolves (h h' : heap) :
  evolves h h' -> in_vocabulary h = true -> in_vocabulary h' = true.
Proof.
  intros [A B]. rewrite !in_vocabulary_spec. intros W b n' Hb'.
  assert (Hadd : forall k c, added_entry h h' k c -> entry_in_vocabulary h' k c = true).
  { intros k [cd|x]; cbn; [auto|]. intros (_ & m & -> & Hh). exact Hh. }
  destruct (h !! b) as [n|] eqn:Hb.
  - destruct (A b n Hb) as (n2 & cs & Hn2 & K & C & _ & F).
    assert (n2 = n') as -> by congruence.
    rewrite C, K. apply Forall_app. split.
    + eapply Forall_impl; [exact (W b n Hb)|].
      intros [cd|x]; cbn; [auto|].
      destruct (h !! x) as [m|] eqn:Hx; [|discriminate].
      destruct (A x m Hx) as (m' & _ & -> & -> & _). auto.
    + eapply Forall_impl; [exact F|]. intros c. apply Hadd.
  - destruct (B b n' Hb Hb') as (_ & F).
    eapply Forall_impl; [exact F|]. intros c. apply Hadd.
Qed.

Lemma images_blank_evolves (h h' : heap) :
  evolves h h' -> images_blank h = true -> images_blank h' = true.
Proof.
  intros [A B]. unfold images_blank. rewrite !forallb_forall. intros W n' Hin.
  apply list_elem_of_In, list_elem_of_lookup in Hin as [b Hb'].
  destruct (h !! b) as [n|] eqn:Hb.
  - destruct (A b n Hb) as (n2 & cs & Hn2 & _ & _ & I & _).
    assert (n2 = n') as -> by congruence.
    apply I, W, list_elem_of_In, list_elem_of_lookup. eauto.
  - apply (B b n' Hb Hb').
Qed.

(** X5.  Whatever the tokens, a node of the content model stays where it
    is with the type it has, and what [GetContent] returned for it
    before is a prefix of what it returns after: entries are appended,
    never removed, replaced or reordered. *)
Theorem content_lists_only_grow
    (p p' : Parser addr) (toks : list Token) (h h' : heap) (b : addr) (n : node) :
  dispatch p toks h = Ret (p', h') ->
  h !! b = Some n ->
  exists n' cs,
    h' !! b = Some n'
    /\ kind_of n' = kind_of n
    /\ node_GetContent n' = node_GetContent n ++ cs.
Proof.
  intros Hd Hb. destruct (dispatch_evolves _ _ _ _ _ Hd) as [A _].
  destruct (A b n Hb) as (n' & cs & Hn' & K & C & _). eauto.
Qed.

Lemma content_lists_only_grow_witness :
  exists p' h',
    dispatch (mkParser [] (Some 0) (Some 0)) unknown_child_with_known_inside
             [node_SetXMLName (plain "section") (NSection Section0)] = Ret (p', h')
    /\ exists n' cs,
         h' !! 0 = Some n'
         /\ kind_of n' = KSection
         /\ node_GetContent n' = [] ++ cs.
Proof.
  eexists. eexists. split; [vm_compute; reflexivity|].
  exact (content_lists_only_grow (mkParser [] (Some 0) (Some 0))
           _ unknown_child_with_known_inside
           [node_SetXMLName (plain "section") (NSection Section0)] _ 0 _ eq_refl eq_refl).
Defined.

(** X6.  Whatever the tokens, also refused and unbalanced ones, the
    content lists stay within the vocabulary: a text run only in a node
    of a type that keeps text, and a child only of a type its parent can
    hold (a row in a table, a cell in a row, no link in a link, ...). *)
Theorem content_stays_in_vocabulary
    (p p' : Parser addr) (toks : list Token) (h h' : heap) :
  in_vocabulary h = true ->
  dispatch p toks h = Ret (p', h') ->
  in_vocabulary h' = true.
Proof.
  intros W Hd. exact (in_vocabulary_evolves h h' (dispatch_evolves _ _ _ _ _ Hd) W).
Qed.

(** X7.  [Image], the image of a section, has no
    [attrCallback] of its own: every attribute of such an element is
    refused, and whatever the tokens the five attribute fields of every
    [Image] created stay empty ([InlineImage] does store them). *)
Theorem image_attributes_are_never_stored
    (p p' : Parser addr) (toks : list Token) (h h' : heap) :
  images_blank h = true ->
  dispatch p toks h = Ret (p', h') ->
  images_blank h' = true.
Proof.
  intros W Hd. exact (images_blank_evolves h h' (dispatch_evolves _ _ _ _ _ Hd) W).
Qed.

(** X8.  On the content model [ParseToken] panics in two cases only,
    both with no node current: on a close tag, and on an open tag when
    the parser was made without a root.  No [tagCallback] of content.go
    returns a nil node without an error. *)
Theorem ParseToken_panics_iff (p : Parser addr) (token : Token) (h : heap) :
  ParseToken p token h = Panicked
  <-> last p = None
      /\ match token with
         | TEndElement _ => True
         | TStartElement _ => first p = None
         | _ => False
         end.
Proof.
  destruct token as [e|name|cd|c|t i|d]; cbn [ParseToken].
  - destruct (last p) as [l|] eqn:Hl.
    + split; [|intros [[=] _]].
      cbn [tagCallback heap_Node]. unfold heap_tagCallback.
      destruct (h !! l) as [n|] eqn:Hn; [|intros [=]].
      destruct (node_tagCallback l n e h) as [[[r [err|]] n1] h1] eqn:Ht; [intros [=]|].
      destruct (node_tagCallback_accepted _ _ _ _ _ _ _ Ht) as (c & cs & -> & _).
      unfold openNode. cbn [last].
      destruct (forwardAttrs _ _ _). intros [=].
    + unfold openNode. cbn [last]. destruct (first p) as [r|].
      * destruct (forwardAttrs _ _ _). split; [intros [=] | intros [_ [=]]].
      * split; auto.
  - destruct (last p) as [l|]; [|split; auto].
    split; [|intros [[=] _]].
    destruct (negb _); [intros [=]|]. destruct (rev (stack p)); intros [=].
  - split; [|intros [_ []]].
    destruct (last p) as [l|]; [|intros [=]].
    destruct (charDataCallback l cd h) as [[err|] h1]; intros [=].
  - split; [intros [=] | intros [_ []]].
  - split; [intros [=] | intros [_ []]].
  - split; [intros [=] | intros [_ []]].
Qed.

Lemma content_stays_in_vocabulary_witness :
  exists p' h',
    dispatch (NewParser (Some 0))
      (open_tag "section" [] :: unknown_child_named_as_parent) [NSection Section0]
    = Ret (p', h')
    /\ in_vocabulary h' = true.
Proof.
  eexists _, _. split; [vm_compute; reflexivity|].
  refine (content_stays_in_vocabulary (NewParser (Some 0)) _
            (open_tag "section" [] :: unknown_child_named_as_parent) [NSection Section0] _
            eq_refl _).
  vm_compute. reflexivity.
Defined.

Lemma image_attributes_are_never_stored_witness :
  exists p' h',
    dispatch (NewParser (Some 0))
      [open_tag "section" []; open_tag "image" [mkAttr (xlink "href") "#cover"];
       close_tag "image"; close_tag "section"] [NSection Section0]
    = Ret (p', h')
    /\ images_blank h' = true.
Proof.
  eexists _, _. split; [vm_compute; reflexivity|].
  refine (image_attributes_are_never_stored (NewParser (Some 0)) _
            [open_tag "section" []; open_tag "image" [mkAttr (xlink "href") "#cover"];
             close_tag "image"; close_tag "section"] [NSection Section0] _ eq_refl _).
  vm_compute. reflexivity.
Defined.

(** X9.  A parse rooted at a zeroed node of any type of the content
    model, on children in the vocabulary of that type, returns nil, leaves
    no node current, and reads back through [Contenter] as the root with
    the content of its children in document order: the children that go
    to the content list, each with its own content, and the text only where
    the type keeps it.  Titles, epigraphs and the like, which go to their
    slots, are not in it; an image in a section is in it only when the
    list holds something already; the [id] of a table is not in it. *)
Theorem structural_content_in_document_order
    (k : kind) (name : Name) (attrs : list Attr) (l : list item) :
  k <> KstringNode ->
  forallb (markup k) l = true ->
  exists p h,
    UnmarshalXML (zero k) (mkDecoder (flat_map tokens l ++ [TEndElement name]) EOF)
                 (mkStart name attrs)
    = Ret (None, p, h)
    /\ last p = None
    /\ reads h (CNode 0) (Tree name "" (content_of k l)).
Proof.
  intros Hns Hm.
  destruct (UnmarshalXML_reads (zero k) name attrs l) as (p & h & Hp & Hl & Hr).
  - rewrite kind_of_zero. exact Hns.
  - apply content_zero.
  - rewrite kind_of_zero. exact Hm.
  - rewrite kind_of_zero in Hr. eauto.
Qed.

Lemma structural_content_in_document_order_witness :
  exists p h,
    UnmarshalXML (NSection Section0)
      (mkDecoder (flat_map tokens a_section ++ [TEndElement (plain "section")]) EOF)
      (mkStart (plain "section") [])
    = Ret (None, p, h)
    /\ last p = None
    /\ reads h (CNode 0) (Tree (plain "section") "" (content_of KSection a_section)).
Proof.
  exact (structural_content_in_document_order KSection (plain "section") [] a_section
           ltac:(discriminate) eq_refl).
Defined.

(** ** Table.tagCallback and stringNode *)

(** X10.  The [id] child of a table: its node is a [stringNode] on
    [&t.ID], so the text of the element lands in the [ID] of the table
    (the last run, if there are several; the [ID] is kept if there is
    none), the rows are untouched, one node is created and the parser is
    back at the table. *)
Theorem Table_id_is_written_through_the_pointer
    (h : heap) (a : addr) (t : Table) (stk : list addr) (root : option addr)
    (name : Name) (attrs : list Attr) (cds : list CharData) :
  h !! a = Some (NTable t) ->
  Local name = "id" ->
  exists h',
    dispatch (mkParser stk (Some a) root)
      (TStartElement (mkStart name attrs) :: map TCharData cds ++ [TEndElement name]) h
    = Ret (mkParser stk (Some a) root, h')
    /\ h' !! a = Some (NTable (mkTable (Table_XMLName t) (Table_TR t)
                                 (List.last cds (Table_ID t)) (Table_Style t)
                                 (Table_emptyText t)))
    /\ node_GetContent (NTable t) = GetContent h' (CNode a)
    /\ length h' = S (length h).
Proof.
  intros Ha Hid.
  destruct (Table_id_element h a t stk root name attrs cds Ha Hid)
    as (h' & Hd & Ha' & Hlen & _).
  exists h'. split; [exact Hd|]. split; [exact Ha'|]. split; [|exact Hlen].
  cbn [GetContent]. rewrite Ha'. reflexivity.
Qed.

Lemma Table_id_is_written_through_the_pointer_witness :
  exists h',
    dispatch (mkParser [] (Some 0) (Some 0))
      (TStartElement (mkStart (plain "id") []) :: map TCharData ["t"; "42"]
       ++ [TEndElement (plain "id")]) [NTable Table0]
    = Ret (mkParser [] (Some 0) (Some 0), h')
    /\ h' !! 0 = Some (NTable (mkTable Name0 [] "42" "" baseNode0))
    /\ node_GetContent (NTable Table0) = GetContent h' (CNode 0)
    /\ length h' = 2.
Proof.
  exact (Table_id_is_written_through_the_pointer [NTable Table0] 0 Table0 [] (Some 0)
           (plain "id") [] ["t"; "42"] eq_refl eq_refl).
Defined.

(** ** attrCallback: what a refused attribute leaves *)


(** X11.  An attribute that a node of the content model refuses leaves
    the node exactly as it was, for every type but [TD]. *)
Theorem refused_attribute_leaves_the_node (n n' : node) (attr : Attr) (err : error) :
  kind_of n <> KTD ->
  node_attrCallback n attr = (Some err, n') ->
  n' = n.
Proof.
  intros Hk.
  destruct n; try (exfalso; apply Hk; reflexivity); cbn [node_attrCallback];
    unfold Title_attrCallback, P_attrCallback, Cite_attrCallback, Stanza_attrCallback,
      Epigraph_attrCallback, Annotation_attrCallback, Section_attrCallback,
      NamedStyleType_attrCallback, StyleType_attrCallback, Link_attrCallback,
      Table_attrCallback, TR_attrCallback, InlineImage_attrCallback, baseNode_attrCallback;
    split_ifs; intros H; inversion H; subst; try reflexivity;
    destruct x as []; cbn; try reflexivity;
    match goal with |- context [StyleType_mixed ?s] => destruct s; reflexivity end.
Qed.

Lemma refused_attribute_leaves_the_node_witness :
  snd (node_attrCallback (NSection Section0) (mkAttr (plain "style") "x")) = NSection Section0.
Proof.
  apply (refused_attribute_leaves_the_node (NSection Section0) _ (mkAttr (plain "style") "x")
           (UnexpectedAttr (plain "style"))); [discriminate | reflexivity].
Defined.



(** ** Text runs of a leaf *)

(** X13.  [Date.charDataCallback] assigns [StrValue]: when the text of a
    date comes in several runs (comments or processing instructions in
    between), the last run is what is kept. *)
Theorem Date_keeps_the_last_text_run (stk : list unit) (root : option unit)
    (toks : list Token) :
  forallb (fun t => negb (is_tag t)) toks = true ->
  forall d : Date,
    dispatch (mkParser stk (Some tt) root) toks d
    = Ret (mkParser stk (Some tt) root,
           mkDate (Date_Value d) (Date_Lang d)
             (List.last (text_runs toks) (Date_StrValue d)) (Date_baseNode d)).
Proof.
  induction toks as [|t toks IH]; intros Hall d.
  - destruct d; reflexivity.
  - cbn [forallb] in Hall. apply andb_prop in Hall as [Ht Hall].
    destruct t as [e|name|cd|c|tg i|dr]; try discriminate Ht;
      cbn [dispatch ParseToken last charDataCallback Date_Node Date_charDataCallback];
      rewrite (IH Hall); try reflexivity.
    cbn [text_runs flat_map app Date_Value Date_Lang Date_StrValue Date_baseNode].
    change (flat_map _ toks) with (text_runs toks). rewrite last_cons. reflexivity.
Qed.

Lemma Date_keeps_the_last_text_run_witness :
  dispatch (mkParser [] (Some tt) (Some tt))
    [TCharData "May "; TComment "of"; TCharData "2001"] Date0
  = Ret (mkParser [] (Some tt) (Some tt), mkDate None "" "2001" baseNode0).
Proof.
  exact (Date_keeps_the_last_text_run [] (Some tt)
           [TCharData "May "; TComment "of"; TCharData "2001"] eq_refl Date0).
Defined.

Lemma Binary_charDataCallback_overwrites (b : Binary) (cd1 cd2 : CharData) :
  snd (Binary_charDataCallback (snd (Binary_charDataCallback b cd1)) cd2)
  = snd (Binary_charDataCallback b cd2).
Proof.
  unfold Binary_charDataCallback.
  destruct (base64_Decode (make_bytes (String.length cd1)) cd1) as [[v1 n1] [e1|]];
    destruct (base64_Decode (make_bytes (String.length cd2)) cd2) as [[v2 n2] [e2|]];
    reflexivity.
Qed.

(** X14.  [Binary.charDataCallback] decodes each text run by itself and
    assigns [Value]: when the content of a [binary] element comes in
    several runs, the value is what the callback makes of the last run
    alone, and the bytes of the earlier runs are lost. *)
Theorem Binary_keeps_the_last_text_run (stk : list unit) (root : option unit)
    (toks : list Token) :
  forallb (fun t => negb (is_tag t)) toks = true ->
  forall b : Binary,
    dispatch (mkParser stk (Some tt) root) toks b
    = Ret (mkParser stk (Some tt) root,
           List.last (map (fun cd => snd (Binary_charDataCallback b cd)) (text_runs toks)) b).
Proof.
  induction toks as [|t toks IH]; intros Hall b.
  - reflexivity.
  - cbn [forallb] in Hall. apply andb_prop in Hall as [Ht Hall].
    destruct t as [e|name|cd|c|tg i|dr]; try discriminate Ht;
      cbn [dispatch ParseToken last charDataCallback Binary_Node];
      try (rewrite (IH Hall); reflexivity).
    destruct (Binary_charDataCallback b cd) as [e b1] eqn:Hcb.
    assert (Hdis : dispatch (mkParser stk (Some tt) root) toks b1
                   = Ret (mkParser stk (Some tt) root,
                          List.last (map (fun cd' => snd (Binary_charDataCallback b cd'))
                                       (text_runs (TCharData cd :: toks))) b)).
    { rewrite (IH Hall).
      cbn [text_runs flat_map app map]. change (flat_map _ toks) with (text_runs toks).
      rewrite last_cons, Hcb. cbn [snd].
      do 3 f_equal. apply map_ext. intros cd'.
      replace b1 with (snd (Binary_charDataCallback b cd)) by (rewrite Hcb; reflexivity).
      apply Binary_charDataCallback_overwrites. }
    destruct e; exact Hdis.
Qed.

Lemma Binary_keeps_the_last_text_run_witness :
  dispatch (mkParser [] (Some tt) (Some tt))
    [TCharData "QUJD"; TComment "c"; TCharData "REVG"] Binary0
  = Ret (mkParser [] (Some tt) (Some tt), mkBinary baseNode0 "" "" "DEF").
Proof.
  exact (Binary_keeps_the_last_text_run [] (Some tt)
           [TCharData "QUJD"; TComment "c"; TCharData "REVG"] eq_refl Binary0).
Defined.

(** ** Binary.charDataCallback: line breaks in the content *)

Lemma isNewline_decodeMap (c : ascii) : isNewline c = true -> decodeMap c = None.
Proof.
  unfold isNewline, decodeMap. intros H. apply orb_prop in H as [H|H];
    apply N.eqb_eq in H; rewrite H; reflexivity.
Qed.

Lemma isNewline_padChar (c : ascii) : isNewline c = true -> Ascii.eqb c padChar = false.
Proof.
  intros H. apply Ascii.eqb_neq. intros ->. vm_compute in H. discriminate H.
Qed.

(** [skipNewlines] stops at the first character of the stripped string. *)
Lemma skipNewlines_strip (s : string) :
  forall si,
    match fst (skipNewlines s si) with
    | EmptyString => strip_newlines s = EmptyString
    | String c r => isNewline c = false /\ strip_newlines s = String c (strip_newlines r)
    end.
Proof.
  induction s as [|c s IH]; intros si; cbn [skipNewlines strip_newlines]; [reflexivity|].
  destruct (isNewline c) eqn:Hc; [apply IH|].
  cbn [fst]. rewrite Hc. auto.
Qed.

Lemma skipNewlines_stripped (s : string) (si : nat) :
  skipNewlines (strip_newlines s) si = (strip_newlines s, si).
Proof.
  induction s as [|c s IH]; cbn [strip_newlines]; [reflexivity|].
  destruct (isNewline c) eqn:Hc; [exact IH|].
  cbn [skipNewlines]. rewrite Hc. reflexivity.
Qed.

Lemma finishPadded_strip (rest : string) (si si' j : nat) (dbuf : list N) :
  same_quantum (finishPadded rest si j dbuf)
               (finishPadded (strip_newlines rest) si' j dbuf).
Proof.
  unfold finishPadded. rewrite skipNewlines_stripped.
  pose proof (skipNewlines_strip rest si) as Hs.
  destruct (skipNewlines rest si) as [r1 s1]. cbn [fst] in Hs.
  destruct r1 as [|c r1].
  - rewrite Hs. repeat split; auto.
  - destruct Hs as [Hc ->]. unfold same_quantum. cbn [fst snd strip_newlines].
    rewrite Hc. repeat split; intros [=].
Qed.

Lemma decodeQuantum_strip (src : string) :
  forall si si' j dbuf,
    same_quantum (decodeQuantum src si j dbuf)
                 (decodeQuantum (strip_newlines src) si' j dbuf).
Proof.
  induction src as [|c rest IH]; intros si si' j dbuf; cbn [strip_newlines].
  - cbn [decodeQuantum]. destruct j; repeat split; auto; intros [=].
  - destruct (isNewline c) eqn:Hnl.
    + cbn [decodeQuantum]. rewrite (isNewline_decodeMap c Hnl), Hnl. apply IH.
    + cbn [decodeQuantum]. rewrite Hnl.
      destruct (decodeMap c) as [out|].
      * destruct (Nat.eqb j 3); [repeat split; auto | apply IH].
      * destruct (negb (Ascii.eqb c padChar)); [repeat split; auto; intros [=]|].
        destruct j as [|[|[|j]]]; try (repeat split; auto; intros [=]).
        -- rewrite skipNewlines_stripped.
           pose proof (skipNewlines_strip rest (S si)) as Hs.
           destruct (skipNewlines rest (S si)) as [r1 s1]. cbn [fst] in Hs.
           destruct r1 as [|c1 r1].
           ++ rewrite Hs. repeat split; auto; intros [=].
           ++ destruct Hs as [Hc1 ->].
              destruct (negb (Ascii.eqb c1 padChar)).
              ** unfold same_quantum. cbn [fst snd strip_newlines]. rewrite Hc1.
                 repeat split; intros [=].
              ** apply finishPadded_strip.
        -- apply finishPadded_strip.
Qed.

(** A quantum takes at least one character of a non-empty input. *)
Lemma decodeQuantum_rest (src : string) :
  forall si j dbuf,
    String.length (fst (fst (fst (decodeQuantum src si j dbuf)))) <= String.length src.
Proof.
  intros si j dbuf. pose proof (decodeQuantum_length src si j dbuf) as H.
  induction src as [|c rest IH] in si, j, dbuf, H |- *; cbn [decodeQuantum].
  - destruct j; cbn; lia.
  - destruct (decodeMap c) as [out|].
    + destruct (Nat.eqb j 3); [cbn; lia|].
      specialize (IH (S si) (S j) (dbuf ++ [out])
                    (decodeQuantum_length rest (S si) (S j) (dbuf ++ [out]))).
      cbn [String.length]. lia.
    + destruct (isNewline c).
      * specialize (IH (S si) j dbuf (decodeQuantum_length rest (S si) j dbuf)).
        cbn [String.length]. lia.
      * destruct (negb (Ascii.eqb c padChar)); [cbn; lia|].
        assert (Hf : forall r s k, String.length (fst (fst (fst (finishPadded r s k dbuf))))
                                   <= String.length r).
        { intros r s k. unfold finishPadded.
          pose proof (skipNewlines_length r s) as Hs.
          destruct (skipNewlines r s) as [r1 s1]. cbn [fst] in Hs.
          destruct r1; cbn [fst String.length] in *; lia. }
        destruct j as [|[|[|j]]]; try (cbn; lia).
        -- pose proof (skipNewlines_length rest (S si)) as Hs.
           destruct (skipNewlines rest (S si)) as [r1 s1]. cbn [fst] in Hs.
           destruct r1 as [|c1 r1]; [cbn in *; lia|].
           destruct (negb (Ascii.eqb c1 padChar)); [cbn in *; lia|].
           specialize (Hf r1 (S s1) 2). cbn [String.length] in *. lia.
        -- specialize (Hf rest (S si) (S (S (S j)))). cbn [String.length]. lia.
Qed.

Lemma decodeQuantum_consumes (c : ascii) (rest : string) (si : nat) :
  String.length (fst (fst (fst (decodeQuantum (String c rest) si 0 [])))) <= String.length rest.
Proof.
  cbn [decodeQuantum].
  destruct (decodeMap c) as [out|].
  - cbn [Nat.eqb]. apply decodeQuantum_rest.
  - destruct (isNewline c); [apply decodeQuantum_rest|].
    destruct (negb (Ascii.eqb c padChar)); cbn; lia.
Qed.

Lemma decodeLoop_strip (fuel : nat) :
  forall src si fuel' si',
    String.length src <= fuel ->
    String.length (strip_newlines src) <= fuel' ->
    fst (decodeLoop fuel src si) = fst (decodeLoop fuel' (strip_newlines src) si')
    /\ (snd (decodeLoop fuel src si) = None
        <-> snd (decodeLoop fuel' (strip_newlines src) si') = None).
Proof.
  induction fuel as [|fuel IH]; intros src si fuel' si' Hf Hf'.
  - destruct src; [|cbn in Hf; lia]. cbn [strip_newlines]. rewrite !decodeLoop_empty. cbn. tauto.
  - destruct src as [|c rest]; [cbn [strip_newlines]; rewrite !decodeLoop_empty; cbn; tauto|].
    cbn [decodeLoop].
    pose proof (decodeQuantum_strip (String c rest) si si' 0 []) as (Hr & Hw & He).
    pose proof (decodeQuantum_consumes c rest si) as Hlen.
    destruct (decodeQuantum (String c rest) si 0 []) as [[[r1 s1] w1] e1].
    cbn [fst snd] in Hr, Hw, He, Hlen. cbn [String.length] in Hf.
    destruct (strip_newlines (String c rest)) as [|c' rest'] eqn:Hstrip.
    + cbn [decodeQuantum] in Hr, Hw, He. cbn [fst snd] in Hr, Hw, He.
      rewrite decodeLoop_empty.
      destruct e1 as [e|]; [exfalso; destruct He as [_ He]; discriminate (He eq_refl)|].
      destruct (IH r1 s1 fuel' si' ltac:(lia) ltac:(rewrite Hr; cbn; lia)) as [I1 I2].
      rewrite Hr, decodeLoop_empty in I1, I2.
      destruct (decodeLoop fuel r1 s1) as [more e]. cbn [fst snd] in *.
      subst w1 more. split; [reflexivity | exact I2].
    + destruct fuel' as [|fuel']; [cbn in Hf'; lia|].
      cbn [decodeLoop].
      pose proof (decodeQuantum_consumes c' rest' si') as Hlen'.
      destruct (decodeQuantum (String c' rest') si' 0 []) as [[[r2 s2] w2] e2].
      cbn [fst snd] in Hr, Hw, He, Hlen'. cbn [String.length] in Hf'. subst w2 r2.
      destruct e1 as [e|], e2 as [e'|];
        try (exfalso; destruct He as [He1 He2];
             first [discriminate (He1 eq_refl) | discriminate (He2 eq_refl)]).
      * cbn. split; [reflexivity|]. split; intros [=].
      * destruct (IH r1 s1 fuel' s2 ltac:(lia) ltac:(lia)) as [I1 I2].
        destruct (decodeLoop fuel r1 s1) as [more e].
        destruct (decodeLoop fuel' (strip_newlines r1) s2) as [more' e'].
        cbn [fst snd] in *. subst more'. split; [reflexivity | exact I2].
Qed.

(** X15.  Line breaks in the content of a [binary] element do not count:
    the content decodes without error to a value exactly when the content
    without its carriage returns and line feeds does, and to the same
    value. *)
Theorem Binary_line_breaks_do_not_count (b b' : Binary) (cd : CharData) :
  Binary_charDataCallback b cd = (None, b')
  <-> Binary_charDataCallback b (strip_newlines cd) = (None, b').
Proof.
  unfold Binary_charDataCallback, base64_Decode.
  destruct (decodeLoop_strip (String.length cd) cd 0 (String.length (strip_newlines cd)) 0
              (le_n _) (le_n _)) as [Hw He].
  pose proof (decodeLoop_length (String.length cd) cd 0) as L1.
  pose proof (decodeLoop_length (String.length (strip_newlines cd)) (strip_newlines cd) 0) as L2.
  destruct (decodeLoop (String.length cd) cd 0) as [w1 e1].
  destruct (decodeLoop (String.length (strip_newlines cd)) (strip_newlines cd) 0) as [w2 e2].
  cbn [fst snd] in *. subst w2.
  destruct e1 as [e|], e2 as [e'|];
    try (exfalso; destruct He as [He1 He2];
         first [discriminate (He1 eq_refl) | discriminate (He2 eq_refl)]).
  - split; intros [=].
  - rewrite !substring_prefix. tauto.
Qed.

Lemma substring_make_bytes (n m : nat) : substring n m (make_bytes (n + m)) = make_bytes m.
Proof.
  induction n as [|n IH]; cbn [Nat.add make_bytes substring].
  - induction m as [|m IHm]; cbn [make_bytes substring]; [reflexivity | rewrite IHm; reflexivity].
  - exact IH.
Qed.

Lemma string_app_nil_r (s : string) : (s ++ "")%string = s.
Proof. induction s as [|c s IH]; cbn; [reflexivity | rewrite IH; reflexivity]. Qed.

Lemma string_app_assoc (a b c : string) : ((a ++ b) ++ c)%string = (a ++ (b ++ c))%string.
Proof. induction a as [|x a IH]; cbn; [reflexivity | rewrite IH; reflexivity]. Qed.

(** The line breaks [skipNewlines] goes over. *)
Lemma skipNewlines_split (s : string) :
  forall si s' si',
    skipNewlines s si = (s', si') ->
    exists nl,
      s = (nl ++ s')%string
      /\ skipNewlines nl si = ("", si')
      /\ (forall c y, isNewline c = false ->
            skipNewlines (nl ++ String c y) si = (String c y, si')).
Proof.
  induction s as [|c s IH]; intros si s' si'; cbn [skipNewlines].
  - intros [= <- <-]. exists "". cbn. repeat split.
    intros c y Hc. rewrite Hc. reflexivity.
  - destruct (isNewline c) eqn:Hn.
    + intros H. destruct (IH _ _ _ H) as (nl & -> & Hnl & Hgo).
      exists (String c nl). cbn [append skipNewlines]. rewrite Hn. auto.
    + intros [= <- <-]. exists "". cbn. repeat split.
      intros c' y Hc. rewrite Hc. reflexivity.
Qed.

Lemma padChar_no_newline (c : ascii) : Ascii.eqb c padChar = true -> isNewline c = false.
Proof. intros H. apply Ascii.eqb_eq in H. subst c. reflexivity. Qed.

Lemma finishPadded_refused (r : string) (si j : nat) (dbuf : list N)
      (rest : string) (si' : nat) (w : string) (e : error) :
  finishPadded r si j dbuf = ((rest, si'), w, Some e) ->
  exists nl, r = (nl ++ rest)%string
             /\ finishPadded nl si j dbuf = (("", si'), w, None).
Proof.
  unfold finishPadded. destruct (skipNewlines r si) as [r3 s3] eqn:Hs.
  destruct (skipNewlines_split _ _ _ _ Hs) as (nl & -> & Hnl & _).
  destruct r3 as [|c3 r3]; [intros [=]|]. intros [= <- <- <- _].
  exists nl. rewrite Hnl. auto.
Qed.

Lemma finishPadded_accepted (r : string) (si j : nat) (dbuf : list N)
      (rest : string) (si' : nat) (w : string) :
  finishPadded r si j dbuf = ((rest, si'), w, None) -> rest = "".
Proof.
  unfold finishPadded. destruct (skipNewlines r si) as [r3 s3].
  destruct r3; intros [=]; subst; reflexivity.
Qed.

(** A quantum that is refused after bytes were written is a padded
    quantum followed by something: up to there it is accepted. *)
Lemma decodeQuantum_refused (src : string) :
  forall si j dbuf rest si' w e,
    decodeQuantum src si j dbuf = ((rest, si'), w, Some e) ->
    w = ""
    \/ exists pre post si'',
         src = (pre ++ post)%string
         /\ decodeQuantum pre si j dbuf = (("", si''), w, None).
Proof.
  induction src as [|c r IH]; intros si j dbuf rest si' w e; cbn [decodeQuantum].
  - destruct j; intros [=]; auto.
  - destruct (decodeMap c) as [out|] eqn:Hmap.
    + destruct (Nat.eqb j 3) eqn:Hj; [intros [=]|].
      intros H. destruct (IH _ _ _ _ _ _ _ H) as [Hw | (pre & post & si'' & -> & Hpre)];
        [auto|].
      right. exists (String c pre), post, si''. split; [reflexivity|].
      cbn [decodeQuantum]. rewrite Hmap, Hj. exact Hpre.
    + destruct (isNewline c) eqn:Hn.
      * intros H. destruct (IH _ _ _ _ _ _ _ H) as [Hw | (pre & post & si'' & -> & Hpre)];
          [auto|].
        right. exists (String c pre), post, si''. split; [reflexivity|].
        cbn [decodeQuantum]. rewrite Hmap, Hn. exact Hpre.
      * destruct (negb (Ascii.eqb c padChar)) eqn:Hpad; [intros [= _ _ <- _]; auto|].
        destruct j as [|[|[|j]]]; try (intros [= _ _ <- _]; auto; fail).
        -- destruct (skipNewlines r (S si)) as [r' s'] eqn:Hs.
           destruct (skipNewlines_split _ _ _ _ Hs) as (nl & -> & _ & Hgo).
           destruct r' as [|c' r'']; [intros [= _ _ <- _]; auto|].
           destruct (negb (Ascii.eqb c' padChar)) eqn:Hpad'; [intros [= _ _ <- _]; auto|].
           apply negb_false_iff in Hpad'.
           intros H. destruct (finishPadded_refused _ _ _ _ _ _ _ _ H) as (nl' & -> & Hfin).
           right. exists (String c (nl ++ String c' nl')), rest, si'. split.
           { cbn [append]. rewrite string_app_assoc. reflexivity. }
           cbn [decodeQuantum]. rewrite Hmap, Hn, Hpad.
           rewrite (Hgo c' nl' (padChar_no_newline _ Hpad')), Hpad'. cbn [negb]. exact Hfin.
        -- intros H. destruct (finishPadded_refused _ _ _ _ _ _ _ _ H) as (nl' & -> & Hfin).
           right. exists (String c nl'), rest, si'. split; [reflexivity|].
           cbn [decodeQuantum]. rewrite Hmap, Hn, Hpad. exact Hfin.
Qed.

(** A quantum that is accepted with input left is a quantum of four
    characters, whatever follows it. *)
Lemma decodeQuantum_accepted (src : string) :
  forall si j dbuf rest si' w,
    decodeQuantum src si j dbuf = ((rest, si'), w, None) ->
    rest <> "" ->
    exists pre,
      src = (pre ++ rest)%string
      /\ forall x, decodeQuantum (pre ++ x) si j dbuf = ((x, si'), w, None).
Proof.
  induction src as [|c r IH]; intros si j dbuf rest si' w; cbn [decodeQuantum].
  - destruct j; intros [=]; subst; congruence.
  - destruct (decodeMap c) as [out|] eqn:Hmap.
    + destruct (Nat.eqb j 3) eqn:Hj.
      * remember (quantumBytes (dbuf ++ [out]) 4) as q eqn:Hq.
        intros H _. injection H as <- <- <-. exists (String c ""). split; [reflexivity|].
        intros x. cbn [append decodeQuantum]. rewrite Hmap, Hj, <- Hq. reflexivity.
      * intros H Hne. destruct (IH _ _ _ _ _ _ H Hne) as (pre & -> & Hpre).
        exists (String c pre). split; [reflexivity|].
        intros x. cbn [append decodeQuantum]. rewrite Hmap, Hj. apply Hpre.
    + destruct (isNewline c) eqn:Hn.
      * intros H Hne. destruct (IH _ _ _ _ _ _ H Hne) as (pre & -> & Hpre).
        exists (String c pre). split; [reflexivity|].
        intros x. cbn [append decodeQuantum]. rewrite Hmap, Hn. apply Hpre.
      * destruct (negb (Ascii.eqb c padChar)); [intros [=]|].
        destruct j as [|[|[|j]]]; try (intros [=]; fail).
        -- destruct (skipNewlines r (S si)) as [r' s'].
           destruct r' as [|c' r'']; [intros [=]|].
           destruct (negb (Ascii.eqb c' padChar)); [intros [=]|].
           intros H Hne. exfalso. apply Hne. exact (finishPadded_accepted _ _ _ _ _ _ _ H).
        -- intros H Hne. exfalso. apply Hne. exact (finishPadded_accepted _ _ _ _ _ _ _ H).
Qed.

Lemma decodeLoop_fuel (f1 : nat) :
  forall f2 src si,
    String.length src <= f1 -> String.length src <= f2 ->
    decodeLoop f1 src si = decodeLoop f2 src si.
Proof.
  induction f1 as [|f1 IH]; intros f2 src si H1 H2.
  - destruct src; [|cbn in H1; lia]. rewrite !decodeLoop_empty. reflexivity.
  - destruct src as [|c r]; [rewrite !decodeLoop_empty; reflexivity|].
    destruct f2 as [|f2]; [cbn in H2; lia|].
    cbn [decodeLoop]. pose proof (decodeQuantum_consumes c r si) as Hlen.
    destruct (decodeQuantum (String c r) si 0 []) as [[[rest si'] w] [e|]]; [reflexivity|].
    cbn [fst String.length] in *. rewrite (IH f2 rest si') by lia. reflexivity.
Qed.

(** What [Decode] wrote when it stops with an error is the decoding of
    the input up to some point. *)
Lemma decodeLoop_refused (fuel : nat) :
  forall src si w e,
    String.length src <= fuel ->
    decodeLoop fuel src si = (w, Some e) ->
    exists pre post,
      src = (pre ++ post)%string /\ decodeLoop fuel pre si = (w, None).
Proof.
  induction fuel as [|fuel IH]; intros src si w e Hf; [intros [=]|].
  destruct src as [|c r]; [intros [=]|]. cbn [decodeLoop].
  pose proof (decodeQuantum_consumes c r si) as Hlen.
  destruct (decodeQuantum (String c r) si 0 []) as [[[rest si'] w1] e1] eqn:Hq.
  cbn [fst String.length] in *.
  destruct e1 as [e1|].
  - intros [= <- _].
    destruct (decodeQuantum_refused _ _ _ _ _ _ _ _ Hq) as [-> | (pre & post & si'' & Hsrc & Hpre)].
    + exists "", (String c r). split; reflexivity.
    + exists pre, post. split; [exact Hsrc|].
      destruct pre as [|c0 pre0].
      * cbn in Hpre. injection Hpre as _ <-. reflexivity.
      * cbn [decodeLoop]. rewrite Hpre, decodeLoop_empty, string_app_nil_r. reflexivity.
  - destruct (decodeLoop fuel rest si') as [more e2] eqn:Hrest. intros [= <- ->].
    assert (Hne : rest <> "").
    { intros ->. rewrite decodeLoop_empty in Hrest. discriminate Hrest. }
    destruct (IH rest si' more e ltac:(lia) Hrest) as (pre2 & post2 & Hsplit & Hpre2).
    destruct (decodeQuantum_accepted _ _ _ _ _ _ _ Hq Hne) as (pre1 & Hsrc & Hgo).
    exists (pre1 ++ pre2)%string, post2. split.
    { rewrite Hsrc, Hsplit, string_app_assoc. reflexivity. }
    destruct pre1 as [|c0 pre0].
    { exfalso. cbn [append] in Hsrc. rewrite <- Hsrc in Hlen. cbn in Hlen. lia. }
    cbn [append decodeLoop]. specialize (Hgo pre2). cbn [append] in Hgo.
    rewrite Hgo, Hpre2. reflexivity.
Qed.

(** X16.  Whenever [Binary.charDataCallback] returns an error, [Value]
    is the scratch buffer: the bytes the decoder wrote before the error,
    which are the value of the content up to some point in it, followed
    by zero bytes up to the length of the content, which is not empty;
    the other fields are kept. *)
Theorem Binary_refused_content_leaves_the_scratch_buffer
    (b b' : Binary) (cd : CharData) (e : error) :
  Binary_charDataCallback b cd = (Some e, b') ->
  exists valid rest written : string,
    cd = (valid ++ rest)%string
    /\ rest <> ""
    /\ Binary_charDataCallback b valid
       = (None, mkBinary (Binary_baseNode b) (Binary_ID b) (Binary_ContentType b) written)
    /\ decodeLoop (String.length cd) cd 0 = (written, Some e)
    /\ String.length written <= String.length cd
    /\ b' = mkBinary (Binary_baseNode b) (Binary_ID b) (Binary_ContentType b)
              (written ++ make_bytes (String.length cd - String.length written))%string
    /\ String.length (Binary_Value b') = String.length cd
    /\ cd <> "".
Proof.
  intros H. pose proof (Binary_error_keeps_buffer b b' cd e H) as [Hlen Hne].
  pose proof H as H0. revert H. unfold Binary_charDataCallback at 1. unfold base64_Decode.
  pose proof (decodeLoop_length (String.length cd) cd 0) as L.
  destruct (decodeLoop (String.length cd) cd 0) as [written err] eqn:Hloop. cbn [fst] in L.
  destruct err as [e'|]; [|intros [=]].
  intros [= <- <-].
  destruct (decodeLoop_refused _ _ _ _ _ (le_n _) Hloop) as (valid & rest & Hcd & Hvalid).
  assert (Hok : Binary_charDataCallback b valid
                = (None, mkBinary (Binary_baseNode b) (Binary_ID b) (Binary_ContentType b)
                           written)).
  { unfold Binary_charDataCallback, base64_Decode.
    rewrite (decodeLoop_fuel (String.length valid) (String.length cd) valid 0 (le_n _)),
      Hvalid by (rewrite Hcd, length_append; lia).
    rewrite substring_prefix. reflexivity. }
  exists valid, rest, written.
  split; [exact Hcd|]. split.
  { intros ->. rewrite string_app_nil_r in Hcd. subst valid. rewrite Hok in H0.
    discriminate H0. }
  split; [exact Hok|]. split; [reflexivity|]. split; [exact L|].
  split; [|split; [exact Hlen | exact Hne]].
  f_equal. f_equal.
  replace (String.length cd) with
    (String.length written + (String.length cd - String.length written)) at 2 by lia.
  rewrite length_make_bytes. apply substring_make_bytes.
Qed.

Lemma Binary_refused_content_leaves_the_scratch_buffer_witness :
  exists valid rest written : string,
    "QUJD!" = (valid ++ rest)%string
    /\ rest <> ""
    /\ Binary_charDataCallback Binary0 valid = (None, mkBinary baseNode0 "" "" written)
    /\ decodeLoop (String.length "QUJD!") "QUJD!" 0 = (written, Some (CorruptInputError 4))
    /\ String.length written <= String.length "QUJD!"
    /\ mkBinary baseNode0 "" "" ("ABC" ++ make_bytes 2)%string
       = mkBinary baseNode0 "" ""
           (written ++ make_bytes (String.length "QUJD!" - String.length written))%string
    /\ String.length (Binary_Value (mkBinary baseNode0 "" "" ("ABC" ++ make_bytes 2)%string))
       = String.length "QUJD!"
    /\ "QUJD!" <> "".
Proof.
  exact (Binary_refused_content_leaves_the_scratch_buffer Binary0 _ "QUJD!"
           (CorruptInputError 4) eq_refl).
Defined.

(** ** The content model below a node of the description *)

(** The children of an element whose node is current, named and with its
    attributes forwarded. *)
Lemma element_children_read (h : heap) (b : addr) (m : node) (name : Name)
      (attrs : list Attr) (children : list item) (stk : list addr) (rt : option addr) :
  h !! b = Some m ->
  kind_of m <> KstringNode ->
  node_GetContent m = [] ->
  forallb (markup (kind_of m)) children = true ->
  exists e h3 h4,
    forwardAttrs b attrs (heap_SetXMLName b name h) = (e, h3)
    /\ dispatch (mkParser stk (Some b) rt) (flat_map tokens children) h3
       = Ret (mkParser stk (Some b) rt, h4)
    /\ heap_GetXMLName b h4 = name
    /\ length h <= length h4
    /\ (forall c, c < length h -> c <> b -> h4 !! c = h !! c)
    /\ reads_in (Nat.min b (length h)) (length h4) h4 (CNode b)
         (Tree name "" (content_of (kind_of m) children)).
Proof.
  intros Hb Hns Hempty Hm.
  pose proof (lookup_lt_Some _ _ _ Hb) as Hlt.
  destruct (node_SetXMLName_spec name m) as (Hk2 & Hn2 & Hc2).
  assert (Hb2 : <[b := node_SetXMLName name m]> h !! b = Some (node_SetXMLName name m))
    by (apply list_lookup_insert_eq; exact Hlt).
  destruct (forwardAttrs_same b attrs _ _ Hb2) as (e & m3 & Hattrs & (Hk3 & Hn3 & Hc3)).
  rewrite app_nil_r in Hc3. rewrite list_insert_insert_eq in Hattrs.
  assert (Hkm3 : kind_of m3 = kind_of m) by (rewrite Hk3; exact Hk2).
  assert (Hl3 : <[b := m3]> h !! b = Some m3) by (apply list_lookup_insert_eq; exact Hlt).
  destruct (returns_items (kind_of m) children
              (proj2 (Forall_forall _ _) (fun i _ => returns_markup i)) Hns Hm
              (<[b := m3]> h) stk rt b m3 Hl3 Hkm3)
    as (h4 & m4 & cs & Hd4 & Hl4 & Hf4 & Hb4 & (Hk4 & Hn4 & Hc4) & Hr4).
  rewrite length_insert in Hl4, Hf4, Hr4.
  assert (Hempty3 : has_content m3 = false)
    by (unfold has_content; rewrite Hc3, Hc2, Hempty; reflexivity).
  rewrite Hempty3 in Hr4.
  assert (Hname4 : node_GetXMLName m4 = name) by (rewrite Hn4, Hn3; exact Hn2).
  assert (Hcs : node_GetContent m4 = cs) by (rewrite Hc4, Hc3, Hc2, Hempty; reflexivity).
  exists e, (<[b := m3]> h), h4.
  split; [unfold heap_SetXMLName; rewrite Hb; exact Hattrs|].
  split; [exact Hd4|].
  split; [unfold heap_GetXMLName; rewrite Hb4; exact Hname4|].
  split; [exact Hl4|].
  split.
  { intros c Hc Hne. rewrite Hf4 by assumption. apply list_lookup_insert_ne. congruence. }
  apply reads_in_unfold.
  split; [lia|].
  split; [cbn; rewrite Hb4; exact Hname4|].
  split; [reflexivity|].
  cbn [GetContent]. rewrite Hb4, Hcs.
  eapply Forall2_impl; [exact Hr4|]. intros c t Hr. cbv beta in Hr.
  apply (reads_in_widen (length h) (length h4)); [lia | lia | exact Hr].
Qed.

(** ** The description and the bodies *)

Section DescriptionFacts.
Context {float64 : Type} `{!Float64 float64}.

(** An open tag that a node of the description takes for a child among
    the nodes of the description. *)
Lemma doc_open_info_child (s : @docStore float64) (a : addr) (i i' c : info)
      (start : StartElement) (stk : list docRef) (root : option docRef) :
  infos s !! a = Some i ->
  info_tagCallback a i start s
  = (Some (InfoRef (length (infos s))), None, i', mkDocStore (infos s ++ [c]) (contents s)) ->
  ParseToken (mkParser stk (Some (InfoRef a)) root) (TStartElement start) s
  = (let s1 := mkDocStore
                 (<[a := i']> (infos s)
                  ++ [info_with_baseNode (mkBaseNode (StartName start)) c])
                 (contents s) in
     let '(e, s2) := forwardAttrs (InfoRef (length (infos s))) (StartAttr start) s1 in
     Ret (e, mkParser (stk ++ [InfoRef a]) (Some (InfoRef (length (infos s)))) root, s2)).
Proof.
  intros Ha Ht.
  assert (Hlt : a < length (infos s)) by (eapply lookup_lt_Some; exact Ha).
  cbn [ParseToken last tagCallback doc_Node]. unfold doc_tagCallback.
  rewrite Ha, Ht. cbn [infos contents].
  unfold openNode. cbn [last stack first SetXMLName doc_Node doc_SetXMLName].
  cbn [infos contents].
  rewrite insert_app_l by exact Hlt.
  rewrite (lookup_app_r (<[a := i']> (infos s))) by (rewrite length_insert; lia).
  rewrite length_insert, Nat.sub_diag. cbn [lookup list_lookup].
  rewrite (insert_app_r_alt (<[a := i']> (infos s))) by (rewrite length_insert; lia).
  rewrite length_insert, Nat.sub_diag. cbn [insert list_insert].
  reflexivity.
Qed.

(** The close tag of a child, with its parent on top of the stack. *)
Lemma doc_close_child (s : @docStore float64) (a : addr) (r : docRef) (name : Name)
      (stk : list docRef) (root : option docRef) :
  doc_GetXMLName r s = name ->
  ParseToken (mkParser (stk ++ [InfoRef a]) (Some r) root) (TEndElement name) s
  = Ret (None, mkParser stk (Some (InfoRef a)) root, s).
Proof.
  intros Hn. cbn [ParseToken last GetXMLName doc_Node].
  rewrite Hn, Name_eqb_refl. cbn [negb stack].
  rewrite rev_app_distr. cbn [rev app]. rewrite rev_involutive. reflexivity.
Qed.

Lemma lookup_snoc_length {A : Type} (l : list A) (x : A) (n : nat) :
  n = length l -> (l ++ [x]) !! n = Some x.
Proof. apply list_lookup_middle. Qed.

Lemma insert_snoc_length {A : Type} (l : list A) (x y : A) (n : nat) :
  n = length l -> <[n := y]> (l ++ [x]) = l ++ [y].
Proof.
  intros ->. rewrite insert_app_r_alt by lia. rewrite Nat.sub_diag. reflexivity.
Qed.

Lemma TextField_runs (l : list (@info float64)) (h : heap) (n : nat)
      (runs : list CharData) :
  n = length l ->
  forall t : TextField,
    fold_left (fun s cd => snd (charDataCallback (InfoRef n) cd s)) runs
      (mkDocStore (l ++ [ITextField t]) h)
    = mkDocStore (l ++ [ITextField
                          (mkTextField (TextField_baseNode t) (TextField_Lang t)
                             (List.last runs (TextField_Value t)))]) h.
Proof.
  intros Hn. induction runs as [|cd runs IH]; intros t; [destruct t; reflexivity|].
  cbn [fold_left charDataCallback doc_Node doc_charDataCallback infos contents].
  rewrite (lookup_snoc_length _ _ _ Hn).
  cbn [info_charDataCallback TextField_charDataCallback snd].
  rewrite (insert_snoc_length _ _ _ _ Hn), IH, last_cons. reflexivity.
Qed.

(** X17.  A child with no attributes for which its parent creates a
    [TextField] (the names of an author, the title of the book, ...):
    after its close tag the parser is back at the parent, and the
    [TextField] holds the name of the element and, for [Value], the last
    text run of the element (empty if it has none). *)
Theorem text_field_child_keeps_the_last_run
    (s : @docStore float64) (a : addr) (i i' : info) (name : Name) (toks : list Token)
    (stk : list docRef) (root : option docRef) :
  infos s !! a = Some i ->
  info_tagCallback a i (mkStart name []) s
  = (Some (InfoRef (length (infos s))), None, i',
     mkDocStore (infos s ++ [ITextField TextField0]) (contents s)) ->
  forallb (fun t => negb (is_tag t)) toks = true ->
  dispatch (mkParser stk (Some (InfoRef a)) root)
    (TStartElement (mkStart name []) :: toks ++ [TEndElement name]) s
  = Ret (mkParser stk (Some (InfoRef a)) root,
         mkDocStore
           (<[a := i']> (infos s)
            ++ [ITextField (mkTextField (mkBaseNode name) "" (List.last (text_runs toks) ""))])
           (contents s)).
Proof.
  intros Ha Ht Hall.
  assert (Hlen : length (<[a := i']> (infos s)) = length (infos s)) by apply length_insert.
  cbn [dispatch]. rewrite (doc_open_info_child s a i i' _ _ stk root Ha Ht).
  cbn [StartAttr StartName forwardAttrs info_with_baseNode TextField0
         TextField_Lang TextField_Value].
  rewrite dispatch_app.
  rewrite (dispatch_text_runs toks Hall _ (InfoRef (length (infos s)))) by reflexivity.
  rewrite (TextField_runs _ _ _ _ (eq_sym Hlen)).
  cbn [TextField_baseNode TextField_Lang TextField_Value dispatch].
  rewrite doc_close_child; [reflexivity|].
  cbn [doc_GetXMLName infos]. rewrite (lookup_snoc_length _ _ _ (eq_sym Hlen)). reflexivity.
Qed.

Lemma fieldNode_forwardAttrs (l : list (@info float64)) (h : heap) (n : nat) (c : info)
      (attrs : list Attr) :
  n = length l ->
  (forall attr, info_attrCallback c attr = (baseNode_attrCallback attr, c)) ->
  snd (forwardAttrs (InfoRef n) attrs (mkDocStore (l ++ [c]) h))
  = mkDocStore (l ++ [c]) h.
Proof.
  intros Hn Hc. destruct attrs as [|attr attrs]; [reflexivity|].
  cbn [forwardAttrs attrCallback doc_Node doc_attrCallback infos contents].
  rewrite (lookup_snoc_length _ _ _ Hn), Hc. cbn.
  rewrite (insert_snoc_length _ _ _ _ Hn). reflexivity.
Qed.

Lemma Emails_runs (l : list (@info float64)) (h : heap) (a : addr) (b : baseNode)
      (runs : list CharData) :
  a < length l ->
  forall (l1 : list info) (x : Author),
    length l1 = length l -> l1 !! a = Some (IAuthor x) ->
    fold_left (fun s cd => snd (charDataCallback (InfoRef (length l)) cd s)) runs
      (mkDocStore (l1 ++ [IstringArrayNode (mkStringArrayNode (Author_Emails_ptr a) b)]) h)
    = mkDocStore
        (<[a := IAuthor (mkAuthor (Author_FirstName x) (Author_MiddleName x)
                           (Author_LastName x) (Author_Nickname x) (Author_HomePages x)
                           (Author_Emails x ++ runs) (Author_ID x) (Author_baseNode x))]> l1
         ++ [IstringArrayNode (mkStringArrayNode (Author_Emails_ptr a) b)]) h.
Proof.
  intros Hlt. induction runs as [|cd runs IH]; intros l1 x Hlen Ha.
  - cbn [fold_left]. rewrite app_nil_r. destruct x. cbn. rewrite list_insert_id by exact Ha.
    reflexivity.
  - cbn [fold_left charDataCallback doc_Node doc_charDataCallback infos contents].
    rewrite (lookup_snoc_length _ _ _ (eq_sym Hlen)).
    cbn [info_charDataCallback stringArrayNode_charDataCallback stringArrayNode_s snd].
    rewrite (lookup_app_l l1) by lia. rewrite Ha.
    rewrite insert_app_l by lia.
    rewrite (IH _ (mkAuthor (Author_FirstName x) (Author_MiddleName x)
                     (Author_LastName x) (Author_Nickname x) (Author_HomePages x)
                     (Author_Emails x ++ [cd]) (Author_ID x) (Author_baseNode x)));
      [| rewrite length_insert; exact Hlen | apply list_lookup_insert_eq; lia].
    cbn [Author_FirstName Author_MiddleName Author_LastName Author_Nickname Author_HomePages
           Author_Emails Author_ID Author_baseNode].
    rewrite list_insert_insert_eq, <- app_assoc. reflexivity.
Qed.

(** X18.  The [email] child of an author: its node is a
    [stringArrayNode] on [&a.Emails], which appends, so every text run of
    the element becomes an entry of [Emails] of its own, in order, and an
    element without text adds none. *)
Theorem Author_emails_take_every_text_run
    (s : @docStore float64) (a : addr) (x : Author) (name : Name) (attrs : list Attr)
    (toks : list Token) (stk : list docRef) (root : option docRef) :
  infos s !! a = Some (IAuthor x) ->
  Local name = "email" ->
  forallb (fun t => negb (is_tag t)) toks = true ->
  dispatch (mkParser stk (Some (InfoRef a)) root)
    (TStartElement (mkStart name attrs) :: toks ++ [TEndElement name]) s
  = Ret (mkParser stk (Some (InfoRef a)) root,
         mkDocStore
           (<[a := IAuthor (mkAuthor (Author_FirstName x) (Author_MiddleName x)
                              (Author_LastName x) (Author_Nickname x) (Author_HomePages x)
                              (Author_Emails x ++ text_runs toks) (Author_ID x)
                              (Author_baseNode x))]> (infos s)
            ++ [IstringArrayNode (mkStringArrayNode (Author_Emails_ptr a) (mkBaseNode name))])
           (contents s)).
Proof.
  intros Ha Hname Hall.
  assert (Hlt : a < length (infos s)) by (eapply lookup_lt_Some; exact Ha).
  assert (Ht : info_tagCallback a (IAuthor x) (mkStart name attrs) s
               = (Some (InfoRef (length (infos s))), None, IAuthor x,
                  mkDocStore (infos s ++ [IstringArrayNode
                                 (mkStringArrayNode (Author_Emails_ptr a) baseNode0)])
                    (contents s))).
  { cbn [info_tagCallback]. unfold Author_tagCallback. cbn [StartName]. rewrite Hname.
    reflexivity. }
  cbn [dispatch]. rewrite (doc_open_info_child s a _ _ _ _ stk root Ha Ht).
  cbn [StartAttr StartName info_with_baseNode stringArrayNode_s].
  rewrite list_insert_id by exact Ha.
  pose proof (fieldNode_forwardAttrs (infos s) (contents s) _
                (IstringArrayNode (mkStringArrayNode (Author_Emails_ptr a) (mkBaseNode name)))
                attrs eq_refl (fun _ => eq_refl)) as Hf.
  destruct (forwardAttrs _ attrs _) as [e s2]. cbn [snd] in Hf. subst s2.
  rewrite dispatch_app.
  rewrite (dispatch_text_runs toks Hall _ (InfoRef (length (infos s)))) by reflexivity.
  rewrite (Emails_runs (infos s) (contents s) a _ (text_runs toks) Hlt (infos s) x eq_refl Ha).
  cbn [dispatch]. rewrite doc_close_child; [reflexivity|].
  cbn [doc_GetXMLName infos].
  rewrite lookup_snoc_length by (rewrite length_insert; reflexivity). reflexivity.
Qed.

Lemma Version_runs (l : list (@info float64)) (h : heap) (a : addr) (b : baseNode)
      (runs : list CharData) :
  a < length l ->
  forall (l1 : list info) (x : DocumentInfo),
    length l1 = length l -> l1 !! a = Some (IDocumentInfo x) ->
    fold_left (fun s cd => snd (charDataCallback (InfoRef (length l)) cd s)) runs
      (mkDocStore (l1 ++ [IfloatNode (mkFloatNode b a)]) h)
    = mkDocStore
        (<[a := IDocumentInfo
                  (mkDocumentInfo (DocumentInfo_baseNode x) (DocumentInfo_Authors x)
                     (DocumentInfo_ProgramUsed x) (DocumentInfo_Date x)
                     (DocumentInfo_SrcURLs x) (DocumentInfo_SrcOcr x) (DocumentInfo_ID x)
                     (List.last (map (fun cd => fst (ParseFloat cd)) runs)
                        (DocumentInfo_Version x))
                     (DocumentInfo_History x) (DocumentInfo_Publishers x))]> l1
         ++ [IfloatNode (mkFloatNode b a)]) h.
Proof.
  intros Hlt. induction runs as [|cd runs IH]; intros l1 x Hlen Ha.
  - cbn [fold_left map List.last]. destruct x. cbn. rewrite list_insert_id by exact Ha.
    reflexivity.
  - cbn [fold_left charDataCallback doc_Node doc_charDataCallback infos contents].
    rewrite (lookup_snoc_length _ _ _ (eq_sym Hlen)).
    cbn [info_charDataCallback]. unfold floatNode_charDataCallback. cbn [floatNode_f].
    destruct (ParseFloat cd) as [fl err] eqn:Hp. cbn [snd].
    rewrite (lookup_app_l l1) by lia. rewrite Ha.
    rewrite insert_app_l by lia.
    rewrite (IH _ (mkDocumentInfo (DocumentInfo_baseNode x) (DocumentInfo_Authors x)
                     (DocumentInfo_ProgramUsed x) (DocumentInfo_Date x)
                     (DocumentInfo_SrcURLs x) (DocumentInfo_SrcOcr x) (DocumentInfo_ID x)
                     fl (DocumentInfo_History x) (DocumentInfo_Publishers x)));
      [| rewrite length_insert; exact Hlen | apply list_lookup_insert_eq; lia].
    cbn [DocumentInfo_baseNode DocumentInfo_Authors DocumentInfo_ProgramUsed DocumentInfo_Date
           DocumentInfo_SrcURLs DocumentInfo_SrcOcr DocumentInfo_ID DocumentInfo_Version
           DocumentInfo_History DocumentInfo_Publishers map].
    rewrite list_insert_insert_eq, last_cons, Hp. reflexivity.
Qed.

(** X19.  The [version] child of the document information: its node is
    a [floatNode] on [&di.Version], which assigns before it returns the
    error, so [Version] is what [strconv.ParseFloat] returned for the last
    text run, also when it returned an error. *)
Theorem DocumentInfo_version_is_assigned_with_the_error
    (s : @docStore float64) (a : addr) (x : DocumentInfo) (name : Name) (attrs : list Attr)
    (toks : list Token) (stk : list docRef) (root : option docRef) :
  infos s !! a = Some (IDocumentInfo x) ->
  Local name = "version" ->
  forallb (fun t => negb (is_tag t)) toks = true ->
  dispatch (mkParser stk (Some (InfoRef a)) root)
    (TStartElement (mkStart name attrs) :: toks ++ [TEndElement name]) s
  = Ret (mkParser stk (Some (InfoRef a)) root,
         mkDocStore
           (<[a := IDocumentInfo
                     (mkDocumentInfo (DocumentInfo_baseNode x) (DocumentInfo_Authors x)
                        (DocumentInfo_ProgramUsed x) (DocumentInfo_Date x)
                        (DocumentInfo_SrcURLs x) (DocumentInfo_SrcOcr x) (DocumentInfo_ID x)
                        (List.last (map (fun cd => fst (ParseFloat cd)) (text_runs toks))
                           (DocumentInfo_Version x))
                        (DocumentInfo_History x) (DocumentInfo_Publishers x))]> (infos s)
            ++ [IfloatNode (mkFloatNode (mkBaseNode name) a)])
           (contents s)).
Proof.
  intros Ha Hname Hall.
  assert (Hlt : a < length (infos s)) by (eapply lookup_lt_Some; exact Ha).
  assert (Ht : info_tagCallback a (IDocumentInfo x) (mkStart name attrs) s
               = (Some (InfoRef (length (infos s))), None, IDocumentInfo x,
                  mkDocStore (infos s ++ [IfloatNode (mkFloatNode baseNode0 a)])
                    (contents s))).
  { cbn [info_tagCallback]. unfold DocumentInfo_tagCallback. cbn [StartName]. rewrite Hname.
    reflexivity. }
  cbn [dispatch]. rewrite (doc_open_info_child s a _ _ _ _ stk root Ha Ht).
  cbn [StartAttr StartName info_with_baseNode floatNode_f].
  rewrite list_insert_id by exact Ha.
  pose proof (fieldNode_forwardAttrs (infos s) (contents s) _
                (IfloatNode (mkFloatNode (mkBaseNode name) a))
                attrs eq_refl (fun _ => eq_refl)) as Hf.
  destruct (forwardAttrs _ attrs _) as [e s2]. cbn [snd] in Hf. subst s2.
  rewrite dispatch_app.
  rewrite (dispatch_text_runs toks Hall _ (InfoRef (length (infos s)))) by reflexivity.
  rewrite (Version_runs (infos s) (contents s) a _ (text_runs toks) Hlt (infos s) x eq_refl Ha).
  cbn [dispatch]. rewrite doc_close_child; [reflexivity|].
  cbn [doc_GetXMLName infos].
  rewrite lookup_snoc_length by (rewrite length_insert; reflexivity). reflexivity.
Qed.

(** X20.  Below the description and in the bodies, a refused attribute
    leaves the node as it was ([Sequence] and [Genre] look at the error of
    [strconv.Atoi] before they assign), except for [price]:
    [ShareInstruction] and [OutPutDocument] assign what
    [strconv.ParseFloat] returned and then return its error. *)
Theorem info_refused_attribute_leaves_the_node
    (i i' : @info float64) (attr : Attr) (err : error) :
  info_attrCallback i attr = (Some err, i') ->
  i' = i
  \/ (Local (AttrName attr) = "price"
      /\ ((exists x, i = IShareInstruction x
                     /\ i' = IShareInstruction
                               (mkShareInstruction (ShareInstruction_baseNode x)
                                  (ShareInstruction_Mode x) (ShareInstruction_IncludeAll x)
                                  (fst (ParseFloat (Value attr)))
                                  (ShareInstruction_Currency x) (ShareInstruction_Parts x)
                                  (ShareInstruction_OutputDocumentClass x)))
          \/ (exists x, i = IOutPutDocument x
                        /\ i' = IOutPutDocument
                                  (mkOutPutDocument (OutPutDocument_baseNode x)
                                     (OutPutDocument_Name x) (OutPutDocument_Create x)
                                     (fst (ParseFloat (Value attr)))
                                     (OutPutDocument_Parts x))))).
Proof.
  destruct i; cbn [info_attrCallback];
    unfold CustomInfo_attrCallback, TextField_attrCallback, ShareInstruction_attrCallback,
      PartShareInstruction_attrCallback, OutPutDocument_attrCallback, Date_attrCallback,
      Sequence_attrCallback, Genre_attrCallback, NotesBody_attrCallback, Body_attrCallback,
      baseNode_attrCallback;
    cbv zeta;
    repeat first
      [ progress split_ifs
      | match goal with
        | |- context [Atoi ?v] => destruct (Atoi v) as [? [?|]]
        | |- context [ParseFloat ?v] => destruct (ParseFloat v) as [? ?] eqn:?
        | |- context [time_Parse_dateFormat ?v] => destruct (time_Parse_dateFormat v)
        end ];
    intros H; inversion H; subst;
    try (left; reflexivity);
    try (left; destruct x as []; cbn; reflexivity);
    try (left; destruct x as [[] ?]; cbn; reflexivity).
  - right. split; [apply String.eqb_eq; assumption|]. left. eexists. split; reflexivity.
  - right. split; [apply String.eqb_eq; assumption|]. right. eexists. split; reflexivity.
Qed.

Lemma forwardAttrs_among_contents (a : addr) (attrs : list Attr) (l : list (@info float64))
      (h : heap) :
  forwardAttrs (ContentRef a) attrs (mkDocStore l h)
  = (fst (forwardAttrs a attrs h), mkDocStore l (snd (forwardAttrs a attrs h))).
Proof.
  revert h. induction attrs as [|attr attrs IH]; intros h; [reflexivity|].
  cbn [forwardAttrs attrCallback doc_Node heap_Node doc_attrCallback
         infos contents].
  destruct (heap_attrCallback a attr h) as [[err|] h1]; [reflexivity | apply IH].
Qed.

Lemma ParseToken_among_contents (p p1 : Parser addr) (t : Token) (h h1 : heap)
      (o : option error) (below : list docRef) (root : option docRef)
      (l : list (@info float64)) :
  last p <> None ->
  ParseToken p t h = Ret (o, p1, h1) ->
  last p1 <> None ->
  ParseToken (among_contents below root p) t (mkDocStore l h)
  = Ret (o, among_contents below root p1, mkDocStore l h1).
Proof.
  intros Hl Ht Hl1. destruct p as [stk [a|] rt]; [|exfalso; apply Hl; reflexivity].
  unfold among_contents. cbn [stack last first option_map] in *.
  destruct t as [e|name|cd|c|tg i|d]; cbn [ParseToken last stack first] in *.
  - cbn [tagCallback doc_Node heap_Node doc_tagCallback contents infos] in *.
    destruct (heap_tagCallback a e h) as [[nt [err|]] h2].
    + inversion Ht; subst. reflexivity.
    + cbn [option_map]. unfold openNode in *. cbn [last stack first] in *.
      destruct nt as [b|]; [|discriminate Ht]. cbn [option_map].
      cbn [SetXMLName doc_Node heap_Node doc_SetXMLName infos contents] in *.
      rewrite forwardAttrs_among_contents.
      destruct (forwardAttrs b (StartAttr e) (heap_SetXMLName b (StartName e) h2)) as [e2 h3].
      inversion Ht; subst. cbn [fst snd stack last option_map].
      rewrite map_app, app_assoc. reflexivity.
  - cbn [GetXMLName doc_Node heap_Node doc_GetXMLName contents] in *.
    destruct (negb (Name_eqb (heap_GetXMLName a h) name)).
    + inversion Ht; subst. reflexivity.
    + destruct (rev stk) as [|top rest] eqn:Hrev.
      * inversion Ht; subst. exfalso; apply Hl1; reflexivity.
      * inversion Ht; subst. cbn [stack last option_map].
        rewrite rev_app_distr, <- map_rev, Hrev. cbn [map app].
        rewrite rev_app_distr, rev_involutive, <- map_rev. reflexivity.
  - cbn [charDataCallback doc_Node heap_Node doc_charDataCallback
           contents infos] in *.
    destruct (heap_charDataCallback a cd h) as [[err|] h2]; inversion Ht; subst; reflexivity.
  - inversion Ht; subst. reflexivity.
  - inversion Ht; subst. reflexivity.
  - inversion Ht; subst. reflexivity.
Qed.


Lemma dispatch_among_contents (toks : list Token) :
  forall (p p' : Parser addr) (h h' : heap) (below : list docRef) (root : option docRef)
         (l : list (@info float64)),
    first p = None ->
    dispatch p toks h = Ret (p', h') ->
    last p' <> None ->
    dispatch (among_contents below root p) toks (mkDocStore l h)
    = Ret (among_contents below root p', mkDocStore l h').
Proof.
  induction toks as [|t toks IH]; intros p p' h h' below root l Hf Hd Hl'.
  - cbn [dispatch] in *. inversion Hd; subst. reflexivity.
  - assert (Hl : last p <> None).
    { intros Hl. apply Hl'. exact (dispatch_without_a_node _ _ _ _ _ Hl Hf Hd). }
    cbn [dispatch] in *.
    destruct (ParseToken p t h) as [[[o p1] h1]|] eqn:Ht; [|discriminate Hd].
    pose proof (ParseToken_first _ _ _ _ _ _ Ht) as Hf1. rewrite Hf in Hf1.
    assert (Hl1 : last p1 <> None).
    { intros Hl1. apply Hl'. exact (dispatch_without_a_node _ _ _ _ _ Hl1 Hf1 Hd). }
    rewrite (ParseToken_among_contents _ _ _ _ _ _ below root l Hl Ht Hl1).
    exact (IH _ _ _ _ below root l Hf1 Hd Hl').
Qed.

(** An element that a node of the description takes for a child in the
    content model: its tokens leave the parser at the parent, and the
    child reads as the content of the element. *)
Lemma doc_content_element (s : @docStore float64) (a : addr) (i i' : info) (k : kind)
      (name : Name) (attrs : list Attr) (children : list item)
      (stk : list docRef) (root : option docRef) :
  infos s !! a = Some i ->
  info_tagCallback a i (mkStart name attrs) s
  = (Some (ContentRef (length (contents s))), None, i',
     mkDocStore (infos s) (contents s ++ [zero k])) ->
  k <> KstringNode ->
  forallb (markup k) children = true ->
  exists h',
    dispatch (mkParser stk (Some (InfoRef a)) root) (tokens (IElem name attrs children)) s
    = Ret (mkParser stk (Some (InfoRef a)) root, mkDocStore (<[a := i']> (infos s)) h')
    /\ length (contents s) < length h'
    /\ (forall c, c < length (contents s) -> h' !! c = contents s !! c)
    /\ reads_in (length (contents s)) (length h') h' (CNode (length (contents s)))
         (Tree name "" (content_of k children)).
Proof.
  intros Ha Ht Hns Hm.
  set (c := length (contents s)) in *.
  assert (Hc : (contents s ++ [zero k]) !! c = Some (zero k))
    by (apply list_lookup_middle; reflexivity).
  destruct (element_children_read (contents s ++ [zero k]) c (zero k) name attrs children
              [] None Hc) as (e & h3 & h4 & Hattrs & Hd & Hname & Hlen & Hframe & Hreads).
  { rewrite kind_of_zero. exact Hns. }
  { apply content_zero. }
  { rewrite kind_of_zero. exact Hm. }
  rewrite kind_of_zero in Hreads. rewrite length_app in Hlen, Hframe, Hreads.
  cbn [length] in Hlen, Hframe, Hreads. fold c in Hlen, Hframe, Hreads.
  rewrite Nat.min_l in Hreads by lia.
  exists h4. split; [|split; [lia|split; [|exact Hreads]]].
  - cbn [tokens dispatch]. unfold ParseToken at 1.
    cbn [last tagCallback doc_Node]. unfold doc_tagCallback.
    rewrite Ha, Ht. cbn [infos contents]. unfold openNode.
    cbn [last stack first SetXMLName doc_Node doc_SetXMLName StartName StartAttr
           infos contents].
    rewrite forwardAttrs_among_contents, Hattrs. cbn [fst snd].
    rewrite dispatch_app.
    pose proof (dispatch_among_contents _ (mkParser [] (Some c) None) _ _ _
                  (stk ++ [InfoRef a]) root (<[a := i']> (infos s)) eq_refl Hd
                  ltac:(discriminate)) as Hlift.
    unfold among_contents in Hlift. cbn [stack last map option_map] in Hlift.
    rewrite app_nil_r in Hlift. rewrite Hlift. cbn [dispatch].
    rewrite doc_close_child; [reflexivity|]. exact Hname.
  - intros b Hb. rewrite Hframe by lia. apply lookup_app_l. exact Hb.
Qed.

(** ** Body.tagCallback *)

Lemma Body_sections_read (l : list item) :
  forallb is_section l = true ->
  forall (s : @docStore float64) (a : addr) (b : Body) (stk : list docRef)
         (root : option docRef),
    infos s !! a = Some (IBody b) ->
    exists secs h',
      dispatch (mkParser stk (Some (InfoRef a)) root) (flat_map tokens l) s
      = Ret (mkParser stk (Some (InfoRef a)) root,
             mkDocStore
               (<[a := IBody (mkBody (Body_baseNode b) (Body_Image b) (Body_Title b)
                                (Body_Epigraphs b) (Body_Sections b ++ secs) (Body_Lang b))]>
                  (infos s)) h')
      /\ length (contents s) <= length h'
      /\ (forall c, c < length (contents s) -> h' !! c = contents s !! c)
      /\ Forall2 (fun c i =>
                    reads_in (length (contents s)) (length h') h' (CNode c)
                      (Tree (item_name i) "" (content_of KSection (item_children i))))
           secs (elements l).
Proof.
  induction l as [|i l IH]; intros Hall s a b stk root Ha.
  - exists [], (contents s). cbn [flat_map dispatch elements List.filter].
    rewrite app_nil_r. destruct b. cbn. rewrite list_insert_id by exact Ha. destruct s.
    repeat split; auto.
  - cbn [forallb] in Hall. apply andb_prop in Hall as [Hi Hall].
    destruct i as [cd|name attrs children]; cbn [flat_map tokens].
    + destruct (IH Hall s a b stk root Ha) as (secs & h' & Hd & Hlen & Hfr & Hr).
      exists secs, h'. split; [|auto].
      cbn [app dispatch ParseToken last charDataCallback doc_Node].
      unfold doc_charDataCallback. rewrite Ha. cbn [info_charDataCallback].
      cbn [baseNode_charDataCallback]. destruct s as [li hc]. exact Hd.
    + cbn [is_section] in Hi. apply andb_prop in Hi as [Hname Hm].
      apply String.eqb_eq in Hname.
      set (b1 := mkBody (Body_baseNode b) (Body_Image b) (Body_Title b) (Body_Epigraphs b)
                   (Body_Sections b ++ [length (contents s)]) (Body_Lang b)).
      destruct (doc_content_element s a (IBody b) (IBody b1) KSection name attrs children
                  stk root Ha) as (h1 & Hd1 & Hlen1 & Hfr1 & Hr1);
        [| discriminate | exact Hm |].
      { cbn [info_tagCallback]. unfold Body_tagCallback. cbn [StartName]. rewrite Hname.
        reflexivity. }
      assert (Hlt : a < length (infos s)) by (eapply lookup_lt_Some; exact Ha).
      destruct (IH Hall (mkDocStore (<[a := IBody b1]> (infos s)) h1) a b1 stk root)
        as (secs & h2 & Hd2 & Hlen2 & Hfr2 & Hr2).
      { cbn [infos]. apply list_lookup_insert_eq. exact Hlt. }
      cbn [infos contents] in Hd2, Hlen2, Hfr2, Hr2.
      exists (length (contents s) :: secs), h2.
      split.
      { change (TStartElement (mkStart name attrs) :: flat_map tokens children
                ++ [TEndElement name]) with (tokens (IElem name attrs children)).
        rewrite dispatch_app, Hd1, Hd2. rewrite list_insert_insert_eq.
        subst b1. cbn [Body_baseNode Body_Image Body_Title Body_Epigraphs Body_Sections
                         Body_Lang].
        rewrite <- app_assoc. reflexivity. }
      split; [lia|].
      split; [intros c Hc; rewrite Hfr2 by lia; apply Hfr1; exact Hc|].
      cbn [elements List.filter is_element]. constructor.
      * cbn [item_name item_children].
        apply (reads_in_widen (length (contents s)) (length h1)); [lia | exact Hlen2 |].
        apply (reads_in_frame (length (contents s)) (length h1) h1); [|exact Hr1].
        intros c Hc. apply Hfr2. lia.
      * eapply Forall2_impl; [exact Hr2|]. intros c t Hr. cbv beta in Hr.
        apply (reads_in_widen (length h1) (length h2)); [lia | lia | exact Hr].
Qed.

(** X21.  The sections of a body: on children that are sections in the
    vocabulary (and text, which a body drops), [Body.tagCallback] appends
    one node per section to [Sections], in document order, each reading
    back through [Contenter] as the content of its section, an image among
    its children being in that content only when it comes after content;
    the parser is back at the body. *)
Theorem Body_sections_in_document_order
    (s : @docStore float64) (a : addr) (b : Body) (l : list item)
    (stk : list docRef) (root : option docRef) :
  infos s !! a = Some (IBody b) ->
  forallb is_section l = true ->
  exists secs h',
    dispatch (mkParser stk (Some (InfoRef a)) root) (flat_map tokens l) s
    = Ret (mkParser stk (Some (InfoRef a)) root,
           mkDocStore
             (<[a := IBody (mkBody (Body_baseNode b) (Body_Image b) (Body_Title b)
                              (Body_Epigraphs b) (Body_Sections b ++ secs) (Body_Lang b))]>
                (infos s)) h')
    /\ Forall2 (fun c i =>
                  reads h' (CNode c)
                    (Tree (item_name i) "" (content_of KSection (item_children i))))
         secs (elements l).
Proof.
  intros Ha Hall.
  destruct (Body_sections_read l Hall s a b stk root Ha) as (secs & h' & Hd & _ & _ & Hr).
  exists secs, h'. split; [exact Hd|].
  eapply Forall2_impl; [exact Hr|]. intros c t. apply reads_in_reads.
Qed.

(** ** Panics on the store of the description *)

Lemma info_tagCallback_result (a : addr) (i i' : @info float64) (start : StartElement)
      (s s' : docStore) (r : option docRef) (e : option error) :
  info_tagCallback a i start s = (r, e, i', s') ->
  match e with
  | None => r <> None
  | Some err => r = None /\ err = UnexpectedTag (StartName start) /\ i' = i /\ s' = s
  end.
Proof.
  destruct i; cbn [info_tagCallback];
    unfold Description_tagCallback, TitleInfo_tagCallback, DocumentInfo_tagCallback,
      PublishInfo_tagCallback, ShareInstruction_tagCallback, OutPutDocument_tagCallback,
      Author_tagCallback, Sequence_tagCallback, Coverpage_tagCallback, Body_tagCallback,
      newInfo, newContent, baseNode_tagCallback;
    cbv zeta;
    repeat match goal with
           | |- context [if ?b then _ else _] => destruct b
           end;
    intros H; inversion H; subst; try discriminate;
    repeat split; try reflexivity.
  destruct x; reflexivity.
Qed.

Lemma heap_tagCallback_result (a : addr) (start : StartElement) (h h' : heap)
      (r : option addr) :
  heap_tagCallback a start h = (r, None, h') -> r <> None.
Proof.
  unfold heap_tagCallback. destruct (h !! a) as [n|]; [|intros [=]].
  destruct (node_tagCallback a n start h) as [[[r1 e1] n1] h1] eqn:Ht.
  intros H; inversion H; subst.
  destruct (node_tagCallback_accepted _ _ _ _ _ _ _ Ht) as (c & cs & -> & _). discriminate.
Qed.

(** X22.  On the nodes of the description and of the bodies
    [ParseToken] panics in the same two cases only, both with no node
    current: on a close tag, and on an open tag when the parser was made
    without a root. *)
Theorem doc_ParseToken_panics_iff (p : Parser docRef) (token : Token) (s : @docStore float64) :
  ParseToken p token s = Panicked
  <-> last p = None
      /\ match token with
         | TEndElement _ => True
         | TStartElement _ => first p = None
         | _ => False
         end.
Proof.
  destruct token as [e|name|cd|c|t i|d]; cbn [ParseToken].
  - destruct (last p) as [l|] eqn:Hl.
    + split; [|intros [[=] _]].
      cbn [tagCallback doc_Node]. unfold doc_tagCallback.
      assert (Hopen : forall nt s1, nt <> None ->
                openNode (mkParser (stack p ++ [l]) nt (first p)) e s1 <> Panicked).
      { intros [r|] s1 Hnt; [|congruence]. unfold openNode. cbn [last].
        destruct (forwardAttrs _ _ _). discriminate. }
      destruct l as [a|a].
      * destruct (infos s !! a) as [i|] eqn:Hi; [|intros [=]].
        destruct (info_tagCallback a i e s) as [[[r [err|]] i'] s'] eqn:Ht;
          [intros [=]|].
        pose proof (info_tagCallback_result _ _ _ _ _ _ _ _ Ht) as Hr. cbn in Hr.
        intros Hp. exfalso. exact (Hopen _ _ Hr Hp).
      * destruct (heap_tagCallback a e (contents s)) as [[r [err|]] h'] eqn:Ht; [intros [=]|].
        pose proof (heap_tagCallback_result _ _ _ _ _ Ht) as Hr.
        intros Hp. exfalso. refine (Hopen (option_map ContentRef r) _ _ Hp).
        destruct r; [discriminate | congruence].
    + unfold openNode. cbn [last]. destruct (first p) as [r|].
      * destruct (forwardAttrs _ _ _). split; [intros [=] | intros [_ [=]]].
      * split; auto.
  - destruct (last p) as [l|]; [|split; auto].
    split; [|intros [[=] _]].
    destruct (negb _); [intros [=]|]. destruct (rev (stack p)); intros [=].
  - split; [|intros [_ []]].
    destruct (last p) as [l|]; [|intros [=]].
    destruct (charDataCallback l cd s) as [[err|] s1]; intros [=].
  - split; [intros [=] | intros [_ []]].
  - split; [intros [=] | intros [_ []]].
  - split; [intros [=] | intros [_ []]].
Qed.


End DescriptionFacts.

Lemma info_refused_attribute_leaves_the_node_witness :
  snd (info_attrCallback (float64 := Z) (ISequence (mkSequence baseNode0 [] "" 3))
         (mkAttr (plain "number") "four"))
  = ISequence (mkSequence baseNode0 [] "" 3).
Proof.
  destruct (info_refused_attribute_leaves_the_node
              (ISequence (mkSequence baseNode0 [] "" 3)) _
              (mkAttr (plain "number") "four") _ eq_refl) as [H | [Hprice _]];
    [exact H | discriminate Hprice].
Defined.

Lemma text_field_child_keeps_the_last_run_witness :
  dispatch (mkParser [] (Some (InfoRef 0)) (Some (InfoRef 0)))
    (TStartElement (mkStart (plain "first-name") [])
     :: [TCharData "Lev"; TComment "c"; TCharData "Leo"]
     ++ [TEndElement (plain "first-name")])
    (mkDocStore (float64 := Z) [IAuthor Author0] [])
  = Ret (mkParser [] (Some (InfoRef 0)) (Some (InfoRef 0)),
         mkDocStore
           ([IAuthor (mkAuthor (Some 1) None None None [] [] "" baseNode0)]
            ++ [ITextField (mkTextField (mkBaseNode (plain "first-name")) "" "Leo")])
           []).
Proof.
  exact (text_field_child_keeps_the_last_run (mkDocStore [IAuthor Author0] []) 0
           (IAuthor Author0) _ (plain "first-name")
           [TCharData "Lev"; TComment "c"; TCharData "Leo"] [] (Some (InfoRef 0))
           eq_refl eq_refl eq_refl).
Defined.

Lemma Author_emails_take_every_text_run_witness :
  dispatch (mkParser [] (Some (InfoRef 0)) (Some (InfoRef 0)))
    (TStartElement (mkStart (plain "email") [])
     :: [TCharData "a"; TComment "c"; TCharData "@b"]
     ++ [TEndElement (plain "email")])
    (mkDocStore (float64 := Z) [IAuthor Author0] [])
  = Ret (mkParser [] (Some (InfoRef 0)) (Some (InfoRef 0)),
         mkDocStore
           ([IAuthor (mkAuthor None None None None [] ["a"; "@b"] "" baseNode0)]
            ++ [IstringArrayNode
                  (mkStringArrayNode (Author_Emails_ptr 0) (mkBaseNode (plain "email")))])
           []).
Proof.
  exact (Author_emails_take_every_text_run (mkDocStore [IAuthor Author0] []) 0
           Author0 (plain "email") [] [TCharData "a"; TComment "c"; TCharData "@b"] []
           (Some (InfoRef 0)) eq_refl eq_refl eq_refl).
Defined.

Lemma DocumentInfo_version_is_assigned_with_the_error_witness :
  dispatch (mkParser [] (Some (InfoRef 0)) (Some (InfoRef 0)))
    (TStartElement (mkStart (plain "version") [])
     :: [TCharData "2"; TCharData "two"]
     ++ [TEndElement (plain "version")])
    (mkDocStore (float64 := Z) [IDocumentInfo (mkDocumentInfo baseNode0 [] None None [] None "" 7%Z None [])] [])
  = Ret (mkParser [] (Some (InfoRef 0)) (Some (InfoRef 0)),
         mkDocStore
           ([IDocumentInfo (mkDocumentInfo baseNode0 [] None None [] None "" 0%Z None [])]
            ++ [IfloatNode (mkFloatNode (mkBaseNode (plain "version")) 0)])
           []).
Proof.
  exact (DocumentInfo_version_is_assigned_with_the_error (mkDocStore (float64 := Z) [IDocumentInfo (mkDocumentInfo baseNode0 [] None None [] None "" 7%Z None [])] []) 0 (mkDocumentInfo baseNode0 [] None None [] None "" 7%Z None [])
           (plain "version") [] [TCharData "2"; TCharData "two"] [] (Some (InfoRef 0))
           eq_refl eq_refl eq_refl).
Defined.

Lemma Body_sections_in_document_order_witness :
  exists secs h',
    dispatch (mkParser [] (Some (InfoRef 0)) (Some (InfoRef 0)))
      (flat_map tokens two_sections) (mkDocStore (float64 := Z) [IBody Body0] [])
    = Ret (mkParser [] (Some (InfoRef 0)) (Some (InfoRef 0)),
           mkDocStore
             (<[0 := IBody (mkBody baseNode0 None None [] ([] ++ secs) "")]> [IBody Body0]) h')
    /\ Forall2 (fun c i =>
                  reads h' (CNode c)
                    (Tree (item_name i) "" (content_of KSection (item_children i))))
         secs (elements two_sections).
Proof.
  exact (Body_sections_in_document_order (mkDocStore [IBody Body0] []) 0 Body0
           two_sections [] (Some (InfoRef 0)) eq_refl eq_refl).
Defined.
